(** * The Eden command line configuration layer (eden/fs/cli/config.py)

    A shallow embedding of the [Config] class: the on-disk client registry,
    the health probe and start-up of the edenfs daemon, and the
    mount / unmount / checkout operations that delegate to the daemon over
    thrift.

    The Python code works on a filesystem, a thrift service, the process
    environment and a clock.  These make up the [world] that every operation
    threads through; an operation either returns a value, raises an
    exception, or (for [os.execve]) replaces the process image. *)

From Stdlib Require Import ZArith Ascii String List Bool Lia.
From stdpp Require Import base option list strings gmap fin_maps pretty sorting.

Local Open Scope string_scope.
Local Open Scope Z_scope.

(** ** Strings *)

Module Str.

Definition chars (s : string) : list ascii := list_ascii_of_string s.
Definition of_chars (l : list ascii) : string := string_of_list_ascii l.

Definition sep : ascii := "/"%char.
Definition newline : ascii := "010"%char.
Definition dquote : ascii := "034"%char.

  (** A line feed and a double quote, as strings. *)
Definition nl : string := String newline EmptyString.
Definition quote : string := String dquote EmptyString.

  (** [s.startswith(p)] *)
Fixpoint startswith (p s : string) : bool :=
    match p, s with
    | EmptyString, _ => true
    | String a p', String b s' => if decide (a = b) then startswith p' s' else false
    | String _ _, EmptyString => false
    end.

  (** [s.endswith('/')] *)
Definition endswith_sep (s : string) : bool :=
    match rev (chars s) with
    | c :: _ => bool_decide (c = sep)
    | [] => false
    end.

Definition cr : ascii := "013"%char.

  (** A Python [str] is represented by its encoding in UTF-8, the encoding
      of the locale: a character of the ASCII range is one byte, and any
      other character is a sequence of bytes above it.  A string that is not
      the encoding of a text stands for no [str], and the files of the model
      hold texts. *)

  (** The code points [c] for which [c.isspace()] holds, which are the
      characters removed by [str.strip()]: tab, line feed, vertical tab,
      form feed, carriage return, the four ASCII separators and the space;
      the next-line control and the no-break space; the Ogham space mark,
      the spaces U+2000 to U+200A, the line and the paragraph separator,
      the narrow no-break space, the medium mathematical space and the
      ideographic space. *)
Definition whitespace : list N :=
    [9; 10; 11; 12; 13; 28; 29; 30; 31; 32; 133; 160; 5760;
     8192; 8193; 8194; 8195; 8196; 8197; 8198; 8199; 8200; 8201; 8202;
     8232; 8233; 8239; 8287; 12288]%N.

  (** The UTF-8 encoding of a code point below U+10000. *)
Definition utf8 (n : N) : list ascii :=
    (if n <? 128 then [ascii_of_N n]
     else if n <? 2048 then
       [ascii_of_N (192 + n / 64); ascii_of_N (128 + n mod 64)]
     else
       [ascii_of_N (224 + n / 4096); ascii_of_N (128 + (n / 64) mod 64);
        ascii_of_N (128 + n mod 64)])%N.

Fixpoint starts_with (p l : list ascii) : bool :=
    match p, l with
    | [], _ => true
    | a :: p', b :: l' => if decide (a = b) then starts_with p' l' else false
    | _ :: _, [] => false
    end.

  (** [l] without the characters at its start that are among [encodings];
      [fuel] bounds their number. *)
Fixpoint drop_chars (encodings : list (list ascii)) (fuel : nat)
      (l : list ascii) : list ascii :=
    match fuel with
    | O => l
    | S fuel' =>
        match find (fun e => starts_with e l) encodings with
        | Some e => drop_chars encodings fuel' (drop (length e) l)
        | None => l
        end
    end.

Fixpoint dropwhile {A} (f : A -> bool) (l : list A) : list A :=
    match l with
    | [] => []
    | x :: l' => if f x then dropwhile f l' else l
    end.

Definition lstrip_chars (l : list ascii) : list ascii :=
    drop_chars (map utf8 whitespace) (length l) l.
Definition rstrip_chars (l : list ascii) : list ascii :=
    rev (drop_chars (map (fun n => rev (utf8 n)) whitespace) (length l) (rev l)).

  (** [s.strip()] *)
Definition strip (s : string) : string :=
    of_chars (lstrip_chars (rstrip_chars (chars s))).

  (** What a file opened in text mode gives for the text it holds: a line
      that ends in a carriage return, with or without a line feed after it,
      is read as ending in a line feed (universal newlines). *)
Fixpoint universal_newlines (s : string) : string :=
    match s with
    | EmptyString => EmptyString
    | String c s' =>
        if decide (c = cr) then
          String newline
            match s' with
            | String c' s'' =>
                if decide (c' = newline) then universal_newlines s''
                else universal_newlines s'
            | EmptyString => EmptyString
            end
        else String c (universal_newlines s')
    end.

  (** [sep.join(l)] *)
Fixpoint join (sep : string) (l : list string) : string :=
    match l with
    | [] => EmptyString
    | [x] => x
    | x :: l' => x +:+ sep +:+ join sep l'
    end.

  (** [s.split('/')] *)
Fixpoint split_sep (s : string) : list string :=
    match s with
    | EmptyString => [EmptyString]
    | String c s' =>
        if decide (c = sep) then EmptyString :: split_sep s'
        else match split_sep s' with
             | x :: xs => String c x :: xs
             | [] => [String c EmptyString]
             end
    end.

  (** ['{}'.format(n)] for an integer. *)
Definition of_Z (n : Z) : string := pretty n.

  (** ['{}'.format(x)] for a value that may be [None]. *)
Definition of_opt_Z (x : option Z) : string :=
    match x with
    | Some n => of_Z n
    | None => "None"
    end.

End Str.

(** ** Paths (posixpath) *)

(** [os.path.join(a, b)] *)
Definition os_path_join (a b : string) : string :=
  if Str.startswith "/" b then b
  else if bool_decide (a = EmptyString) || Str.endswith_sep a then a +:+ b
  else a +:+ "/" +:+ b.

(** [os.path.dirname(p)]: everything up to the last slash, with the trailing
    slashes removed unless the head consists of slashes only. *)
Definition os_path_dirname (p : string) : string :=
  let is_sep := fun c : ascii => bool_decide (c = Str.sep) in
  let rhead := Str.dropwhile (fun c => negb (is_sep c)) (rev (Str.chars p)) in
  if forallb is_sep rhead then Str.of_chars (rev rhead)
  else Str.of_chars (rev (Str.dropwhile is_sep rhead)).

(** The components of a path: empty components (repeated or trailing slashes)
    and [.] name no directory entry of their own. *)
Definition is_entry_name (c : string) : bool :=
  negb (bool_decide (c = EmptyString)) && negb (bool_decide (c = ".")).

Definition components (p : string) : list string :=
  filter (fun c => is_entry_name c = true) (Str.split_sep p).

(** A path is resolved to the list of its components, innermost first, so
    that the tail of a key is the key of the parent directory and [[]] is the
    root.  Relative paths are taken from the root, which is the working
    directory of the model; the empty path names nothing.  Paths with [..]
    components and symbolic links are outside the model. *)
Definition key := list string.

Definition resolve (p : string) : option key :=
  if bool_decide (p = EmptyString) then None else Some (rev (components p)).

(** A name that is a single directory entry. *)
Definition valid_name (name : string) : Prop :=
  (Str.sep ∉ Str.chars name) ∧ name ≠ EmptyString ∧ name ≠ "." ∧ name ≠ "..".

(** ** JSON documents

    [json.dump] and [json.load] belong to the Python library.  The text that
    [json.dump(doc, f, indent=2, sort_keys=True)] writes and the document
    that [json.load] reads back are parameters of the development (section
    [Eden] below); a Python [dict] is a finite map. *)

#[warnings="-register-all"]
Inductive json :=
| JNull
| JBool (b : bool)
| JNum (n : Z)
| JStr (s : string)
| JArr (l : list json)
| JObj (m : gmap string json).

(** ** The filesystem *)

Inductive node :=
| Dir
| File (data : string).

Inductive errno := ENOENT | EEXIST | ENOTDIR | EISDIR.

Global Instance errno_eq_dec : EqDecision errno.
Proof. solve_decision. Defined.

Abbreviation fstree := (gmap key node).

(** [lstat] of a resolved path: walking down from the root, a missing
    ancestor gives [ENOENT] and an ancestor that is a file [ENOTDIR];
    otherwise the entry, if there is one. *)
Fixpoint stat_key (t : fstree) (k : key) : errno + option node :=
  match k with
  | [] => inr (Some Dir)
  | _ :: parent =>
      match stat_key t parent with
      | inl e => inl e
      | inr None => inl ENOENT
      | inr (Some (File _)) => inl ENOTDIR
      | inr (Some Dir) => inr (t !! k)
      end
  end.

Definition stat_path (t : fstree) (p : string) : errno + option node :=
  match resolve p with
  | None => inl ENOENT
  | Some k => stat_key t k
  end.

Definition isdir (t : fstree) (p : string) : bool :=
  match stat_path t p with
  | inr (Some Dir) => true
  | _ => false
  end.

Definition exists_key (t : fstree) (k : key) : bool :=
  match stat_key t k with
  | inr (Some _) => true
  | _ => false
  end.

(** ** The thrift service *)

(** fb303's [fb_status]. *)
Inductive fb_status := DEAD | STARTING | ALIVE | STOPPING | STOPPED | WARNING.

Global Instance fb_status_eq_dec : EqDecision fb_status.
Proof. solve_decision. Defined.

(** [fb_status._VALUES_TO_NAMES] *)
Definition fb_status_name (s : fb_status) : string :=
  match s with
  | DEAD => "DEAD"
  | STARTING => "STARTING"
  | ALIVE => "ALIVE"
  | STOPPING => "STOPPING"
  | STOPPED => "STOPPED"
  | WARNING => "WARNING"
  end.

(** [eden_ttypes.MountInfo] *)
Record MountInfo := { mountPoint : string; edenClientPath : string }.

(** What a call to the service answers: a result, the service's own
    [EdenService.EdenError] carrying a message, or another thrift exception.
    Both exceptions come with the text [str(ex)] gives for them. *)
Inductive reply (A : Type) :=
| Reply (a : A)
| AppError (message : string) (str : string)
| TransportError (str : string).
Arguments Reply {A} a.
Arguments AppError {A} message str.
Arguments TransportError {A} str.

(** The service as a client sees it at one moment. *)
Record service_view := {
  sv_getPid : reply Z;
  sv_getStatus : reply fb_status;
  sv_mount : MountInfo -> reply unit;
  sv_unmount : string -> reply unit;
  sv_checkOutRevision : string -> string -> reply unit;
}.

Inductive request :=
| GetPid
| GetStatus
| Mount (info : MountInfo)
| Unmount (mount_point : string)
| CheckOutRevision (mount_point : string) (snapshot_id : string).

(** ** Exceptions *)

Inductive exn :=
| Exception (msg : string)
| EdenStartError (msg : string)
| OSError (e : errno)
| EdenError (message : string) (str : string)
| TException (str : string)
| EdenNotRunningError
| KeyError (k : string)
| TypeError
| ValueError.

(** [EdenService.EdenError] is a thrift exception. *)
Definition is_TException (e : exn) : option string :=
  match e with
  | EdenError _ s => Some s
  | TException s => Some s
  | _ => None
  end.

(** ** The world *)

(** [os.stat]: owner and mode. *)
Record stat_result := { st_uid : Z; st_mode : Z }.

(** [stat.S_ISUID] *)
Definition S_ISUID : Z := 2048.

(** A process started by [subprocess.Popen]. *)
Record process := {
  proc_cmd : list string;
  proc_env : gmap string string;
  proc_started : nat;
}.

(** What an operation does to its surroundings, in the order it does it.
    Queries of the filesystem through [os.path] and reads of files leave no
    event. *)
Inductive event :=
| EvMkdir (k : key)
| EvWrite (k : key) (data : string)
| EvAppend (k : key) (data : string)
| EvConnect (config_dir : string)
| EvRpc (r : request)
| EvGetEuid
| EvStat (path : string)
| EvEnviron
| EvExecve (cmd : list string) (env : gmap string string)
| EvPopen (cmd : list string) (env : gmap string string)
| EvPoll
| EvSleep (ms : nat).

(** The filesystem, the clock (in milliseconds) and the trace change; the
    rest describes the machine and the processes around the program:
    [service dir t] is the daemon serving the registry [dir] at time [t], if a
    connection can be made, and [child_status p t] the exit status of the
    launched process [p] if it has exited by time [t] (negative for a
    signal). *)
Record world := World {
  fs : fstree;
  now : nat;
  events : list event;
  environ : gmap string string;
  euid : Z;
  file_stat : string -> option stat_result;
  executable : string -> bool;
  service : string -> nat -> option service_view;
  child_status : process -> nat -> option Z;
  strftime : nat -> string;
}.

Definition set_fs (t : fstree) (w : world) : world :=
  World t (now w) (events w) (environ w) (euid w) (file_stat w)
        (executable w) (service w) (child_status w) (strftime w).

Definition log (e : event) (w : world) : world :=
  World (fs w) (now w) (events w ++ [e])%list (environ w) (euid w) (file_stat w)
        (executable w) (service w) (child_status w) (strftime w).

Definition advance (ms : nat) (w : world) : world :=
  World (fs w) (now w + ms) (events w) (environ w) (euid w) (file_stat w)
        (executable w) (service w) (child_status w) (strftime w).

(** ** Computations *)

Inductive outcome (A : Type) :=
| Ret (a : A) (w : world)
| Raise (e : exn) (w : world)
| Replaced (w : world)
| OutOfFuel (w : world).
Arguments Ret {A} a w.
Arguments Raise {A} e w.
Arguments Replaced {A} w.
Arguments OutOfFuel {A} w.

Definition M (A : Type) : Type := world -> outcome A.

Definition ret {A} (a : A) : M A := fun w => Ret a w.
Definition raise {A} (e : exn) : M A := fun w => Raise e w.

Definition bind {A B} (m : M A) (f : A -> M B) : M B :=
  fun w =>
    match m w with
    | Ret a w' => f a w'
    | Raise e w' => Raise e w'
    | Replaced w' => Replaced w'
    | OutOfFuel w' => OutOfFuel w'
    end.

(** [try: m  except ...: h]; the handler says which exceptions it takes. *)
Definition try_except {A} (m : M A) (h : exn -> option (M A)) : M A :=
  fun w =>
    match m w with
    | Raise e w' =>
        match h e with
        | Some k => k w'
        | None => Raise e w'
        end
    | o => o
    end.

Declare Scope eden_scope.
Delimit Scope eden_scope with eden.
Notation "x <- m ;; k" := (bind m (fun x => k))
  (at level 100, m at next level, right associativity) : eden_scope.
Notation "m ;;; k" := (bind m (fun _ => k))
  (at level 100, right associativity) : eden_scope.
Local Open Scope eden_scope.

Definition world_of {A} (o : outcome A) : world :=
  match o with
  | Ret _ w | Raise _ w | Replaced w | OutOfFuel w => w
  end.

(** ** Operating system calls *)

Definition is_EEXIST (e : exn) : bool :=
  match e with
  | OSError EEXIST => true
  | _ => false
  end.

(** [os.path.isdir(p)] *)
Definition os_path_isdir (p : string) : M bool :=
  fun w => Ret (isdir (fs w) p) w.

(** [mkdir(2)] on a resolved path. *)
Definition mkdir_key (k : key) : M unit :=
  fun w =>
    match stat_key (fs w) k with
    | inl e => Raise (OSError e) w
    | inr (Some _) => Raise (OSError EEXIST) w
    | inr None => Ret tt (log (EvMkdir k) (set_fs (<[k := Dir]> (fs w)) w))
    end.

(** [os.mkdir(p)] *)
Definition os_mkdir (p : string) : M unit :=
  match resolve p with
  | None => raise (OSError ENOENT)
  | Some k => mkdir_key k
  end.

(** [os.makedirs] on a resolved path, following the recursion of the Python
    library: when the parent does not exist it is created first, an [EEXIST]
    from that recursive call being ignored; then the leaf is created with
    [mkdir]. *)
Fixpoint makedirs_key (k : key) : M unit :=
  match k with
  | [] => mkdir_key k
  | _ :: head =>
      found <- (fun w => Ret (exists_key (fs w) head) w) ;;
      (if found then ret tt
       else try_except (makedirs_key head)
              (fun e => if is_EEXIST e then Some (ret tt) else None)) ;;;
      mkdir_key k
  end.

(** [os.makedirs(p)] *)
Definition os_makedirs (p : string) : M unit :=
  match resolve p with
  | None => raise (OSError ENOENT)
  | Some k => makedirs_key k
  end.

(** [open(p)]: a file opened for reading, which is given by what the file
    holds, or the error of opening it. *)
Definition open_file (p : string) : M string :=
  fun w =>
    match stat_path (fs w) p with
    | inl e => Raise (OSError e) w
    | inr None => Raise (OSError ENOENT) w
    | inr (Some Dir) => Raise (OSError EISDIR) w
    | inr (Some (File data)) => Ret data w
    end.

(** [open(p).read()]: the file is opened in text mode, where the text
    written with [f.write] is stored as it is and the text read has its line
    ends translated. *)
Definition read_file (p : string) : M string :=
  f <- open_file p ;;
  ret (Str.universal_newlines f).

(** [with open(p, 'w') as f: f.write(data)]: the file is created or
    truncated, and holds [data] once it is closed. *)
Definition write_file (p : string) (data : string) : M unit :=
  fun w =>
    match resolve p with
    | None => Raise (OSError ENOENT) w
    | Some k =>
        match stat_key (fs w) k with
        | inl e => Raise (OSError e) w
        | inr (Some Dir) => Raise (OSError EISDIR) w
        | inr _ => Ret tt (log (EvWrite k data) (set_fs (<[k := File data]> (fs w)) w))
        end
    end.

(** [open(p, 'a')]: the file is created when it is missing. *)
Definition open_append (p : string) : M unit :=
  fun w =>
    match resolve p with
    | None => Raise (OSError ENOENT) w
    | Some k =>
        match stat_key (fs w) k with
        | inl e => Raise (OSError e) w
        | inr (Some Dir) => Raise (OSError EISDIR) w
        | inr (Some (File _)) => Ret tt w
        | inr None =>
            Ret tt (log (EvAppend k EmptyString)
                      (set_fs (<[k := File EmptyString]> (fs w)) w))
        end
    end.

(** [f.close()] of a file opened for appending, after [f.write(data)]: the
    buffered [data] reaches the end of the file. *)
Definition close_append (p : string) (data : string) : M unit :=
  fun w =>
    match resolve p with
    | None => Raise (OSError ENOENT) w
    | Some k =>
        match stat_key (fs w) k with
        | inr (Some (File old)) =>
            Ret tt (log (EvAppend k data)
                      (set_fs (<[k := File (old +:+ data)]> (fs w)) w))
        | inr (Some Dir) => Raise (OSError EISDIR) w
        | inr None => Raise (OSError ENOENT) w
        | inl e => Raise (OSError e) w
        end
    end.

(** [os.geteuid()] *)
Definition os_geteuid : M Z :=
  fun w => Ret (euid w) (log EvGetEuid w).

(** [os.stat(p)] *)
Definition os_stat (p : string) : M stat_result :=
  fun w =>
    match file_stat w p with
    | Some s => Ret s (log (EvStat p) w)
    | None => Raise (OSError ENOENT) (log (EvStat p) w)
    end.

(** [os.environ.items()] *)
Definition os_environ : M (gmap string string) :=
  fun w => Ret (environ w) (log EvEnviron w).

(** [os.execve(path, argv, env)]: on success the process image is replaced
    and nothing of the program runs any more. *)
Definition os_execve {A} (path : string) (argv : list string)
    (env : gmap string string) : M A :=
  fun w =>
    if executable w path then Replaced (log (EvExecve argv env) w)
    else Raise (OSError ENOENT) w.

(** [subprocess.Popen(cmd, env=env, ...)] *)
Definition Popen (cmd : list string) (env : gmap string string) : M process :=
  fun w =>
    match cmd with
    | prog :: _ =>
        if executable w prog
        then Ret {| proc_cmd := cmd; proc_env := env; proc_started := now w |}
                 (log (EvPopen cmd env) w)
        else Raise (OSError ENOENT) w
    | [] => Raise ValueError w
    end.

(** [proc.poll()] *)
Definition proc_poll (proc : process) : M (option Z) :=
  fun w => Ret (child_status w proc (now w)) (log EvPoll w).

(** [time.time()], in milliseconds *)
Definition time_time : M nat :=
  fun w => Ret (now w) w.

(** [time.sleep(ms)] *)
Definition time_sleep (ms : nat) : M unit :=
  fun w => Ret tt (log (EvSleep ms) (advance ms w)).

(** [time.strftime('%Y-%m-%d %H:%M:%S')] *)
Definition time_strftime : M string :=
  fun w => Ret (strftime w (now w)) w.

(** ** Calls to the service *)

(** [eden.thrift.create_thrift_client(config_dir)]: the connected client, or
    [EdenNotRunningError] when no daemon listens for this registry. *)
Definition create_thrift_client (config_dir : string) : M string :=
  fun w =>
    match service w config_dir (now w) with
    | Some _ => Ret config_dir (log (EvConnect config_dir) w)
    | None => Raise EdenNotRunningError (log (EvConnect config_dir) w)
    end.

(** One request on a connected client.  A connection that has gone away by
    the time of the call shows as a transport failure. *)
Definition call {A} (client : string) (r : request)
    (answer : service_view -> reply A) : M A :=
  fun w =>
    let w' := log (EvRpc r) w in
    match service w client (now w) with
    | None => Raise (TException "connection lost") w'
    | Some v =>
        match answer v with
        | Reply a => Ret a w'
        | AppError message str => Raise (EdenError message str) w'
        | TransportError str => Raise (TException str) w'
        end
    end.

(** ** eden/fs/cli/config.py *)

(** These paths are relative to the user's client directory. *)
Definition CLIENTS_DIR : string := "clients".
Definition STORAGE_DIR : string := "storage".
Definition ROCKS_DB_DIR : string := os_path_join STORAGE_DIR "rocks-db".

(** These are files in a client directory. *)
Definition CONFIG_JSON : string := "config.json".
Definition SNAPSHOT : string := "SNAPSHOT".

Record Config := { _config_dir : string }.

Record HealthStatus := {
  status : fb_status;
  pid : option Z;
  detail : string;
}.

Definition is_healthy (self : HealthStatus) : bool :=
  bool_decide (status self = ALIVE).

(** The ordered mapping returned by [get_client_info]. *)
Record client_info := {
  info_bind_mounts : json;
  info_mount : json;
  info_snapshot : string;
  info_client_dir : string;
}.

(** [d[k]] *)
Definition getitem (d : json) (k : string) : M json :=
  match d with
  | JObj m =>
      match m !! k with
      | Some v => ret v
      | None => raise (KeyError k)
      end
  | _ => raise TypeError
  end.

(** A value used where a path or a thrift string is expected. *)
Definition as_str (v : json) : M string :=
  match v with
  | JStr s => ret s
  | _ => raise TypeError
  end.

(** The truth value of a string that may be [None]. *)
Definition truthy (s : option string) : bool :=
  match s with
  | Some (String _ _) => true
  | _ => false
  end.

Definition _verify_mount_point (mount_point : string) : M unit :=
  d <- os_path_isdir mount_point ;;
  if d then ret tt
  else
    let parent_dir := os_path_dirname mount_point in
    d' <- os_path_isdir parent_dir ;;
    if d' then os_mkdir mount_point
    else
      raise (Exception
        (parent_dir +:+ " must be a directory in order to mount a client at "
         +:+ mount_point +:+ ". "
         +:+ "If this is the correct location, run `mkdir -p "
         +:+ parent_dir +:+ "` to create "
         +:+ "the directory.")).

(** Performs [mkdir -p <path>] and returns the path. *)
Definition _get_or_create_dir (path : string) : M string :=
  try_except (os_makedirs path)
    (fun e =>
       match e with
       | OSError err => if decide (err ≠ EEXIST) then None else Some (ret tt)
       | _ => None
       end) ;;;
  ret path.

Definition _get_clients_dir (self : Config) : string :=
  os_path_join (_config_dir self) CLIENTS_DIR.

Definition get_thrift_client (self : Config) : M string :=
  create_thrift_client (_config_dir self).

Definition get_or_create_path_to_rocks_db (self : Config) : M string :=
  let rocks_db_dir := os_path_join (_config_dir self) ROCKS_DB_DIR in
  _get_or_create_dir rocks_db_dir.

(** Returns the local storage directory that is used to hold writes that are
    not part of a snapshot. *)
Definition _get_or_create_write_dir (self : Config) (client_name : string)
    : M string :=
  let local_dir :=
    os_path_join (os_path_join (_get_clients_dir self) client_name) "local" in
  _get_or_create_dir local_dir.

Definition get_log_path (self : Config) : string :=
  os_path_join (os_path_join (_config_dir self) "logs") "edenfs.log".

Definition path_dirs : list string := ["/usr/local/bin"; "/bin"; "/usr/bin"].

Definition preserve : list string :=
  ["USER"; "LOGNAME"; "HOME"; "EMAIL"; "NAME"; "SSH_AUTH_SOCK"; "SSH_AGENT_PID"].

Definition _build_eden_environment (self : Config) : M (gmap string string) :=
  (* Reset $PATH to the following contents *)
  let eden_env : gmap string string := {[ "PATH" := Str.join ":" path_dirs ]} in
  items <- os_environ ;;
  ret (map_fold
         (fun name value (eden_env : gmap string string) =>
            if Str.startswith "TESTPILOT_" name then <[name := value]> eden_env
            else if bool_decide (name ∈ preserve) then <[name := value]> eden_env
            else eden_env)
         eden_env items).

(** Get the status of the edenfs daemon. *)
Definition check_health (self : Config) : M HealthStatus :=
  connected <-
    try_except (client <- get_thrift_client self ;; ret (Some client))
      (fun e =>
         match e with
         | EdenNotRunningError => Some (ret None)
         | _ => None
         end) ;;
  match connected with
  | None => ret {| status := DEAD; pid := None; detail := "edenfs not running" |}
  | Some client =>
      (* pid = None; status = DEAD; both assigned inside the try block *)
      let on_thrift_error (pid : option Z) (e : exn) :=
        match is_TException e with
        | Some str =>
            Some (ret {| status := DEAD; pid := pid;
                         detail := "error talking to edenfs: " +:+ str |})
        | None => None
        end in
      try_except
        (pid <- call client GetPid sv_getPid ;;
         try_except
           (status <- call client GetStatus sv_getStatus ;;
            let status_name := fb_status_name status in
            ret {| status := status; pid := Some pid;
                   detail := "edenfs running (pid " +:+ Str.of_Z pid
                             +:+ "); status is " +:+ status_name |})
           (on_thrift_error (Some pid)))
        (on_thrift_error None)
  end.

Section Eden.

  (** The text [json.dump(doc, f, indent=2, sort_keys=True)] writes. *)
Variable json_dumps : json -> string.
  (** The document [json.load(f)] reads from a file that holds the text, if
      it holds one. *)
Variable json_loads : string -> option json.

  (** [json.load(f)] *)
Definition json_load (text : string) : M json :=
    match json_loads text with
    | Some doc => ret doc
    | None => raise ValueError
    end.

Definition get_client_info (self : Config) (name : string) : M client_info :=
    let client_dir := os_path_join (_get_clients_dir self) name in
    d <- os_path_isdir client_dir ;;
    if negb d then
      raise (Exception ("Error: no such client " +:+ Str.quote +:+ name +:+ Str.quote))
    else
      let client_config := os_path_join client_dir CONFIG_JSON in
      f <- open_file client_config ;;
      config_data <- json_load f ;;
      let snapshot_file := os_path_join client_dir SNAPSHOT in
      raw <- read_file snapshot_file ;;
      let snapshot := Str.strip raw in
      bind_mounts <- getitem config_data "bind-mounts" ;;
      mount <- getitem config_data "mount" ;;
      ret {| info_bind_mounts := bind_mounts;
             info_mount := mount;
             info_snapshot := snapshot;
             info_client_dir := client_dir |}.

  (** Creates a new client directory with the config.yaml and SNAPSHOT
      files. *)
Definition create_client (self : Config) (name mount_point : string)
      (snapshot_id : option string) (repo_type repo_source : string)
      (with_buck : bool) : M unit :=
    _verify_mount_point mount_point ;;;
    let client_dir := os_path_join (_get_clients_dir self) name in
    d <- os_path_isdir client_dir ;;
    if d then
      raise (Exception ("Error: client " +:+ name +:+ " already exists."))
    else
      os_makedirs client_dir ;;;
      let client_config := os_path_join client_dir CONFIG_JSON in
      let bind_mounts_dir := os_path_join client_dir "bind-mounts" in
      os_makedirs bind_mounts_dir ;;;
      bind_mounts <-
        (if with_buck then
           let bind_mount_name := "buck-out" in
           os_makedirs (os_path_join bind_mounts_dir bind_mount_name) ;;;
           ret (<[bind_mount_name := JStr "buck-out"]> (∅ : gmap string json))
         else ret ∅) ;;
      let config_data :=
        JObj (<["bind-mounts" := JObj bind_mounts]>
             (<["mount" := JStr mount_point]>
             (<["repo_type" := JStr repo_type]>
             (<["repo_source" := JStr repo_source]> ∅)))) in
      write_file client_config (json_dumps config_data +:+ Str.nl) ;;;
      if truthy snapshot_id then
        let client_snapshot := os_path_join client_dir SNAPSHOT in
        write_file client_snapshot (default EmptyString snapshot_id +:+ Str.nl)
      else ret tt.

  (** The handler of mount and checkout: the service's exception is reboxed
      so that only its message is left. *)
Definition rebox_EdenError {A} (ex : exn) : option (M A) :=
    match ex with
    | EdenError message _ => Some (raise (Exception message))
    | _ => None
    end.

  (** Switch the active snapshot id for a given client. *)
Definition checkout (self : Config) (name snapshot_id : string) : M unit :=
    info <- get_client_info self name ;;
    client <- get_thrift_client self ;;
    try_except
      (mount_point <- as_str (info_mount info) ;;
       call client (CheckOutRevision mount_point snapshot_id)
         (fun v => sv_checkOutRevision v mount_point snapshot_id))
      rebox_EdenError.

Definition mount (self : Config) (name : string) : M unit :=
    info <- get_client_info self name ;;
    mount_point <- as_str (info_mount info) ;;
    _verify_mount_point mount_point ;;;
    _get_or_create_write_dir self name ;;;
    let mount_info := {| mountPoint := mount_point;
                         edenClientPath := info_client_dir info |} in
    client <- get_thrift_client self ;;
    try_except
      (call client (Mount mount_info) (fun v => sv_mount v mount_info))
      rebox_EdenError.

Definition unmount (self : Config) (name : string) : M unit :=
    info <- get_client_info self name ;;
    let mount_point := info_mount info in
    client <- get_thrift_client self ;;
    mount_point <- as_str mount_point ;;
    call client (Unmount mount_point) (fun v => sv_unmount v mount_point).

End Eden.

(** ** Starting the daemon *)

(** Modelled from the spec: [util.poll_until] (eden/fs/cli/util.py), which
    config.py calls and which is not among the sources.  Following the
    words of the design, it calls [function] repeatedly, with a fixed
    interval between the attempts, and returns the first result that is not
    [None]; an exception of [function] ends the wait at once; when the
    overall timeout has elapsed without a result, [timeout_ex] is raised.
    Times are in milliseconds; [fuel] bounds the number of attempts. *)
Fixpoint poll_until_loop {A} (fuel : nat) (function : M (option A))
    (end_time interval : nat) (timeout_ex : exn) : M A :=
  match fuel with
  | O => fun w => OutOfFuel w
  | S fuel' =>
      value <- function ;;
      match value with
      | Some v => ret v
      | None =>
          t <- time_time ;;
          if (end_time <=? t)%nat then raise timeout_ex
          else
            time_sleep interval ;;;
            poll_until_loop fuel' function end_time interval timeout_ex
      end
  end.

Definition poll_until {A} (fuel : nat) (function : M (option A))
    (timeout interval : nat) (timeout_ex : exn) : M A :=
  t <- time_time ;;
  poll_until_loop fuel function (t + timeout) interval timeout_ex.

Section Supervisor.

  (** The interval between two attempts of [util.poll_until], which
      config.py leaves to the default of that function. *)
Variable poll_interval : nat.

  (** The closure [check_health] of [_wait_for_daemon_healthy]. *)
Definition check_health_or_exit (self : Config) (proc : process)
      : M (option HealthStatus) :=
    (* Check the thrift status *)
    health_info <- check_health self ;;
    if is_healthy health_info then ret (Some health_info)
    else
      (* Make sure that edenfs is still running *)
      st <- proc_poll proc ;;
      match st with
      | Some st =>
          let msg :=
            if st <? 0 then "terminated with signal " +:+ Str.of_Z (- st)
            else "exit status " +:+ Str.of_Z st in
          raise (EdenStartError ("edenfs exited before becoming healthy: " +:+ msg))
      | None =>
          (* Still starting *)
          ret None
      end.

  (** Wait for edenfs to become healthy. *)
Definition _wait_for_daemon_healthy (fuel : nat) (self : Config)
      (proc : process) : M HealthStatus :=
    let timeout_ex :=
      EdenStartError ("timed out waiting for edenfs to become " +:+ "healthy") in
    poll_until fuel (check_health_or_exit self proc) (5 * 1000) poll_interval
      timeout_ex.

  (** Start edenfs.  With [foreground] the function does not return (edenfs
      is exec'ed in the current process); otherwise it waits for edenfs to
      become healthy and returns its health. *)
Definition spawn (fuel : nat) (self : Config) (daemon_binary : string)
      (extra_args : option (list string)) (gdb foreground : bool)
      : M HealthStatus :=
    (* Check to see if edenfs is already running *)
    health_info <- check_health self ;;
    if is_healthy health_info then
      raise (EdenStartError ("edenfs is already running (pid "
                             +:+ Str.of_opt_Z (pid health_info) +:+ ")"))
    else
      (* Run the eden server. *)
      let cmd := [daemon_binary; "--edenDir"; _config_dir self] in
      let '(cmd, foreground) :=
        if gdb then ((["gdb"; "--args"] ++ cmd)%list, true) else (cmd, foreground) in
      let cmd :=
        match extra_args with
        | Some ((_ :: _) as extra) => (cmd ++ extra)%list
        | _ => cmd
        end in
      (* Run edenfs using sudo, unless we already have root privileges,
         or the edenfs binary is setuid root. *)
      uid <- os_geteuid ;;
      cmd <-
        (if bool_decide (uid ≠ 0) then
           s <- os_stat daemon_binary ;;
           if negb (bool_decide (st_uid s = 0)
                    && negb (bool_decide (Z.land (st_mode s) S_ISUID = 0)))
           then ret (["/usr/bin/sudo"; "-E"] ++ cmd)%list
           else ret cmd
         else ret cmd) ;;
      eden_env <- _build_eden_environment self ;;
      (if foreground then os_execve (hd EmptyString cmd) cmd eden_env
       else ret tt) ;;;
      (* Open the log file *)
      let log_path := get_log_path self in
      _get_or_create_dir (os_path_dirname log_path) ;;;
      open_append log_path ;;;
      stamp <- time_strftime ;;
      let startup_msg := stamp +:+ ": starting edenfs" +:+ Str.nl in
      (* Start edenfs *)
      proc <- Popen cmd eden_env ;;
      close_append log_path startup_msg ;;;
      (* Wait for edenfs to start *)
      _wait_for_daemon_healthy fuel self proc.

End Supervisor.

(** ** Listing the clients *)

(** The names recorded in the directory [k]. *)
Definition entries (t : fstree) (k : key) : list string :=
  omap (fun kn : key * node =>
          match fst kn with
          | c :: p => if decide (p = k) then Some c else None
          | [] => None
          end)
       (map_to_list t).

(** [os.listdir(p)], in the order the filesystem gives. *)
Definition os_listdir (p : string) : M (list string) :=
  fun w =>
    match resolve p with
    | None => Raise (OSError ENOENT) w
    | Some k =>
        match stat_key (fs w) k with
        | inl e => Raise (OSError e) w
        | inr None => Raise (OSError ENOENT) w
        | inr (Some (File _)) => Raise (OSError ENOTDIR) w
        | inr (Some Dir) => Ret (entries (fs w) k) w
        end
    end.

(** [for x in l: acc = body(acc, x)] *)
Fixpoint for_loop {A S} (l : list A) (body : S -> A -> M S) (acc : S) : M S :=
  match l with
  | [] => ret acc
  | x :: l' => acc' <- body acc x ;; for_loop l' body acc'
  end.

Definition get_client_names (self : Config) : M (list string) :=
  let clients_dir := _get_clients_dir self in
  d <- os_path_isdir clients_dir ;;
  if negb d then ret []
  else
    listing <- os_listdir clients_dir ;;
    for_loop listing
      (fun clients entry =>
         d' <- os_path_isdir (os_path_join clients_dir entry) ;;
         if d' then ret (clients ++ [entry])%list else ret clients)
      [].

Section Listing.

Variable json_loads : string -> option json.

Definition get_all_client_config_info (self : Config)
    : M (gmap string client_info) :=
  names <- get_client_names self ;;
  for_loop names
    (fun (info : gmap string client_info) client =>
       i <- get_client_info json_loads self client ;;
       ret (<[client := i]> info))
    ∅.

End Listing.

(** ** A JSON reader and writer

    An instance of the two library functions, for running the operations on
    concrete registries: the writer lays a document out as [json.dump] does
    with [indent=2] and [sort_keys=True], the reader accepts JSON text.
    Escapes are limited to the two-character ones. *)

Module Json.

Definition backslash : ascii := "092"%char.

Definition escape_char (c : ascii) : list ascii :=
    if decide (c = Str.dquote) then [backslash; Str.dquote]
    else if decide (c = backslash) then [backslash; backslash]
    else if decide (c = Str.newline) then [backslash; "n"%char]
    else if decide (c = "009"%char) then [backslash; "t"%char]
    else if decide (c = "013"%char) then [backslash; "r"%char]
    else [c].

Definition write_string (s : string) : string :=
    Str.quote +:+ Str.of_chars (concat (map escape_char (Str.chars s))) +:+ Str.quote.

Fixpoint spaces (n : nat) : string :=
    match n with
    | O => EmptyString
    | S n' => String " "%char (spaces n')
    end.

Definition sorted_items {A} (m : gmap string A) : list (string * A) :=
    merge_sort (fun x y => String.le (fst x) (fst y)) (map_to_list m).

Definition write_bool (b : bool) : string := if b then "true" else "false".

  (** [rendered] holds the members of a container, already written, one
      level deeper than [indent]. *)
Definition write_block (opening closing : string) (indent : nat)
      (rendered : list string) : string :=
    match rendered with
    | [] => opening +:+ closing
    | _ =>
        opening +:+ Str.nl +:+ spaces (indent + 2)
        +:+ Str.join ("," +:+ Str.nl +:+ spaces (indent + 2)) rendered
        +:+ Str.nl +:+ spaces indent +:+ closing
    end.

Fixpoint write (indent : nat) (doc : json) : string :=
    match doc with
    | JNull => "null"
    | JBool b => write_bool b
    | JNum n => Str.of_Z n
    | JStr s => write_string s
    | JArr l => write_block "[" "]" indent (map (write (indent + 2)) l)
    | JObj m =>
        write_block "{" "}" indent
          (map (fun kv => write_string (fst kv) +:+ ": " +:+ snd kv)
               (sorted_items (write (indent + 2) <$> m)))
    end.

  (** [json.dump(doc, f, indent=2, sort_keys=True)] *)
Definition dumps (doc : json) : string := write 0 doc.

Definition is_ws (c : ascii) : bool :=
    bool_decide (c = " "%char) || bool_decide (c = Str.newline)
    || bool_decide (c = "009"%char) || bool_decide (c = "013"%char).

Definition skip_ws (l : list ascii) : list ascii := Str.dropwhile is_ws l.

Definition unescape (c : ascii) : option ascii :=
    if decide (c = "n"%char) then Some Str.newline
    else if decide (c = "t"%char) then Some "009"%char
    else if decide (c = "r"%char) then Some "013"%char
    else if decide (c = Str.dquote) then Some Str.dquote
    else if decide (c = backslash) then Some backslash
    else if decide (c = Str.sep) then Some Str.sep
    else None.

  (** The rest of a string literal, after its opening quote. *)
Fixpoint read_string (l : list ascii) : option (string * list ascii) :=
    match l with
    | [] => None
    | c :: l' =>
        if decide (c = Str.dquote) then Some (EmptyString, l')
        else if decide (c = backslash) then
          match l' with
          | e :: l'' =>
              match unescape e, read_string l'' with
              | Some c', Some (s, rest) => Some (String c' s, rest)
              | _, _ => None
              end
          | [] => None
          end
        else
          match read_string l' with
          | Some (s, rest) => Some (String c s, rest)
          | None => None
          end
    end.

Definition digit (c : ascii) : option Z :=
    let n := nat_of_ascii c in
    if ((48 <=? n) && (n <=? 57))%nat then Some (Z.of_nat n - 48) else None.

Fixpoint read_digits (acc : Z) (l : list ascii) : Z * list ascii :=
    match l with
    | c :: l' =>
        match digit c with
        | Some d => read_digits (10 * acc + d) l'
        | None => (acc, l)
        end
    | [] => (acc, l)
    end.

Definition read_number (l : list ascii) : option (json * list ascii) :=
    let '(negative, l1) :=
      match l with
      | c :: l' => if decide (c = "-"%char) then (true, l') else (false, l)
      | [] => (false, l)
      end in
    match l1 with
    | c :: _ =>
        match digit c with
        | Some _ =>
            let '(n, rest) := read_digits 0 l1 in
            Some (JNum (if negative then - n else n), rest)
        | None => None
        end
    | [] => None
    end.

Definition read_word (word : string) (v : json) (l : list ascii)
      : option (json * list ascii) :=
    let n := length (Str.chars word) in
    if decide (take n l = Str.chars word) then Some (v, drop n l) else None.

Fixpoint read_value (fuel : nat) (l : list ascii) : option (json * list ascii) :=
    match fuel with
    | O => None
    | S fuel' =>
        match skip_ws l with
        | [] => None
        | c :: l' =>
            if decide (c = Str.dquote) then
              match read_string l' with
              | Some (s, rest) => Some (JStr s, rest)
              | None => None
              end
            else if decide (c = "{"%char) then
              match skip_ws l' with
              | c' :: l'' =>
                  if decide (c' = "}"%char) then Some (JObj ∅, l'')
                  else read_members fuel' ∅ l'
              | [] => None
              end
            else if decide (c = "["%char) then
              match skip_ws l' with
              | c' :: l'' =>
                  if decide (c' = "]"%char) then Some (JArr [], l'')
                  else read_elements fuel' [] l'
              | [] => None
              end
            else if decide (c = "n"%char) then read_word "null" JNull (c :: l')
            else if decide (c = "t"%char) then read_word "true" (JBool true) (c :: l')
            else if decide (c = "f"%char) then read_word "false" (JBool false) (c :: l')
            else read_number (c :: l')
        end
    end
  with read_members (fuel : nat) (acc : gmap string json) (l : list ascii)
      : option (json * list ascii) :=
    match fuel with
    | O => None
    | S fuel' =>
        match skip_ws l with
        | c :: l1 =>
            if decide (c = Str.dquote) then
              match read_string l1 with
              | Some (k, l2) =>
                  match skip_ws l2 with
                  | c2 :: l3 =>
                      if decide (c2 = ":"%char) then
                        match read_value fuel' l3 with
                        | Some (v, l4) =>
                            match skip_ws l4 with
                            | c4 :: l5 =>
                                if decide (c4 = ","%char)
                                then read_members fuel' (<[k := v]> acc) l5
                                else if decide (c4 = "}"%char)
                                then Some (JObj (<[k := v]> acc), l5)
                                else None
                            | [] => None
                            end
                        | None => None
                        end
                      else None
                  | [] => None
                  end
              | None => None
              end
            else None
        | [] => None
        end
    end
  with read_elements (fuel : nat) (acc : list json) (l : list ascii)
      : option (json * list ascii) :=
    match fuel with
    | O => None
    | S fuel' =>
        match read_value fuel' l with
        | Some (v, l1) =>
            match skip_ws l1 with
            | c :: l2 =>
                if decide (c = ","%char) then read_elements fuel' (acc ++ [v])%list l2
                else if decide (c = "]"%char) then Some (JArr (acc ++ [v])%list, l2)
                else None
            | [] => None
            end
        | None => None
        end
    end.

  (** [json.load]: one value, with nothing but white space after it. *)
Definition loads (text : string) : option json :=
    let l := Str.chars text in
    match read_value (S (length l)) l with
    | Some (doc, rest) =>
        match skip_ws rest with
        | [] => Some doc
        | _ => None
        end
    | None => None
    end.

End Json.

(** ** What the theorems are stated with *)

(** What [mount] does once the mount point has been validated. *)
Definition mount_validated (self : Config) (name : string) (info : client_info)
    (mount_point : string) : M unit :=
  _get_or_create_write_dir self name ;;;
  let mount_info := {| mountPoint := mount_point;
                       edenClientPath := info_client_dir info |} in
  client <- get_thrift_client self ;;
  try_except
    (call client (Mount mount_info) (fun v => sv_mount v mount_info))
    rebox_EdenError.

(** The value an outcome returns, and the exception it raises. *)
Definition returned {A} (o : outcome A) : option A :=
  match o with
  | Ret a _ => Some a
  | _ => None
  end.

Definition raised {A} (o : outcome A) : option exn :=
  match o with
  | Raise e _ => Some e
  | _ => None
  end.

(** The message of the error [_verify_mount_point] raises. *)
Definition mount_point_error (mount_point : string) : string :=
  let parent_dir := os_path_dirname mount_point in
  parent_dir +:+ " must be a directory in order to mount a client at "
  +:+ mount_point +:+ ". "
  +:+ "If this is the correct location, run `mkdir -p "
  +:+ parent_dir +:+ "` to create "
  +:+ "the directory.".

(** The names that [_build_eden_environment] copies. *)
Definition allowed (name : string) : bool :=
  Str.startswith "TESTPILOT_" name || bool_decide (name ∈ preserve).

(** The registry directory of a client. *)
Definition client_dir_of (self : Config) (name : string) : string :=
  os_path_join (_get_clients_dir self) name.

(** The world once the directory [k] has been made. *)
Definition made_dir (k : key) (w : world) : world :=
  log (EvMkdir k) (set_fs (<[k := Dir]> (fs w)) w).

(** The key a path resolves to when it is not empty. *)
Definition key_of (p : string) : key := rev (components p).

(** The health reported for a service as seen at one moment. *)
Definition health_of (view : option service_view) : HealthStatus :=
  match view with
  | None => {| status := DEAD; pid := None; detail := "edenfs not running" |}
  | Some v =>
      match sv_getPid v with
      | Reply p =>
          match sv_getStatus v with
          | Reply s =>
              {| status := s; pid := Some p;
                 detail := "edenfs running (pid " +:+ Str.of_Z p
                           +:+ "); status is " +:+ fb_status_name s |}
          | AppError _ str | TransportError str =>
              {| status := DEAD; pid := Some p;
                 detail := "error talking to edenfs: " +:+ str |}
          end
      | AppError _ str | TransportError str =>
          {| status := DEAD; pid := None;
             detail := "error talking to edenfs: " +:+ str |}
      end
  end.

(** The events of one health probe. *)
Definition probe_events (config_dir : string) (view : option service_view)
    : list event :=
  match view with
  | None => [EvConnect config_dir]
  | Some v =>
      match sv_getPid v with
      | Reply _ => [EvConnect config_dir; EvRpc GetPid; EvRpc GetStatus]
      | _ => [EvConnect config_dir; EvRpc GetPid]
      end
  end.

Definition log_all (l : list event) (w : world) : world :=
  fold_left (fun w e => log e w) l w.

(** The message of the error raised when the launched process has exited. *)
Definition exited_msg (st : Z) : string :=
  "edenfs exited before becoming healthy: " +:+
  (if st <? 0 then "terminated with signal " +:+ Str.of_Z (- st)
   else "exit status " +:+ Str.of_Z st).

(** The config document [create_client] writes. *)
Definition config_document (mount_point repo_type repo_source : string)
    (with_buck : bool) : json :=
  JObj (<["bind-mounts" :=
            JObj (if with_buck then <["buck-out" := JStr "buck-out"]> ∅ else ∅)]>
       (<["mount" := JStr mount_point]>
       (<["repo_type" := JStr repo_type]>
       (<["repo_source" := JStr repo_source]> ∅)))).

(** A relation between the world before and the world after that every step
    of a computation keeps. *)
Definition keeps (R : relation world) {A} (m : M A) : Prop :=
  ∀ w, R w (world_of (m w)).

(** The trace only grows. *)
Definition extends (w w' : world) : Prop :=
  ∃ l, events w' = (events w ++ l)%list.

(** The filesystem is left alone. *)
Definition same_fs (w w' : world) : Prop := fs w' = fs w.

(** Nothing changes but the trace: the clock, the filesystem and the
    surroundings stay. *)
Definition only_logs (w w' : world) : Prop :=
  fs w' = fs w ∧ now w' = now w ∧ service w' = service w
  ∧ child_status w' = child_status w ∧ extends w w'.

(** What is seen in the tree stays seen. *)
Definition grows (w w' : world) : Prop :=
  ∀ k n, stat_key (fs w) k = inr (Some n) → stat_key (fs w') k = inr (Some n).

(** Entries are added or replaced at the keys in [K] only. *)
Definition touches_only (K : key -> Prop) (w w' : world) : Prop :=
  ∀ k, ¬ K k → fs w' !! k = fs w !! k.

Global Instance node_eq_dec : EqDecision node.
Proof. solve_decision. Defined.

(** Every entry recorded in the tree is reached from the root through
    directories: nothing is recorded below a file or below a path that does
    not exist. *)
Definition wf_tree (t : fstree) : Prop :=
  map_Forall (fun k n => stat_key t k = inr (Some n)) t.

(** A tree of that kind stays one. *)
Definition keeps_wf (w w' : world) : Prop :=
  wf_tree (fs w) → wf_tree (fs w').

(** A computation that comes to an end inside the program: it returns or
    raises. *)
Definition settles {A} (m : M A) : Prop :=
  ∀ w, match m w with
       | Ret _ _ | Raise _ _ => True
       | _ => False
       end.

(** Directories stay directories. *)
Definition keeps_dirs (w w' : world) : Prop :=
  ∀ k, stat_key (fs w) k = inr (Some Dir) → stat_key (fs w') k = inr (Some Dir).

(** The world once [data] has been written to the file [k]. *)
Definition wrote (k : key) (data : string) (w : world) : world :=
  log (EvWrite k data) (set_fs (<[k := File data]> (fs w)) w).

(** What [create_client] makes of the world [w] in which the client
    directory [kcd] has just been made: the bind-mounts directory, the
    directory of the build artifacts when asked for, the config document and
    the snapshot file when an id is given. *)
Definition client_made (json_dumps : json -> string) (kcd : key)
    (mount_point : string) (snapshot_id : option string)
    (repo_type repo_source : string) (with_buck : bool) (w : world) : world :=
  let w1 := made_dir ("bind-mounts" :: kcd) w in
  let w2 := if with_buck then made_dir ("buck-out" :: "bind-mounts" :: kcd) w1
            else w1 in
  let w3 := wrote (CONFIG_JSON :: kcd)
              (json_dumps (config_document mount_point repo_type repo_source
                             with_buck) +:+ Str.nl) w2 in
  if truthy snapshot_id
  then wrote (SNAPSHOT :: kcd) (default EmptyString snapshot_id +:+ Str.nl) w3
  else w3.

(** What a client directory holds once [create_client] is done, at the path
    [l] below it (innermost name first). *)
Definition client_layout (json_dumps : json -> string) (mount_point : string)
    (snapshot_id : option string) (repo_type repo_source : string)
    (with_buck : bool) (l : list string) : option node :=
  if decide (l = ["bind-mounts"]) then Some Dir
  else if decide (l = ["buck-out"; "bind-mounts"])
  then (if with_buck then Some Dir else None)
  else if decide (l = [CONFIG_JSON])
  then Some (File (json_dumps (config_document mount_point repo_type
                                 repo_source with_buck) +:+ Str.nl))
  else if decide (l = [SNAPSHOT])
  then (if truthy snapshot_id
        then Some (File (default EmptyString snapshot_id +:+ Str.nl))
        else None)
  else None.

(** The error raised for a client that the registry does not hold. *)
Definition no_such_client (name : string) : exn :=
  Exception ("Error: no such client " +:+ Str.quote +:+ name +:+ Str.quote).

(** No file appears: a regular file recorded after is one recorded before. *)
Definition no_new_files (w w' : world) : Prop :=
  ∀ k d, fs w' !! k = Some (File d) → fs w !! k = Some (File d).

(** The command line [spawn] builds: [sudo -E] in front when asked for, then
    [gdb --args] under the debugger, the binary with the registry, and the
    extra arguments. *)
Definition eden_command (self : Config) (daemon_binary : string)
    (extra_args : option (list string)) (gdb sudo : bool) : list string :=
  ((if sudo then ["/usr/bin/sudo"; "-E"] else [])
   ++ (if gdb then ["gdb"; "--args"] else [])
   ++ [daemon_binary; "--edenDir"; _config_dir self]
   ++ default [] extra_args)%list.

(** Whether [spawn] goes through sudo: not for root, and not when the
    binary belongs to root and has the setuid bit; unknown when the binary
    cannot be examined. *)
Definition needs_sudo (w : world) (daemon_binary : string) : option bool :=
  if bool_decide (euid w = 0) then Some false
  else match file_stat w daemon_binary with
       | Some s =>
           Some (negb (bool_decide (st_uid s = 0)
                       && negb (bool_decide (Z.land (st_mode s) S_ISUID = 0))))
       | None => None
       end.

(** ** A sample machine *)

Definition sample_config : Config := {| _config_dir := "/home/alice/.eden" |}.

(** A daemon that is up, and refuses to unmount. *)
Definition sample_view : service_view :=
  {| sv_getPid := Reply 4242;
     sv_getStatus := Reply ALIVE;
     sv_mount := fun _ => Reply tt;
     sv_unmount := fun _ =>
       AppError "mount point is busy" "EdenError(message='mount point is busy')";
     sv_checkOutRevision := fun _ _ => Reply tt |}.

Definition sample_environ : gmap string string :=
  <["HOME" := "/h"]> (<["RANDOM_VAR" := "x"]> (<["TESTPILOT_FOO" := "y"]>
  (<["PATH" := "/opt/bin"]> ∅))).

(** A machine with the tree [t] and the daemon [view], where the binaries
    belong to root without the setuid bit and a launched process is found
    exited with status 1. *)
Definition sample_world (t : fstree) (view : option service_view) : world :=
  {| fs := t; now := 0; events := []; environ := sample_environ; euid := 1000;
     file_stat := fun _ => Some {| st_uid := 0; st_mode := 493 |};
     executable := fun _ => true;
     service := fun _ _ => view;
     child_status := fun _ _ => Some 1;
     strftime := fun _ => "2016-05-01 12:00:00" |}.

(** Only [/mnt] exists. *)
Definition sample_tree : fstree := {[ ["mnt"] := Dir ]}.

Definition sample_process : process :=
  {| proc_cmd := ["/usr/bin/sudo"; "-E"; "/usr/local/bin/edenfs"; "--edenDir";
                  "/home/alice/.eden"];
     proc_env := ∅; proc_started := 0 |}.

(** The machine after the client [repo] has been created, with and without
    a snapshot id. *)
Definition with_client (snapshot_id : option string)
    (view : option service_view) : world :=
  world_of (create_client Json.dumps sample_config "repo" "/mnt/repo"
              snapshot_id "git" "/src/repo" true
              (sample_world sample_tree view)).

Definition sample_info : client_info :=
  {| info_bind_mounts := JObj (<["buck-out" := JStr "buck-out"]> ∅);
     info_mount := JStr "/mnt/repo";
     info_snapshot := "abc123";
     info_client_dir := "/home/alice/.eden/clients/repo" |}.

Definition sample_health : HealthStatus :=
  {| status := ALIVE; pid := Some 4242;
     detail := "edenfs running (pid 4242); status is ALIVE" |}.

(** The sample machine with a regular file at [/mnt/notes]. *)
Definition sample_tree_with_file : fstree :=
  <[["notes"; "mnt"] := File "remember the milk"]> sample_tree.

(** The sample machine after the client [repo] has been created and its
    config file overwritten with something that is no JSON document. *)
Definition with_broken_client : world :=
  world_of (write_file "/home/alice/.eden/clients/repo/config.json" "not json"
              (with_client (Some "abc123") None)).

(** The sample machine with another value for a variable that is not
    passed on. *)
Definition sample_world_other_environ : world :=
  {| fs := sample_tree; now := 0; events := [];
     environ := <["RANDOM_VAR" := "z"]> sample_environ; euid := 1000;
     file_stat := fun _ => Some {| st_uid := 0; st_mode := 493 |};
     executable := fun _ => true;
     service := fun _ _ => None;
     child_status := fun _ _ => Some 1;
     strftime := fun _ => "2016-05-01 12:00:00" |}.

(** The sample machine without a daemon, where the launched process is
    found exited with status 1 from 4.9 seconds on. *)
Definition sample_world_exiting : world :=
  {| fs := sample_tree; now := 0; events := []; environ := sample_environ;
     euid := 1000;
     file_stat := fun _ => Some {| st_uid := 0; st_mode := 493 |};
     executable := fun _ => true;
     service := fun _ _ => None;
     child_status := fun _ t => if (t <? 4900)%nat then None else Some 1;
     strftime := fun _ => "2016-05-01 12:00:00" |}.

(** The sample machine where the client [repo] records [mount_point], which
    nothing has made: the client is created for [/mnt], and its config
    document is then written anew. *)
Definition with_recorded_mount (mount_point : string)
    (view : option service_view) : world :=
  world_of (write_file "/home/alice/.eden/clients/repo/config.json"
              (Json.dumps (config_document mount_point "git" "/src/repo" true)
               +:+ Str.nl)
              (world_of (create_client Json.dumps sample_config "repo" "/mnt"
                           (Some "abc123") "git" "/src/repo" true
                           (sample_world sample_tree view)))).

(** What is read of the client [repo] when it records [mount_point]. *)
Definition sample_info_at (mount_point : string) : client_info :=
  {| info_bind_mounts := JObj (<["buck-out" := JStr "buck-out"]> ∅);
     info_mount := JStr mount_point;
     info_snapshot := "abc123";
     info_client_dir := "/home/alice/.eden/clients/repo" |}.

(** * Strings and paths *)

Lemma append_nil_l (b : string) : EmptyString +:+ b = b.
Proof. reflexivity. Qed.

Lemma append_cons (x : ascii) (a b : string) :
  String x a +:+ b = String x (a +:+ b).
Proof. reflexivity. Qed.

Ltac append_step := rewrite ?append_nil_l, ?append_cons.

Lemma append_assoc (a b c : string) : (a +:+ b) +:+ c = a +:+ (b +:+ c).
Proof. induction a as [|x a IH]; append_step; congruence. Qed.

Lemma append_nil_r (a : string) : a +:+ EmptyString = a.
Proof. induction a as [|x a IH]; append_step; congruence. Qed.

Lemma chars_append (a b : string) :
  Str.chars (a +:+ b) = (Str.chars a ++ Str.chars b)%list.
Proof. induction a as [|x a IH]; append_step; simpl; congruence. Qed.

Lemma of_chars_app (l1 l2 : list ascii) :
  Str.of_chars (l1 ++ l2)%list = Str.of_chars l1 +:+ Str.of_chars l2.
Proof. induction l1 as [|x l1 IH]; simpl; append_step; congruence. Qed.

Lemma of_chars_chars (s : string) : Str.of_chars (Str.chars s) = s.
Proof. apply string_of_list_ascii_of_string. Qed.

Lemma chars_of_chars (l : list ascii) : Str.chars (Str.of_chars l) = l.
Proof. apply list_ascii_of_string_of_list_ascii. Qed.

Lemma split_sep_nonempty (s : string) : Str.split_sep s ≠ [].
Proof.
  destruct s as [|c s]; simpl; [discriminate|].
  destruct (decide (c = Str.sep)); [discriminate|].
  destruct (Str.split_sep s); discriminate.
Qed.

Lemma split_sep_append (a b : string) :
  Str.split_sep (a +:+ String Str.sep b)
  = (Str.split_sep a ++ Str.split_sep b)%list.
Proof.
  induction a as [|c a IH].
  - reflexivity.
  - rewrite append_cons. simpl.
    destruct (decide (c = Str.sep)); [now rewrite IH|].
    rewrite IH. pose proof (split_sep_nonempty a) as Hne.
    destruct (Str.split_sep a); [contradiction | reflexivity].
Qed.

Lemma split_sep_single (name : string) :
  Str.sep ∉ Str.chars name → Str.split_sep name = [name].
Proof.
  induction name as [|c s IH]; simpl; intros Hno; [reflexivity|].
  destruct (decide (c = Str.sep)) as [->|Hc].
  - exfalso. apply Hno. left.
  - rewrite IH; [reflexivity|]. intros Hin. apply Hno. now right.
Qed.

Lemma components_append (a b : string) :
  components (a +:+ "/" +:+ b) = (components a ++ components b)%list.
Proof.
  unfold components. change ("/" +:+ b) with (String Str.sep b).
  now rewrite split_sep_append, filter_app.
Qed.

Lemma components_empty : components EmptyString = [].
Proof. reflexivity. Qed.

Lemma components_single (name : string) :
  valid_name name → components name = [name].
Proof.
  intros (Hsep & Hne & Hdot & _). unfold components.
  rewrite split_sep_single by assumption. simpl.
  unfold filter, list_filter. simpl.
  destruct (decide_rel _ _ _) as [|Hn]; [reflexivity|].
  exfalso. apply Hn. unfold is_entry_name.
  rewrite !bool_decide_eq_false_2 by assumption. reflexivity.
Qed.

Lemma startswith_sep_false (name : string) :
  valid_name name → Str.startswith "/" name = false.
Proof.
  intros (Hsep & Hne & _). destruct name as [|c s]; [contradiction|]. simpl.
  destruct (decide ("/"%char = c)) as [<-|]; [|reflexivity].
  exfalso. apply Hsep. left.
Qed.

Lemma endswith_sep_split (a : string) :
  Str.endswith_sep a = true → ∃ a', a = a' +:+ "/".
Proof.
  unfold Str.endswith_sep. intros H.
  destruct (rev (Str.chars a)) as [|c l] eqn:E; [discriminate|].
  apply bool_decide_eq_true in H. subst c.
  exists (Str.of_chars (rev l)).
  rewrite <- (of_chars_chars a), <- (rev_involutive (Str.chars a)), E.
  simpl. now rewrite of_chars_app.
Qed.

(** Joining a single entry name to a directory adds one component. *)
Lemma components_join (a name : string) :
  valid_name name →
  components (os_path_join a name) = (components a ++ [name])%list.
Proof.
  intros Hv. unfold os_path_join.
  rewrite (startswith_sep_false name Hv).
  destruct (bool_decide (a = EmptyString)) eqn:Ea; simpl.
  - apply bool_decide_eq_true in Ea. subst a. rewrite append_nil_l.
    rewrite (components_single name) by assumption. reflexivity.
  - destruct (Str.endswith_sep a) eqn:Es.
    + destruct (endswith_sep_split a Es) as [a' ->].
      rewrite append_assoc, components_append.
      change (a' +:+ "/") with (a' +:+ "/" +:+ EmptyString).
      rewrite components_append, components_empty, app_nil_r.
      rewrite (components_single name) by assumption. reflexivity.
    + rewrite components_append, (components_single name) by assumption. reflexivity.
Qed.

Lemma resolve_join (a name : string) :
  valid_name name →
  resolve (os_path_join a name) = Some (name :: key_of a).
Proof.
  intros Hv. unfold resolve, key_of.
  pose proof (components_join a name Hv) as Hc.
  rewrite bool_decide_eq_false_2.
  - now rewrite Hc, rev_app_distr.
  - intros He. rewrite He, components_empty in Hc.
    destruct (components a); discriminate.
Qed.

Lemma key_of_join (a name : string) :
  valid_name name → key_of (os_path_join a name) = name :: key_of a.
Proof.
  intros Hv. unfold key_of. now rewrite components_join, rev_app_distr.
Qed.

Lemma stat_path_join (t : fstree) (a name : string) :
  valid_name name →
  stat_path t (os_path_join a name) = stat_key t (name :: key_of a).
Proof. intros Hv. unfold stat_path. now rewrite resolve_join. Qed.

Ltac valid_name_tac :=
  repeat split; [vm_compute; intros H; inversion H; subst;
                 repeat match goal with
                        | H : _ ∈ _ |- _ => inversion H; clear H; subst
                        end
                | discriminate ..].

(** * Running computations *)

Lemma bind_Ret {A B} (m : M A) (f : A -> M B) w b w' :
  bind m f w = Ret b w' → ∃ a w1, m w = Ret a w1 ∧ f a w1 = Ret b w'.
Proof.
  unfold bind. destruct (m w) as [a w1| | |]; try discriminate. eauto.
Qed.

Lemma bind_eq_Ret {A B} (m : M A) (f : A -> M B) w a w1 :
  m w = Ret a w1 → bind m f w = f a w1.
Proof. unfold bind. now intros ->. Qed.

Lemma bind_eq_Raise {A B} (m : M A) (f : A -> M B) w e w1 :
  m w = Raise e w1 → bind m f w = Raise e w1.
Proof. unfold bind. now intros ->. Qed.

Lemma returned_Ret {A} (o : outcome A) (a : A) :
  returned o = Some a → o = Ret a (world_of o).
Proof. destruct o; simpl; intros H; inversion H; reflexivity. Qed.

Lemma raised_Raise {A} (o : outcome A) (e : exn) :
  raised o = Some e → o = Raise e (world_of o).
Proof. destruct o; simpl; intros H; inversion H; reflexivity. Qed.

Section Keeps.
Context (R : relation world) `{!PreOrder R}.

Lemma keeps_ret {A} (a : A) : keeps R (ret a).
Proof. intros w. simpl. reflexivity. Qed.

Lemma keeps_raise {A} (e : exn) : keeps R (@raise A e).
Proof. intros w. simpl. reflexivity. Qed.

Lemma keeps_bind {A B} (m : M A) (f : A -> M B) :
    keeps R m → (∀ a, keeps R (f a)) → keeps R (bind m f).
Proof.
    intros Hm Hf w. unfold bind. specialize (Hm w).
    destruct (m w) as [a w1|e w1|w1|w1]; simpl in *; try assumption.
    etransitivity; [exact Hm | apply Hf].
Qed.

Lemma keeps_try_except {A} (m : M A) (h : exn -> option (M A)) :
    keeps R m → (∀ e k, h e = Some k → keeps R k) → keeps R (try_except m h).
Proof.
    intros Hm Hh w. unfold try_except. specialize (Hm w).
    destruct (m w) as [a w1|e w1|w1|w1]; simpl in *; try assumption.
    destruct (h e) as [k|] eqn:E; simpl; [|assumption].
    etransitivity; [exact Hm | eapply Hh; eassumption].
Qed.

Lemma keeps_if {A} (b : bool) (m1 m2 : M A) :
    keeps R m1 → keeps R m2 → keeps R (if b then m1 else m2).
Proof. now destruct b. Qed.
End Keeps.

Lemma keeps_weaken (R R' : relation world) {A} (m : M A) :
  (∀ w w', R w w' → R' w w') → keeps R m → keeps R' m.
Proof. intros HR Hm w. apply HR, Hm. Qed.

Ltac keeps_done :=
  first [apply keeps_ret | apply keeps_raise]; try typeclasses eauto.

Global Instance extends_preorder : PreOrder extends.
Proof.
  split.
  - intros w. exists []. now rewrite app_nil_r.
  - intros w1 w2 w3 [l1 H1] [l2 H2]. exists (l1 ++ l2)%list.
    now rewrite H2, H1, app_assoc.
Qed.

Global Instance same_fs_preorder : PreOrder same_fs.
Proof.
  split; [now intros w|]. intros w1 w2 w3 H1 H2. unfold same_fs in *. congruence.
Qed.

Global Instance only_logs_preorder : PreOrder only_logs.
Proof.
  split.
  - intros w. repeat split. reflexivity.
  - intros w1 w2 w3 (A1 & B1 & C1 & D1 & E1) (A2 & B2 & C2 & D2 & E2).
    repeat split; try congruence. etransitivity; eassumption.
Qed.

Lemma extends_log e w : extends w (log e w).
Proof. now exists [e]. Qed.

Lemma only_logs_log e w : only_logs w (log e w).
Proof. repeat split. apply extends_log. Qed.

(** * The filesystem *)

Lemma stat_key_dir_parent t c p x :
  stat_key t (c :: p) = inr x → stat_key t p = inr (Some Dir).
Proof.
  simpl. destruct (stat_key t p) as [e|[[|d]|]]; try discriminate. reflexivity.
Qed.

Lemma stat_key_cons t c p :
  stat_key t p = inr (Some Dir) → stat_key t (c :: p) = inr (t !! (c :: p)).
Proof. simpl. now intros ->. Qed.

(** Putting an entry where no directory is seen leaves what is seen
    elsewhere. *)
Lemma stat_key_insert_other t k n k0 n0 :
  stat_key t k ≠ inr (Some Dir) → k0 ≠ k →
  stat_key t k0 = inr (Some n0) →
  stat_key (<[k := n]> t) k0 = inr (Some n0).
Proof.
  intros Hk. revert n0. induction k0 as [|c p IH]; intros n0 Hne H0.
  - exact H0.
  - pose proof (stat_key_dir_parent _ _ _ _ H0) as Hp.
    assert (p ≠ k) as Hpk by (intros ->; contradiction).
    rewrite (stat_key_cons _ c p) in H0 by assumption.
    rewrite (stat_key_cons _ c p) by (apply IH; assumption).
    now rewrite lookup_insert_ne.
Qed.

Lemma stat_key_insert_same t k n x :
  stat_key t k = inr x → x ≠ Some Dir →
  stat_key (<[k := n]> t) k = inr (Some n).
Proof.
  intros H Hx. destruct k as [|c p].
  - simpl in H. congruence.
  - pose proof (stat_key_dir_parent _ _ _ _ H) as Hp.
    rewrite (stat_key_cons _ c p).
    + now rewrite lookup_insert_eq.
    + apply stat_key_insert_other; [congruence| |assumption].
      intros E. apply (f_equal length) in E. simpl in E. lia.
Qed.

Global Instance grows_preorder : PreOrder grows.
Proof. split; [now intros w k n|]. intros w1 w2 w3 H1 H2 k n H. auto. Qed.

Lemma grows_log e w : grows w (log e w).
Proof. now intros k n. Qed.

Lemma mkdir_key_Ret k w w' :
  mkdir_key k w = Ret tt w' →
  stat_key (fs w) k = inr None ∧ w' = made_dir k w.
Proof.
  unfold mkdir_key. destruct (stat_key (fs w) k) as [e|[n|]]; try discriminate.
  intros [= <-]. split; reflexivity.
Qed.

Lemma mkdir_key_fresh k w :
  stat_key (fs w) k = inr None → mkdir_key k w = Ret tt (made_dir k w).
Proof. unfold mkdir_key. now intros ->. Qed.

Lemma made_dir_stat k w :
  stat_key (fs w) k = inr None → stat_key (fs (made_dir k w)) k = inr (Some Dir).
Proof. intros H. simpl. eapply stat_key_insert_same; [exact H | discriminate]. Qed.

Lemma made_dir_grows k w :
  stat_key (fs w) k = inr None → grows w (made_dir k w).
Proof.
  intros H k0 n0 H0. simpl. apply stat_key_insert_other; [congruence| |assumption].
  intros ->. congruence.
Qed.

Lemma mkdir_key_grows k : keeps grows (mkdir_key k).
Proof.
  intros w. unfold mkdir_key.
  destruct (stat_key (fs w) k) as [e|[n|]] eqn:E; simpl; try reflexivity.
  now apply made_dir_grows.
Qed.

Lemma mkdir_key_extends k : keeps extends (mkdir_key k).
Proof.
  intros w. unfold mkdir_key.
  destruct (stat_key (fs w) k) as [e|[n|]] eqn:E; simpl; try reflexivity.
  now exists [EvMkdir k].
Qed.

Lemma makedirs_key_keeps (R : relation world) `{!PreOrder R} :
  (∀ k, keeps R (mkdir_key k)) → ∀ k, keeps R (makedirs_key k).
Proof.
  intros Hmk. induction k as [|c p IH]; simpl; [apply Hmk|].
  apply keeps_bind; [assumption| |].
  - intros w. simpl. reflexivity.
  - intros found. apply keeps_bind; [assumption| |intros _; apply Hmk].
    destruct found; [keeps_done|].
    apply keeps_try_except; [assumption|exact IH|].
    intros e k. destruct (is_EEXIST e); [|discriminate].
    intros [= <-]. keeps_done.
Qed.

Lemma makedirs_key_Ret k w w' :
  makedirs_key k w = Ret tt w' →
  stat_key (fs w') k = inr (Some Dir) ∧ grows w w'.
Proof.
  intros H.
  assert (grows w w') as Hg.
  { pose proof (makedirs_key_keeps grows mkdir_key_grows k w) as G.
    now rewrite H in G. }
  split; [|exact Hg].
  destruct k as [|c p]; simpl in H.
  - apply mkdir_key_Ret in H as [H _]. simpl in H. discriminate.
  - apply bind_Ret in H as (found & w1 & _ & H).
    apply bind_Ret in H as (u & w2 & _ & H).
    apply mkdir_key_Ret in H as [H ->]. now apply made_dir_stat.
Qed.

Lemma os_makedirs_Ret p w w' :
  os_makedirs p w = Ret tt w' →
  ∃ k, resolve p = Some k ∧ stat_key (fs w') k = inr (Some Dir) ∧ grows w w'.
Proof.
  unfold os_makedirs. destruct (resolve p) as [k|]; [|discriminate].
  intros H. exists k. split; [reflexivity|]. now apply makedirs_key_Ret.
Qed.

Global Instance touches_only_preorder K : PreOrder (touches_only K).
Proof.
  split; [now intros w k|].
  intros w1 w2 w3 H1 H2 k Hk. rewrite (H2 k Hk). now apply H1.
Qed.

Lemma touches_only_weaken (K K' : key -> Prop) w w' :
  (∀ k, K k → K' k) → touches_only K w w' → touches_only K' w w'.
Proof. intros HK H k Hk. apply H. intros Hc. apply Hk, HK, Hc. Qed.

Lemma mkdir_key_touches k0 : keeps (touches_only (fun k => k = k0)) (mkdir_key k0).
Proof.
  intros w. unfold mkdir_key.
  destruct (stat_key (fs w) k0) as [e|[n|]]; simpl; try reflexivity.
  intros k Hk. simpl. now rewrite lookup_insert_ne by congruence.
Qed.

(** [os.makedirs] makes the directory and its ancestors, nothing else. *)
Lemma makedirs_key_touches k0 :
  keeps (touches_only (fun k => k `suffix_of` k0)) (makedirs_key k0).
Proof.
  induction k0 as [|c p IH]; simpl.
  - eapply keeps_weaken; [|apply mkdir_key_touches].
    intros w w'. apply touches_only_weaken. now intros k ->.
  - apply keeps_bind; [typeclasses eauto|now intros w|].
    intros found. apply keeps_bind; [typeclasses eauto| |].
    + destruct found; [keeps_done|].
      apply keeps_try_except; [typeclasses eauto| |].
      * eapply keeps_weaken; [|exact IH].
        intros w w'. apply touches_only_weaken.
        intros k Hk. now apply suffix_cons_r.
      * intros e k. destruct (is_EEXIST e); [|discriminate].
        intros [= <-]. keeps_done.
    + intros _. eapply keeps_weaken; [|apply mkdir_key_touches].
      intros w w'. apply touches_only_weaken. now intros k ->.
Qed.

Lemma os_makedirs_Ret_touches p w w' k0 :
  resolve p = Some k0 →
  os_makedirs p w = Ret tt w' →
  ∀ k, ¬ k `suffix_of` k0 → fs w' !! k = fs w !! k.
Proof.
  intros Hk H. unfold os_makedirs in H. rewrite Hk in H.
  pose proof (makedirs_key_touches k0 w) as T. now rewrite H in T.
Qed.

Lemma write_file_Ret_touches p data w w' k0 :
  resolve p = Some k0 →
  write_file p data w = Ret tt w' →
  ∀ k, k ≠ k0 → fs w' !! k = fs w !! k.
Proof.
  unfold write_file. intros ->.
  destruct (stat_key (fs w) k0) as [e|[[|d]|]]; try discriminate;
    intros [= <-] k Hk; simpl; now rewrite lookup_insert_ne by congruence.
Qed.

Lemma write_file_Ret p data w w' :
  write_file p data w = Ret tt w' →
  ∃ k, resolve p = Some k ∧ stat_key (fs w') k = inr (Some (File data))
       ∧ ∀ k0 n0, k0 ≠ k → stat_key (fs w) k0 = inr (Some n0) →
                  stat_key (fs w') k0 = inr (Some n0).
Proof.
  unfold write_file. destruct (resolve p) as [k|]; [|discriminate].
  destruct (stat_key (fs w) k) as [e|x] eqn:E; [discriminate|].
  intros H. exists k. split; [reflexivity|].
  assert (x ≠ Some Dir ∧ w' = log (EvWrite k data) (set_fs (<[k := File data]> (fs w)) w))
    as [Hx ->].
  { destruct x as [[|d]|]; try discriminate; injection H as <-; split;
      (discriminate || reflexivity). }
  split; simpl.
  - eapply stat_key_insert_same; eassumption.
  - intros k0 n0 Hne H0. apply stat_key_insert_other; [congruence|assumption..].
Qed.

Lemma open_file_eq p w data :
  stat_path (fs w) p = inr (Some (File data)) → open_file p w = Ret data w.
Proof. unfold open_file. now intros ->. Qed.

Lemma open_file_missing p w :
  stat_path (fs w) p = inr None → open_file p w = Raise (OSError ENOENT) w.
Proof. unfold open_file. now intros ->. Qed.

Lemma open_file_reads p : keeps eq (open_file p).
Proof.
  intros w. unfold open_file. now destruct (stat_path (fs w) p) as [e|[[|d]|]].
Qed.

Lemma read_file_eq p w data :
  stat_path (fs w) p = inr (Some (File data)) →
  read_file p w = Ret (Str.universal_newlines data) w.
Proof.
  intros H. unfold read_file. now rewrite (bind_eq_Ret _ _ _ _ _ (open_file_eq _ _ _ H)).
Qed.

Lemma read_file_missing p w :
  stat_path (fs w) p = inr None → read_file p w = Raise (OSError ENOENT) w.
Proof.
  intros H. unfold read_file. apply bind_eq_Raise. now apply open_file_missing.
Qed.

Lemma read_file_reads p : keeps eq (read_file p).
Proof.
  unfold read_file. apply keeps_bind; [typeclasses eauto|apply open_file_reads|].
  intros f. keeps_done.
Qed.

Lemma isdir_stat t p k :
  resolve p = Some k → stat_key t k = inr (Some Dir) → isdir t p = true.
Proof. unfold isdir, stat_path. now intros -> ->. Qed.

Lemma isdir_true t p :
  isdir t p = true → ∃ k, resolve p = Some k ∧ stat_key t k = inr (Some Dir).
Proof.
  unfold isdir, stat_path. destruct (resolve p) as [k|]; [|discriminate].
  destruct (stat_key t k) as [e|[[|d]|]] eqn:E; try discriminate.
  intros _. exists k. split; [reflexivity | exact E].
Qed.

Lemma valid_CLIENTS_DIR : valid_name CLIENTS_DIR.
Proof. valid_name_tac. Qed.

Lemma valid_CONFIG_JSON : valid_name CONFIG_JSON.
Proof. valid_name_tac. Qed.

Lemma valid_SNAPSHOT : valid_name SNAPSHOT.
Proof. valid_name_tac. Qed.

Lemma valid_bind_mounts : valid_name "bind-mounts".
Proof. valid_name_tac. Qed.

Lemma valid_buck_out : valid_name "buck-out".
Proof. valid_name_tac. Qed.

Lemma cons_neq_self {A} (x : A) (l : list A) : x :: l ≠ l.
Proof. intros E. apply (f_equal length) in E. simpl in E. lia. Qed.

(** [s.strip()] does not see a line feed at the end. *)
Lemma strip_newline (s : string) : Str.strip (s +:+ Str.nl) = Str.strip s.
Proof.
  unfold Str.strip, Str.rstrip_chars. rewrite chars_append.
  change (Str.chars Str.nl) with [Str.newline].
  rewrite rev_unit, length_app, Nat.add_1_r. cbn [Str.drop_chars].
  assert (find (fun e => Str.starts_with e (Str.newline :: rev (Str.chars s)))
            (map (fun n => rev (Str.utf8 n)) Str.whitespace)
          = Some [Str.newline]) as -> by (vm_compute; reflexivity).
  reflexivity.
Qed.

Lemma universal_newlines_other c s :
  c ≠ Str.cr →
  Str.universal_newlines (String c s) = String c (Str.universal_newlines s).
Proof. intros H. simpl. now destruct (decide (c = Str.cr)). Qed.

Lemma universal_newlines_cr_end :
  Str.universal_newlines (String Str.cr EmptyString) = Str.nl.
Proof. reflexivity. Qed.

Lemma universal_newlines_cr_newline s :
  Str.universal_newlines (String Str.cr (String Str.newline s))
  = String Str.newline (Str.universal_newlines s).
Proof. reflexivity. Qed.

Lemma universal_newlines_cr_other c s :
  c ≠ Str.newline →
  Str.universal_newlines (String Str.cr (String c s))
  = String Str.newline (Str.universal_newlines (String c s)).
Proof.
  intros H. change (Str.universal_newlines (String Str.cr (String c s)))
    with (String Str.newline
            (if decide (c = Str.newline) then Str.universal_newlines s
             else Str.universal_newlines (String c s))).
  now destruct (decide (c = Str.newline)).
Qed.

(** A line feed added at the end of a text is read as it is, or together
    with the carriage return before it. *)
Lemma universal_newlines_newline (s : string) :
  Str.universal_newlines (s +:+ Str.nl) = Str.universal_newlines s +:+ Str.nl
  ∨ Str.universal_newlines (s +:+ Str.nl) = Str.universal_newlines s.
Proof.
  enough ((Str.universal_newlines (s +:+ Str.nl)
           = Str.universal_newlines s +:+ Str.nl
           ∨ Str.universal_newlines (s +:+ Str.nl) = Str.universal_newlines s)
          ∧ ∀ c,
              Str.universal_newlines (String c s +:+ Str.nl)
              = Str.universal_newlines (String c s) +:+ Str.nl
              ∨ Str.universal_newlines (String c s +:+ Str.nl)
                = Str.universal_newlines (String c s)) as [H _] by exact H.
  induction s as [|c0 s [IH1 IH2]].
  - split; [now left|]. intros c. rewrite append_cons, append_nil_l.
    destruct (decide (c = Str.cr)) as [->|Hc].
    + right. reflexivity.
    + left. rewrite !(universal_newlines_other c) by assumption.
      now rewrite append_cons, append_nil_l.
  - split; [apply IH2|]. intros c. rewrite (append_cons c).
    destruct (decide (c = Str.cr)) as [->|Hc].
    + destruct (decide (c0 = Str.newline)) as [->|H0].
      * rewrite append_cons, !universal_newlines_cr_newline.
        destruct IH1 as [E|E]; rewrite E; [left|right];
          now rewrite ?append_cons.
      * rewrite append_cons, !universal_newlines_cr_other by assumption.
        rewrite <- append_cons.
        destruct (IH2 c0) as [E|E]; rewrite E; [left|right];
          now rewrite ?append_cons.
    + rewrite !(universal_newlines_other c) by assumption.
      destruct (IH2 c0) as [E|E]; rewrite E; [left|right];
        now rewrite ?append_cons.
Qed.

(** So the line feed that ends a line written to a file is not seen once
    the text that is read has been stripped. *)
Lemma strip_read_newline (s : string) :
  Str.strip (Str.universal_newlines (s +:+ Str.nl))
  = Str.strip (Str.universal_newlines s).
Proof.
  destruct (universal_newlines_newline s) as [-> | ->];
    [apply strip_newline|reflexivity].
Qed.

(** A mount point that passes the validation was a directory, or has just
    been made. *)
Lemma verify_mount_point_Ret mount_point w w' :
  _verify_mount_point mount_point w = Ret tt w' →
  w' = w ∨ ∃ k, stat_key (fs w) k = inr None ∧ w' = made_dir k w.
Proof.
  unfold _verify_mount_point, bind, os_path_isdir.
  destruct (isdir (fs w) mount_point); [intros [= <-]; now left|].
  destruct (isdir (fs w) (os_path_dirname mount_point)); [|discriminate].
  unfold os_mkdir. destruct (resolve mount_point) as [k|]; [|discriminate].
  intros H. apply mkdir_key_Ret in H. right. now exists k.
Qed.

(** * The client registry *)

Section Registry.

Variable json_dumps : json -> string.
Variable json_loads : string -> option json.


  (** Reading a client whose directory holds both files. *)
Lemma get_client_info_eval self name w text m raw bm mt :
    isdir (fs w) (client_dir_of self name) = true →
    stat_path (fs w) (os_path_join (client_dir_of self name) CONFIG_JSON)
      = inr (Some (File text)) →
    json_loads text = Some (JObj m) →
    stat_path (fs w) (os_path_join (client_dir_of self name) SNAPSHOT)
      = inr (Some (File raw)) →
    m !! "bind-mounts" = Some bm →
    m !! "mount" = Some mt →
    get_client_info json_loads self name w
    = Ret {| info_bind_mounts := bm; info_mount := mt;
             info_snapshot := Str.strip (Str.universal_newlines raw);
             info_client_dir := client_dir_of self name |} w.
Proof.
    intros Hd Hc Hj Hs Hbm Hmt.
    unfold get_client_info. fold (client_dir_of self name).
    unfold bind at 1. unfold os_path_isdir. rewrite Hd. cbn [negb].
    rewrite (bind_eq_Ret _ _ _ _ _ (open_file_eq _ _ _ Hc)).
    unfold json_load. rewrite Hj. unfold bind at 1. unfold ret at 1.
    rewrite (bind_eq_Ret _ _ _ _ _ (read_file_eq _ _ _ Hs)).
    unfold getitem. rewrite Hbm, Hmt. reflexivity.
Qed.

  (** [get_client_info] only reads. *)
Lemma get_client_info_reads self name : keeps eq (get_client_info json_loads self name).
Proof.
    unfold get_client_info.
    pose proof read_file_reads as Hread.
    assert (∀ d k, keeps eq (getitem d k)) as Hget.
    { intros d k w. unfold getitem. destruct d; try reflexivity.
      now destruct (m !! k). }
    apply keeps_bind; [typeclasses eauto|now intros w|].
    intros d. apply keeps_if; [now intros w|].
    apply keeps_bind; [typeclasses eauto|apply open_file_reads|]. intros text.
    apply keeps_bind; [typeclasses eauto| |].
    { intros w. unfold json_load. now destruct (json_loads text). }
    intros doc. apply keeps_bind; [typeclasses eauto|apply Hread|]. intros raw.
    apply keeps_bind; [typeclasses eauto|apply Hget|]. intros bm.
    apply keeps_bind; [typeclasses eauto|apply Hget|]. intros mt.
    now intros w.
Qed.

Lemma get_client_info_Ret self name w info w' :
    get_client_info json_loads self name w = Ret info w' → w' = w.
Proof.
    intros H. pose proof (get_client_info_reads self name w) as E.
    rewrite H in E. simpl in E. congruence.
Qed.

Lemma get_client_info_returned self name w info :
  returned (get_client_info json_loads self name w) = Some info →
  get_client_info json_loads self name w = Ret info w.
Proof.
  intros H. apply returned_Ret in H.
  pose proof (get_client_info_reads self name w) as E. simpl in E.
  now rewrite <- E in H.
Qed.

Lemma get_client_info_raised self name w e :
  raised (get_client_info json_loads self name w) = Some e →
  get_client_info json_loads self name w = Raise e w.
Proof.
  intros H. apply raised_Raise in H.
  pose proof (get_client_info_reads self name w) as E. simpl in E.
  now rewrite <- E in H.
Qed.

(** What a successful [create_client] leaves in the registry. *)
Lemma create_client_Ret self name mount_point snapshot_id repo_type repo_source
    with_buck w w' :
  valid_name name →
  create_client json_dumps self name mount_point snapshot_id repo_type repo_source
    with_buck w = Ret tt w' →
  let cd := client_dir_of self name in
  isdir (fs w') cd = true
  ∧ stat_path (fs w') (os_path_join cd CONFIG_JSON)
    = inr (Some (File (json_dumps
        (config_document mount_point repo_type repo_source with_buck) +:+ Str.nl)))
  ∧ (truthy snapshot_id = true →
     stat_path (fs w') (os_path_join cd SNAPSHOT)
     = inr (Some (File (default EmptyString snapshot_id +:+ Str.nl)))).
Proof.
  intros Hv H cd. unfold create_client in H.
  fold (client_dir_of self name) in H. fold cd in H.
  apply bind_Ret in H as (u & w1 & _ & H).
  apply bind_Ret in H as (d & w2 & Hd & H).
  destruct d; [discriminate|]. injection Hd as _ <-.
  apply bind_Ret in H as (u2 & w3 & Hm1 & H). destruct u2.
  apply bind_Ret in H as (u3 & w4 & Hm2 & H). destruct u3.
  apply bind_Ret in H as (bm & w5 & Hbm & H).
  apply bind_Ret in H as (u4 & w6 & Hw1 & H). destruct u4.
  set (kcd := name :: key_of (_get_clients_dir self)).
  assert (resolve cd = Some kcd) as Hres by (now apply resolve_join).
  apply os_makedirs_Ret in Hm1 as (k & Hk & Hcd & _).
  rewrite Hres in Hk. injection Hk as <-.
  apply os_makedirs_Ret in Hm2 as (k2 & _ & _ & Hg2).
  assert (grows w4 w5 ∧
          bm = (if with_buck then <["buck-out" := JStr "buck-out"]> ∅ else ∅))
    as [Hg3 ->].
  { destruct with_buck.
    - apply bind_Ret in Hbm as (u5 & w4' & Hm3 & Hbm). destruct u5.
      injection Hbm as <- <-.
      apply os_makedirs_Ret in Hm3 as (k3 & _ & _ & Hg3). now split.
    - injection Hbm as <- <-. split; reflexivity. }
  assert (stat_key (fs w5) kcd = inr (Some Dir)) as Hcd5 by (apply Hg3, Hg2, Hcd).
  apply write_file_Ret in Hw1 as (kc & Hkc & Hconf & Hother).
  unfold cd, client_dir_of in Hkc.
  rewrite (resolve_join _ _ valid_CONFIG_JSON), key_of_join in Hkc by assumption.
  injection Hkc as <-. fold kcd in Hconf, Hother.
  assert (stat_key (fs w6) kcd = inr (Some Dir)) as Hcd6.
  { apply Hother; [|assumption]. symmetry. apply cons_neq_self. }
  assert (∀ t, stat_path t (os_path_join cd CONFIG_JSON)
               = stat_key t (CONFIG_JSON :: kcd)) as Hpc.
  { intros t. unfold cd, client_dir_of.
    now rewrite (stat_path_join _ _ _ valid_CONFIG_JSON), key_of_join. }
  assert (∀ t, stat_path t (os_path_join cd SNAPSHOT)
               = stat_key t (SNAPSHOT :: kcd)) as Hps.
  { intros t. unfold cd, client_dir_of.
    now rewrite (stat_path_join _ _ _ valid_SNAPSHOT), key_of_join. }
  rewrite Hpc, Hps.
  destruct (truthy snapshot_id) eqn:Et.
  - apply write_file_Ret in H as (ks & Hks & Hsnap & Hother2).
    unfold cd, client_dir_of in Hks.
    rewrite (resolve_join _ _ valid_SNAPSHOT), key_of_join in Hks by assumption.
    injection Hks as <-. fold kcd in Hsnap, Hother2.
    split; [|split].
    + eapply isdir_stat; [exact Hres|]. apply Hother2; [|assumption].
      symmetry. apply cons_neq_self.
    + apply Hother2; [discriminate|assumption].
    + intros _. exact Hsnap.
  - injection H as <-. split; [|split].
    + eapply isdir_stat; eassumption.
    + assumption.
    + discriminate.
Qed.

(** Created without a snapshot id, a client has no SNAPSHOT file: nothing
    that [create_client] makes or writes is at that path.  (The tree is
    taken to record no entry there from before, as is the case when the
    client directory did not exist.) *)
Lemma create_client_without_snapshot self name mount_point snapshot_id
    repo_type repo_source with_buck w w' :
  valid_name name →
  truthy snapshot_id = false →
  fs w !! (SNAPSHOT :: key_of (client_dir_of self name)) = None →
  create_client json_dumps self name mount_point snapshot_id repo_type
    repo_source with_buck w = Ret tt w' →
  stat_path (fs w') (os_path_join (client_dir_of self name) SNAPSHOT) = inr None.
Proof.
  intros Hv Ht Hnone H.
  pose proof (create_client_Ret _ _ _ _ _ _ _ _ _ Hv H) as (Hdir & _ & _).
  set (cd := client_dir_of self name) in *.
  set (kcd := key_of cd) in *.
  assert (resolve cd = Some kcd) as Hres.
  { unfold cd, client_dir_of, kcd. rewrite (resolve_join _ _ Hv).
    f_equal. symmetry. now apply key_of_join. }
  assert (∀ n, valid_name n → resolve (os_path_join cd n) = Some (n :: kcd))
    as Hsub by (intros n Hn; now rewrite resolve_join).
  rewrite (stat_path_join _ _ _ valid_SNAPSHOT). fold kcd.
  apply isdir_true in Hdir as (k & Hk & Hst). rewrite Hres in Hk.
  injection Hk as <-. rewrite (stat_key_cons _ _ _ Hst). f_equal.
  (* nothing was put at the SNAPSHOT key *)
  unfold create_client in H. fold (client_dir_of self name) in H. fold cd in H.
  apply bind_Ret in H as (u & w1 & Hver & H).
  apply bind_Ret in H as (d & w2 & Hd & H).
  destruct d; [discriminate|]. injection Hd as Hd <-.
  apply bind_Ret in H as (u2 & w3 & Hm1 & H). destruct u2.
  apply bind_Ret in H as (u3 & w4 & Hm2 & H). destruct u3.
  apply bind_Ret in H as (bm & w5 & Hbm & H).
  apply bind_Ret in H as (u4 & w6 & Hw1 & H). destruct u4.
  rewrite Ht in H. injection H as <-.
  assert (fs w1 !! (SNAPSHOT :: kcd) = None) as H1.
  { destruct u. apply verify_mount_point_Ret in Hver as [->|(k & Hfresh & ->)];
      [exact Hnone|].
    simpl. destruct (decide (k = SNAPSHOT :: kcd)) as [->|Hne].
    - exfalso. pose proof (stat_key_dir_parent _ _ _ _ Hfresh) as Hp.
      assert (isdir (fs (made_dir (SNAPSHOT :: kcd) w)) cd = true) as E.
      { eapply isdir_stat; [exact Hres|]. now apply (made_dir_grows _ _ Hfresh). }
      congruence.
    - now rewrite lookup_insert_ne. }
  assert (∀ (l : key), length l = S (length kcd) →
            SNAPSHOT :: kcd `suffix_of` l → l = SNAPSHOT :: kcd) as Hlen.
  { intros l Hl Hs. symmetry. apply suffix_length_eq; [exact Hs|simpl; lia]. }
  assert (fs w3 !! (SNAPSHOT :: kcd) = None) as H3.
  { rewrite (os_makedirs_Ret_touches _ _ _ _ Hres Hm1); [exact H1|].
    apply suffix_cons_not. }
  assert (fs w4 !! (SNAPSHOT :: kcd) = None) as H4.
  { rewrite (os_makedirs_Ret_touches _ _ _ _ (Hsub _ valid_bind_mounts) Hm2);
      [exact H3|].
    intros Hs. apply Hlen in Hs; [discriminate|reflexivity]. }
  assert (fs w5 !! (SNAPSHOT :: kcd) = None) as H5.
  { destruct with_buck; [|injection Hbm as _ <-; exact H4].
    apply bind_Ret in Hbm as (u5 & w4' & Hm3 & Hbm). destruct u5.
    injection Hbm as _ <-.
    assert (resolve (os_path_join (os_path_join cd "bind-mounts") "buck-out")
            = Some ("buck-out" :: "bind-mounts" :: kcd)) as Hr3.
    { rewrite (resolve_join _ _ valid_buck_out). f_equal. f_equal.
      unfold kcd. now apply key_of_join, valid_bind_mounts. }
    rewrite (os_makedirs_Ret_touches _ _ _ _ Hr3 Hm3); [exact H4|].
    intros Hs. apply suffix_cons_inv in Hs as [Hs|Hs]; [discriminate|].
    apply Hlen in Hs; [discriminate|reflexivity]. }
  rewrite (write_file_Ret_touches _ _ _ _ _ (Hsub _ valid_CONFIG_JSON) Hw1);
    [exact H5|discriminate].
Qed.

(** So it cannot be read back, whatever the mount point and the flag. *)
Lemma create_client_without_snapshot_unreadable self name mount_point
    snapshot_id repo_type repo_source with_buck w w' :
  valid_name name →
  truthy snapshot_id = false →
  fs w !! (SNAPSHOT :: key_of (client_dir_of self name)) = None →
  json_loads (json_dumps (config_document mount_point repo_type repo_source
                            with_buck) +:+ Str.nl)
  = Some (config_document mount_point repo_type repo_source with_buck) →
  create_client json_dumps self name mount_point snapshot_id repo_type
    repo_source with_buck w = Ret tt w' →
  get_client_info json_loads self name w' = Raise (OSError ENOENT) w'.
Proof.
  intros Hv Ht Hnone Hj H.
  pose proof (create_client_without_snapshot _ _ _ _ _ _ _ _ _ Hv Ht Hnone H)
    as Hs.
  apply create_client_Ret in H as (Hd & Hc & _); [|assumption].
  unfold get_client_info. fold (client_dir_of self name).
  unfold bind at 1. unfold os_path_isdir. rewrite Hd. cbn [negb].
  rewrite (bind_eq_Ret _ _ _ _ _ (open_file_eq _ _ _ Hc)).
  unfold json_load. rewrite Hj. unfold bind at 1. unfold ret at 1.
  apply bind_eq_Raise. now apply read_file_missing.
Qed.

(** C1 (as amended): for a valid client name, when [create_client] succeeds
    with a snapshot id that is not empty, [get_client_info] on that name
    returns a record whose [mount] is the mount point supplied, whose
    [bind-mounts] is the mapping made from the build-artifacts flag (the one
    entry [buck-out] when it is set, no entry otherwise), and whose
    [snapshot] is the snapshot id supplied as a file opened in text mode
    gives it back, once stripped: every carriage return, with or without a
    line feed after it, has become a line feed, and the white space at the
    two ends is removed.  The JSON library is taken to read back the config
    document it wrote. *)
Theorem create_client_get_client_info self name mount_point snapshot_id
    repo_type repo_source with_buck w w' :
  valid_name name →
  snapshot_id ≠ EmptyString →
  json_loads (json_dumps (config_document mount_point repo_type repo_source
                            with_buck) +:+ Str.nl)
  = Some (config_document mount_point repo_type repo_source with_buck) →
  create_client json_dumps self name mount_point (Some snapshot_id) repo_type repo_source
    with_buck w = Ret tt w' →
  get_client_info json_loads self name w'
  = Ret {| info_bind_mounts :=
             JObj (if with_buck then <["buck-out" := JStr "buck-out"]> ∅ else ∅);
           info_mount := JStr mount_point;
           info_snapshot := Str.strip (Str.universal_newlines snapshot_id);
           info_client_dir := client_dir_of self name |} w'.
Proof.
  intros Hv Hs Hj H.
  apply create_client_Ret in H as (Hd & Hc & Hsnap); [|assumption].
  assert (truthy (Some snapshot_id) = true) as Ht
    by (destruct snapshot_id; [contradiction|reflexivity]).
  specialize (Hsnap Ht). simpl in Hsnap.
  rewrite <- strip_read_newline.
  eapply get_client_info_eval; try eassumption.
  - apply lookup_insert_eq.
  - rewrite lookup_insert_ne by discriminate. apply lookup_insert_eq.
Qed.

(** C9: a client whose directory exists and holds a config document that
    can be read, but no SNAPSHOT file, cannot be read back: [get_client_info]
    raises the error of opening the missing file, which is not the error
    raised for a client that does not exist. *)
Theorem get_client_info_without_snapshot self name w text doc :
  isdir (fs w) (client_dir_of self name) = true →
  stat_path (fs w) (os_path_join (client_dir_of self name) CONFIG_JSON)
    = inr (Some (File text)) →
  json_loads text = Some doc →
  stat_path (fs w) (os_path_join (client_dir_of self name) SNAPSHOT) = inr None →
  get_client_info json_loads self name w = Raise (OSError ENOENT) w
  ∧ OSError ENOENT
    ≠ Exception ("Error: no such client " +:+ Str.quote +:+ name +:+ Str.quote).
Proof.
  intros Hd Hc Hj Hs. split; [|discriminate].
  unfold get_client_info. fold (client_dir_of self name).
  unfold bind at 1. unfold os_path_isdir. rewrite Hd. cbn [negb].
  rewrite (bind_eq_Ret _ _ _ _ _ (open_file_eq _ _ _ Hc)).
  unfold json_load. rewrite Hj. unfold bind at 1. unfold ret at 1.
  apply bind_eq_Raise. now apply read_file_missing.
Qed.

End Registry.

(** * The environment of the daemon *)

Lemma eden_environment_lookup (ambient : gmap string string) (name : string) :
  map_fold
    (fun name value (eden_env : gmap string string) =>
       if Str.startswith "TESTPILOT_" name then <[name := value]> eden_env
       else if bool_decide (name ∈ preserve) then <[name := value]> eden_env
       else eden_env)
    {[ "PATH" := Str.join ":" path_dirs ]} ambient !! name
  = if allowed name then ambient !! name
    else if bool_decide (name = "PATH") then Some (Str.join ":" path_dirs)
    else None.
Proof.
  revert name.
  apply (map_fold_weak_ind (fun (acc m : gmap string string) =>
    ∀ name, acc !! name
            = if allowed name then m !! name
              else if bool_decide (name = "PATH")
                   then Some (Str.join ":" path_dirs) else None)).
  - intros name. rewrite lookup_empty. unfold allowed.
    destruct (decide (name = "PATH")) as [->|Hn].
    + reflexivity.
    + rewrite lookup_singleton_ne by congruence.
      rewrite (bool_decide_eq_false_2 _ Hn). now destruct (_ || _).
  - intros i x m r Hi IH name. unfold allowed in *.
    destruct (decide (name = i)) as [->|Hne].
    + rewrite lookup_insert_eq.
      destruct (Str.startswith "TESTPILOT_" i) eqn:Ep; simpl.
      * apply lookup_insert_eq.
      * destruct (bool_decide (i ∈ preserve)) eqn:Ea;
          [apply lookup_insert_eq|].
        (* not copied: the entry, if any, is the fixed PATH *)
        rewrite IH, Ep, Ea. reflexivity.
    + rewrite (lookup_insert_ne m) by congruence. rewrite <- IH.
      destruct (Str.startswith "TESTPILOT_" i);
        [now rewrite lookup_insert_ne by congruence|].
      destruct (bool_decide (i ∈ preserve));
        [now rewrite lookup_insert_ne by congruence|reflexivity].
Qed.


(** * The health probe and the start of the daemon *)

Lemma log_all_app l1 l2 w : log_all (l1 ++ l2) w = log_all l2 (log_all l1 w).
Proof. unfold log_all. apply fold_left_app. Qed.

Lemma log_all_fields l w :
  fs (log_all l w) = fs w ∧ now (log_all l w) = now w
  ∧ service (log_all l w) = service w
  ∧ child_status (log_all l w) = child_status w
  ∧ events (log_all l w) = (events w ++ l)%list.
Proof.
  revert w. induction l as [|e l IH]; intros w; simpl.
  - repeat split. now rewrite app_nil_r.
  - destruct (IH (log e w)) as (A & B & C & D & E).
    repeat split; try assumption. rewrite E. simpl. now rewrite <- app_assoc.
Qed.

(** A health probe reports the service as it is at the time of the probe,
    and leaves a connection attempt and at most two requests in the trace. *)
Lemma check_health_eval (self : Config) (w : world) :
  let view := service w (_config_dir self) (now w) in
  check_health self w
  = Ret (health_of view) (log_all (probe_events (_config_dir self) view) w).
Proof.
  unfold check_health, get_thrift_client, create_thrift_client, try_except,
    bind, call, ret. simpl.
  destruct (service w (_config_dir self) (now w)) as [v|] eqn:E; simpl;
    [|reflexivity].
  rewrite E. destruct (sv_getPid v) as [p|m s|s] eqn:Ep; simpl;
    rewrite ?Ep; try reflexivity.
  rewrite E. destruct (sv_getStatus v) as [st|m s|s] eqn:Es; simpl;
    rewrite ?Ep, ?Es; reflexivity.
Qed.

(** A probe that reports the daemon alive has asked for its pid and its
    status, and got both. *)
Lemma healthy_probe (config_dir : string) (view : option service_view) :
  is_healthy (health_of view) = true →
  (∃ p, pid (health_of view) = Some p)
  ∧ probe_events config_dir view
    = [EvConnect config_dir; EvRpc GetPid; EvRpc GetStatus].
Proof.
  unfold is_healthy, health_of, probe_events.
  destruct view as [v|]; [|discriminate].
  destruct (sv_getPid v) as [p|m s|s]; try discriminate.
  destruct (sv_getStatus v) as [st|m s|s]; try discriminate.
  intros _. split; [now exists p | reflexivity].
Qed.

Section Supervision.

Variable poll_interval : nat.


(** C5: when the health probe at the start of [spawn] reports the daemon
    alive, [spawn] raises the already-running error with the pid the probe
    read, in the world as the probe left it: the trace has gained the
    connection and the two requests of the probe and nothing else (no
    query of the effective user or of the binary, no read of the
    environment, no [execve], no [Popen]), and the filesystem is as
    before. *)
Theorem spawn_already_running (fuel : nat) (self : Config)
    (daemon_binary : string) (extra_args : option (list string))
    (gdb foreground : bool) (w : world) (health_info : HealthStatus)
    (w1 : world) :
  check_health self w = Ret health_info w1 →
  is_healthy health_info = true →
  ∃ p, pid health_info = Some p
       ∧ spawn poll_interval fuel self daemon_binary extra_args gdb foreground w
         = Raise (EdenStartError ("edenfs is already running (pid "
                                  +:+ Str.of_Z p +:+ ")")) w1
       ∧ fs w1 = fs w
       ∧ events w1 = (events w ++ [EvConnect (_config_dir self);
                                   EvRpc GetPid; EvRpc GetStatus])%list.
Proof.
  intros Hc Hh. pose proof (check_health_eval self w) as He. simpl in He.
  rewrite He in Hc. injection Hc as <- <-.
  destruct (healthy_probe (_config_dir self) _ Hh) as [[p Hp] Hev].
  exists p. split; [exact Hp|]. rewrite Hev.
  destruct (log_all_fields [EvConnect (_config_dir self); EvRpc GetPid;
                            EvRpc GetStatus] w) as (A & _ & _ & _ & E).
  split; [|split; assumption].
  unfold spawn. rewrite (bind_eq_Ret _ _ _ _ _ He).
  rewrite Hh, Hp, Hev. reflexivity.
Qed.

(** One attempt of the wait: the probe, then the look at the process. *)
Lemma check_health_or_exit_eval (self : Config) (proc : process) (w : world) :
  let view := service w (_config_dir self) (now w) in
  let w1 := log_all (probe_events (_config_dir self) view) w in
  check_health_or_exit self proc w
  = if is_healthy (health_of view) then Ret (Some (health_of view)) w1
    else match child_status w proc (now w) with
         | Some st => Raise (EdenStartError (exited_msg st)) (log EvPoll w1)
         | None => Ret None (log EvPoll w1)
         end.
Proof.
  intros view w1. unfold check_health_or_exit.
  rewrite (bind_eq_Ret _ _ _ _ _ (check_health_eval self w)).
  fold view. fold w1. destruct (is_healthy (health_of view)); [reflexivity|].
  unfold bind, proc_poll.
  destruct (log_all_fields (probe_events (_config_dir self) view) w)
    as (_ & B & _ & D & _).
  fold w1 in B, D. rewrite B, D.
  destruct (child_status w proc (now w)); reflexivity.
Qed.

(** The wait ends at the first attempt that finds the process gone. *)
Lemma poll_until_loop_exited (self : Config) (proc : process)
    (end_time : nat) (timeout_ex : exn) (w0 : world) (st : Z) :
  ∀ (k fuel : nat) (cur : world),
    service cur = service w0 →
    child_status cur = child_status w0 →
    (∀ j, (j ≤ k)%nat →
          is_healthy (health_of (service w0 (_config_dir self)
                                   (now cur + j * poll_interval))) = false) →
    (∀ j, (j < k)%nat →
          child_status w0 proc (now cur + j * poll_interval) = None) →
    child_status w0 proc (now cur + k * poll_interval) = Some st →
    (∀ j, (j < k)%nat → (now cur + j * poll_interval < end_time)%nat) →
    (k < fuel)%nat →
    ∃ w', poll_until_loop fuel (check_health_or_exit self proc) end_time
            poll_interval timeout_ex cur
          = Raise (EdenStartError (exited_msg st)) w'
          ∧ now w' = (now cur + k * poll_interval)%nat.
Proof.
  induction k as [|k IH]; intros fuel cur Hs Hc Hh Hn He Ht Hf;
    (destruct fuel as [|fuel]; [lia|]); simpl poll_until_loop.
  - pose proof (Hh 0%nat (Nat.le_refl _)) as Hh0.
    rewrite Nat.mul_0_l, Nat.add_0_r in Hh0, He.
    unfold bind at 1. rewrite check_health_or_exit_eval.
    rewrite Hs, Hh0, Hc, He. eexists. split; [reflexivity|].
    simpl. rewrite Nat.add_0_r.
    apply (log_all_fields _ cur).
  - pose proof (Hh 0%nat (Nat.le_0_l _)) as Hh0.
    pose proof (Hn 0%nat (Nat.lt_0_succ _)) as Hn0.
    rewrite Nat.mul_0_l, Nat.add_0_r in Hh0, Hn0.
    unfold bind at 1. rewrite check_health_or_exit_eval.
    rewrite Hs, Hh0, Hc, Hn0.
    set (w1 := log EvPoll (log_all _ cur)).
    assert (now w1 = now cur ∧ service w1 = service w0
            ∧ child_status w1 = child_status w0) as (B & S1 & C1).
    { destruct (log_all_fields
                  (probe_events (_config_dir self)
                     (service w0 (_config_dir self) (now cur))) cur)
        as (_ & B & S1 & C1 & _).
      unfold w1. simpl. rewrite B, S1, C1. auto. }
    unfold bind at 1. unfold time_time at 1.
    assert ((end_time <=? now w1)%nat = false) as ->.
    { apply Nat.leb_gt. pose proof (Ht 0%nat (Nat.lt_0_succ _)). lia. }
    unfold bind at 1. unfold time_sleep at 1.
    set (w2 := log (EvSleep poll_interval) (advance poll_interval w1)).
    assert (now w2 = (now cur + poll_interval)%nat) as N2.
    { change (now w2) with (now w1 + poll_interval)%nat. now rewrite B. }
    destruct (IH fuel w2) as (w' & Hw' & Hnow).
    + exact S1.
    + exact C1.
    + intros j Hj. replace (now w2 + j * poll_interval)%nat
        with (now cur + S j * poll_interval)%nat by (rewrite N2; lia).
      apply Hh. lia.
    + intros j Hj. replace (now w2 + j * poll_interval)%nat
        with (now cur + S j * poll_interval)%nat by (rewrite N2; lia).
      apply Hn. lia.
    + replace (now w2 + k * poll_interval)%nat
        with (now cur + S k * poll_interval)%nat by (rewrite N2; lia).
      exact He.
    + intros j Hj. rewrite N2.
      pose proof (Ht (S j) (proj1 (Nat.succ_lt_mono _ _) Hj)). lia.
    + lia.
    + exists w'. split; [exact Hw'|]. rewrite Hnow, N2. lia.
Qed.

(** C4, as the code has it: in the wait that follows the launch, when the
    attempts made so far, each started before the five seconds were over,
    have found the daemon neither healthy nor gone, and the attempt made
    [k] intervals after the start finds it not healthy and the process
    exited, the wait ends there with the error that carries the exit status
    or the signal, and not with the timeout error.  The clock stands at that
    attempt, which is less than one interval after the five seconds; it is
    before them when the attempt itself is. *)
Theorem wait_for_daemon_exited (fuel : nat) (self : Config) (proc : process)
    (w : world) (k : nat) (st : Z) :
  (∀ j, (j ≤ k)%nat →
        is_healthy (health_of (service w (_config_dir self)
                                 (now w + j * poll_interval))) = false) →
  (∀ j, (j < k)%nat → child_status w proc (now w + j * poll_interval) = None) →
  child_status w proc (now w + k * poll_interval) = Some st →
  (∀ j, (j < k)%nat → (j * poll_interval < 5000)%nat) →
  (k < fuel)%nat →
  ∃ w', _wait_for_daemon_healthy poll_interval fuel self proc w
        = Raise (EdenStartError
                   ("edenfs exited before becoming healthy: " +:+
                    (if st <? 0 then "terminated with signal " +:+ Str.of_Z (- st)
                     else "exit status " +:+ Str.of_Z st))) w'
        ∧ now w' = (now w + k * poll_interval)%nat
        ∧ (now w' < now w + 5000 + poll_interval)%nat
        ∧ ((k * poll_interval < 5000)%nat ↔ (now w' < now w + 5000)%nat).
Proof.
  intros Hh Hn He Ht Hf.
  unfold _wait_for_daemon_healthy, poll_until.
  unfold bind at 1. unfold time_time at 1.
  destruct (poll_until_loop_exited self proc (now w + 5 * 1000)
              (EdenStartError ("timed out waiting for edenfs to become "
                               +:+ "healthy")) w st k fuel w)
    as (w' & Hw' & Hnow); try assumption; try reflexivity.
  - intros j Hj. specialize (Ht j Hj). simpl. lia.
  - exists w'. split; [exact Hw'|]. split; [exact Hnow|]. rewrite Hnow. split.
    + destruct k as [|k]; [lia|].
      specialize (Ht k (Nat.lt_succ_diag_r k)). lia.
    + lia.
Qed.

(** The other end of the wait: a daemon that never becomes healthy while its
    process stays alive makes the wait time out. *)
Lemma poll_until_loop_timeout (self : Config) (proc : process)
    (end_time : nat) (timeout_ex : exn) (w0 : world) :
  (∀ t, is_healthy (health_of (service w0 (_config_dir self) t)) = false) →
  (∀ t, child_status w0 proc t = None) →
  ∀ (n fuel : nat) (cur : world),
    service cur = service w0 →
    child_status cur = child_status w0 →
    (end_time ≤ now cur + n * poll_interval)%nat →
    (n < fuel)%nat →
    ∃ w', poll_until_loop fuel (check_health_or_exit self proc) end_time
            poll_interval timeout_ex cur
          = Raise timeout_ex w'.
Proof.
  intros Hh Hn. induction n as [|n IH]; intros fuel cur Hs Hc He Hf;
    (destruct fuel as [|fuel]; [lia|]); simpl poll_until_loop;
    unfold bind at 1; rewrite check_health_or_exit_eval;
    rewrite Hs, Hh, Hc, Hn;
    set (w1 := log EvPoll (log_all _ cur));
    (assert (now w1 = now cur ∧ service w1 = service w0
             ∧ child_status w1 = child_status w0) as (B & S1 & C1);
     [destruct (log_all_fields
                  (probe_events (_config_dir self)
                     (service w0 (_config_dir self) (now cur))) cur)
        as (_ & B & S1 & C1 & _);
      unfold w1; simpl; rewrite B, S1, C1; auto|]);
    unfold bind at 1; unfold time_time at 1.
  - assert ((end_time <=? now w1)%nat = true) as ->
      by (apply Nat.leb_le; lia).
    now exists w1.
  - destruct (end_time <=? now w1)%nat eqn:E; [now exists w1|].
    unfold bind at 1. unfold time_sleep at 1.
    set (w2 := log (EvSleep poll_interval) (advance poll_interval w1)).
    assert (now w2 = (now cur + poll_interval)%nat) as N2.
    { change (now w2) with (now w1 + poll_interval)%nat. now rewrite B. }
    apply (IH fuel w2); [exact S1|exact C1| |lia].
    rewrite N2. lia.
Qed.

Lemma wait_for_daemon_timeout (fuel : nat) (self : Config) (proc : process)
    (w : world) :
  (0 < poll_interval)%nat →
  (∀ t, is_healthy (health_of (service w (_config_dir self) t)) = false) →
  (∀ t, child_status w proc t = None) →
  (5000 < fuel)%nat →
  ∃ w', _wait_for_daemon_healthy poll_interval fuel self proc w
        = Raise (EdenStartError
                   ("timed out waiting for edenfs to become " +:+ "healthy")) w'.
Proof.
  intros Hi Hh Hn Hf. unfold _wait_for_daemon_healthy, poll_until.
  unfold bind at 1. unfold time_time at 1.
  apply (poll_until_loop_timeout self proc _ _ w Hh Hn 5000 fuel w);
    try reflexivity; [|exact Hf].
  change (5 * 1000)%nat with 5000%nat. nia.
Qed.

End Supervision.

(** * Validation of the mount point *)

Lemma verify_mount_point_isdir mount_point w :
  isdir (fs w) mount_point = true → _verify_mount_point mount_point w = Ret tt w.
Proof.
  intros H. unfold _verify_mount_point, bind, os_path_isdir. now rewrite H.
Qed.

Lemma verify_mount_point_creates mount_point w :
  stat_path (fs w) mount_point = inr None →
  isdir (fs w) (os_path_dirname mount_point) = true →
  ∃ k, resolve mount_point = Some k
       ∧ _verify_mount_point mount_point w = Ret tt (made_dir k w)
       ∧ stat_key (fs w) k = inr None
       ∧ isdir (fs (made_dir k w)) mount_point = true.
Proof.
  intros Hs Hp. unfold stat_path in Hs.
  destruct (resolve mount_point) as [k|] eqn:Hk; [|discriminate].
  exists k. split; [reflexivity|].
  assert (isdir (fs w) mount_point = false) as Hd
    by (unfold isdir, stat_path; now rewrite Hk, Hs).
  split; [|split; [exact Hs|]].
  - unfold _verify_mount_point, bind, os_path_isdir. rewrite Hd, Hp.
    unfold os_mkdir. rewrite Hk. now apply mkdir_key_fresh.
  - eapply isdir_stat; [exact Hk|]. now apply made_dir_stat.
Qed.

Lemma verify_mount_point_fails mount_point w :
  isdir (fs w) mount_point = false →
  isdir (fs w) (os_path_dirname mount_point) = false →
  _verify_mount_point mount_point w
  = Raise (Exception (mount_point_error mount_point)) w.
Proof.
  intros Hd Hp. unfold _verify_mount_point, bind, os_path_isdir.
  now rewrite Hd, Hp.
Qed.

Lemma makedirs_key_extends k : keeps extends (makedirs_key k).
Proof. apply makedirs_key_keeps; [typeclasses eauto | apply mkdir_key_extends]. Qed.

Lemma get_or_create_dir_extends path : keeps extends (_get_or_create_dir path).
Proof.
  unfold _get_or_create_dir.
  apply keeps_bind; [typeclasses eauto| |intros _; keeps_done].
  apply keeps_try_except; [typeclasses eauto| |].
  - unfold os_makedirs. destruct (resolve path);
      [apply makedirs_key_extends | keeps_done].
  - intros e k. destruct e; try discriminate.
    destruct (decide (e ≠ EEXIST)); [discriminate|].
    intros [= <-]. keeps_done.
Qed.

Lemma create_thrift_client_logs config_dir :
  keeps only_logs (create_thrift_client config_dir).
Proof.
  intros w. unfold create_thrift_client.
  destruct (service w config_dir (now w)); apply only_logs_log.
Qed.

Lemma call_logs {A} client r (answer : service_view -> reply A) :
  keeps only_logs (call client r answer).
Proof.
  intros w. unfold call.
  destruct (service w client (now w)) as [v|]; [|apply only_logs_log].
  destruct (answer v); apply only_logs_log.
Qed.

Lemma only_logs_extends w w' : only_logs w w' → extends w w'.
Proof. now intros (_ & _ & _ & _ & E). Qed.

Lemma only_logs_same_fs w w' : only_logs w w' → same_fs w w'.
Proof. now intros (E & _). Qed.

Lemma rebox_keeps (R : relation world) `{!PreOrder R} {A} e (k : M A) :
  rebox_EdenError e = Some k → keeps R k.
Proof.
  destruct e; try discriminate. intros [= <-]. keeps_done.
Qed.

Lemma as_str_keeps (R : relation world) `{!PreOrder R} v : keeps R (as_str v).
Proof. destruct v; keeps_done. Qed.

Lemma mount_validated_extends self name info mount_point :
  keeps extends (mount_validated self name info mount_point).
Proof.
  unfold mount_validated.
  apply keeps_bind; [typeclasses eauto|apply get_or_create_dir_extends|].
  intros _. apply keeps_bind; [typeclasses eauto| |].
  - eapply keeps_weaken; [apply only_logs_extends|apply create_thrift_client_logs].
  - intros client. apply keeps_try_except; [typeclasses eauto| |].
    + eapply keeps_weaken; [apply only_logs_extends|apply call_logs].
    + intros e k. apply rebox_keeps. typeclasses eauto.
Qed.

(** * Mount, unmount and checkout *)

Section Orchestrator.

Variable json_dumps : json -> string.
Variable json_loads : string -> option json.


Lemma mount_eq self name w info mount_point :
  get_client_info json_loads self name w = Ret info w →
  info_mount info = JStr mount_point →
  mount json_loads self name w
  = bind (_verify_mount_point mount_point)
      (fun _ => mount_validated self name info mount_point) w.
Proof.
  intros Hi Hm. unfold mount.
  rewrite (bind_eq_Ret _ _ _ _ _ Hi). rewrite Hm. reflexivity.
Qed.

(** C6, as the code has it: [mount] validates the mount point the client
    records before it turns to the service, and the parent it looks at is
    [os.path.dirname] of the recorded path.  A mount point that is a
    directory is left as it is; one that does not exist while its
    [dirname] is a directory is made first, and this is the first thing
    [mount] does to its surroundings, so that any request to the service
    comes after it; and when neither the mount point nor its [dirname] is a
    directory, [mount] fails with the error of the mount point in an
    unchanged world: no request has been made. *)
Theorem mount_validates_mount_point self name w info mount_point :
  get_client_info json_loads self name w = Ret info w →
  info_mount info = JStr mount_point →
  (isdir (fs w) mount_point = true →
   mount json_loads self name w = mount_validated self name info mount_point w)
  ∧ (stat_path (fs w) mount_point = inr None →
     isdir (fs w) (os_path_dirname mount_point) = true →
     ∃ k, resolve mount_point = Some k
          ∧ isdir (fs (made_dir k w)) mount_point = true
          ∧ mount json_loads self name w
            = mount_validated self name info mount_point (made_dir k w)
          ∧ ∃ tail, events (world_of (mount json_loads self name w))
                    = (events w ++ EvMkdir k :: tail)%list)
  ∧ (isdir (fs w) mount_point = false →
     isdir (fs w) (os_path_dirname mount_point) = false →
     mount json_loads self name w = Raise (Exception (mount_point_error mount_point)) w).
Proof.
  intros Hi Hm. rewrite (mount_eq _ _ _ _ _ Hi Hm). repeat split.
  - intros Hd. now rewrite (bind_eq_Ret _ _ _ _ _ (verify_mount_point_isdir _ _ Hd)).
  - intros Hs Hp.
    destruct (verify_mount_point_creates _ _ Hs Hp) as (k & Hk & Hv & _ & Hd).
    exists k. rewrite (bind_eq_Ret _ _ _ _ _ Hv).
    repeat split; try assumption.
    destruct (mount_validated_extends self name info mount_point (made_dir k w))
      as [tail Ht].
    exists tail. rewrite Ht. simpl. now rewrite <- app_assoc.
  - intros Hd Hp. apply bind_eq_Raise. now apply verify_mount_point_fails.
Qed.

(** C10, as the code has it: [create_client] validates the mount point
    before it looks for a client of the same name, and the parent it looks
    at is [os.path.dirname] of the mount point.  For a client that exists
    already: when neither the mount point nor its [dirname] is a directory
    the call fails with the error of the mount point, in an unchanged world;
    when the mount point does not exist and its [dirname] is a directory,
    the call fails with the already-exists error after the mount point has
    been made, which is all that has changed in the filesystem: the registry
    is as it was unless the mount point lies inside it. *)
Theorem create_client_validates_first self name mount_point snapshot_id
    repo_type repo_source with_buck w :
  isdir (fs w) (client_dir_of self name) = true →
  (isdir (fs w) mount_point = false →
   isdir (fs w) (os_path_dirname mount_point) = false →
   create_client json_dumps self name mount_point snapshot_id repo_type repo_source
     with_buck w
   = Raise (Exception (mount_point_error mount_point)) w)
  ∧ (stat_path (fs w) mount_point = inr None →
     isdir (fs w) (os_path_dirname mount_point) = true →
     ∃ k, resolve mount_point = Some k
          ∧ create_client json_dumps self name mount_point snapshot_id repo_type
              repo_source with_buck w
            = Raise (Exception ("Error: client " +:+ name +:+ " already exists."))
                    (made_dir k w)
          ∧ isdir (fs (made_dir k w)) mount_point = true
          ∧ fs (made_dir k w) = <[k := Dir]> (fs w)
          ∧ (∀ k', k' ≠ k → fs (made_dir k w) !! k' = fs w !! k')
          ∧ (¬ key_of (_config_dir self) `suffix_of` k →
             ∀ k', key_of (_config_dir self) `suffix_of` k' →
                   fs (made_dir k w) !! k' = fs w !! k')).
Proof.
  intros Hc. split.
  - intros Hd Hp. unfold create_client.
    apply bind_eq_Raise. now apply verify_mount_point_fails.
  - intros Hs Hp.
    destruct (verify_mount_point_creates _ _ Hs Hp) as (k & Hk & Hv & Hn & Hd).
    exists k. split; [exact Hk|]. split; [|split; [exact Hd|split; [|split]]].
    + unfold create_client. rewrite (bind_eq_Ret _ _ _ _ _ Hv).
      fold (client_dir_of self name).
      unfold bind at 1. unfold os_path_isdir.
      assert (isdir (fs (made_dir k w)) (client_dir_of self name) = true) as ->.
      { apply isdir_true in Hc as (kc & Hkc & Hst).
        eapply isdir_stat; [exact Hkc|]. now apply (made_dir_grows k w Hn). }
      reflexivity.
    + reflexivity.
    + intros k' Hne. simpl. now rewrite lookup_insert_ne.
    + intros Hout k' Hin. simpl. rewrite lookup_insert_ne; [reflexivity|].
      intros ->. contradiction.
Qed.

(** C8: [checkout] leaves every file and directory as it found it, whether
    the request to the service succeeds or fails: the filesystem after the
    call is the filesystem before it. *)
Theorem checkout_keeps_registry self name snapshot_id w :
  fs (world_of (checkout json_loads self name snapshot_id w)) = fs w.
Proof.
  revert w. change (keeps same_fs (checkout json_loads self name snapshot_id)).
  unfold checkout.
  apply keeps_bind; [typeclasses eauto| |].
  - eapply keeps_weaken; [|apply get_client_info_reads].
    intros w1 w2 <-. reflexivity.
  - intros info. apply keeps_bind; [typeclasses eauto| |].
    + eapply keeps_weaken; [apply only_logs_same_fs|apply create_thrift_client_logs].
    + intros client. apply keeps_try_except; [typeclasses eauto| |].
      * apply keeps_bind; [typeclasses eauto|apply as_str_keeps; typeclasses eauto|].
        intros mp. eapply keeps_weaken; [apply only_logs_same_fs|apply call_logs].
      * intros e k. apply rebox_keeps. typeclasses eauto.
Qed.

Lemma create_thrift_client_eval config_dir w v :
  service w config_dir (now w) = Some v →
  create_thrift_client config_dir w = Ret config_dir (log (EvConnect config_dir) w).
Proof. unfold create_thrift_client. now intros ->. Qed.

Lemma call_app_error {A} client r (answer : service_view -> reply A) w v
    message str :
  service w client (now w) = Some v →
  answer v = AppError message str →
  call client r answer w = Raise (EdenError message str) (log (EvRpc r) w).
Proof. unfold call. now intros -> ->. Qed.

(** [checkout] reboxes the error of the service: only the message is left. *)
Lemma checkout_reboxes self name snapshot_id w info mount_point v message str :
  get_client_info json_loads self name w = Ret info w →
  info_mount info = JStr mount_point →
  service w (_config_dir self) (now w) = Some v →
  sv_checkOutRevision v mount_point snapshot_id = AppError message str →
  checkout json_loads self name snapshot_id w
  = Raise (Exception message)
      (log (EvRpc (CheckOutRevision mount_point snapshot_id))
         (log (EvConnect (_config_dir self)) w)).
Proof.
  intros Hi Hm Hv Ha. unfold checkout.
  rewrite (bind_eq_Ret _ _ _ _ _ Hi). unfold get_thrift_client.
  rewrite (bind_eq_Ret _ _ _ _ _ (create_thrift_client_eval _ _ _ Hv)).
  rewrite Hm. unfold try_except, as_str. unfold bind at 1. unfold ret at 1.
  rewrite (call_app_error _ _ _ _ v message str); [reflexivity|exact Hv|exact Ha].
Qed.

(** So does [mount], once the mount point is validated. *)
Lemma mount_validated_reboxes self name info mount_point w d w1 v message str :
  _get_or_create_write_dir self name w = Ret d w1 →
  service w1 (_config_dir self) (now w1) = Some v →
  sv_mount v {| mountPoint := mount_point;
                edenClientPath := info_client_dir info |}
  = AppError message str →
  mount_validated self name info mount_point w
  = Raise (Exception message)
      (log (EvRpc (Mount {| mountPoint := mount_point;
                            edenClientPath := info_client_dir info |}))
         (log (EvConnect (_config_dir self)) w1)).
Proof.
  intros Hd Hv Ha. unfold mount_validated.
  rewrite (bind_eq_Ret _ _ _ _ _ Hd). unfold get_thrift_client.
  rewrite (bind_eq_Ret _ _ _ _ _ (create_thrift_client_eval _ _ _ Hv)).
  unfold try_except.
  rewrite (call_app_error _ _ _ _ v message str); [reflexivity|exact Hv|exact Ha].
Qed.

(** C2, where the code departs from it: [unmount] has no handler, and the
    error of the service reaches the caller as the service raised it. *)
Theorem unmount_passes_service_error self name w info mount_point v message str :
  get_client_info json_loads self name w = Ret info w →
  info_mount info = JStr mount_point →
  service w (_config_dir self) (now w) = Some v →
  sv_unmount v mount_point = AppError message str →
  unmount json_loads self name w
  = Raise (EdenError message str)
      (log (EvRpc (Unmount mount_point)) (log (EvConnect (_config_dir self)) w)).
Proof.
  intros Hi Hm Hv Ha. unfold unmount.
  rewrite (bind_eq_Ret _ _ _ _ _ Hi). unfold get_thrift_client.
  rewrite (bind_eq_Ret _ _ _ _ _ (create_thrift_client_eval _ _ _ Hv)).
  rewrite Hm. unfold as_str. unfold bind at 1. unfold ret at 1.
  apply (call_app_error _ _ _ _ v message str); [exact Hv|exact Ha].
Qed.

End Orchestrator.

(** * The get-or-create helpers *)

(** Whatever stands at the path, a directory or a file, [os.makedirs]
    raises [EEXIST], which [_get_or_create_dir] takes for success. *)
Lemma get_or_create_dir_existing path w k n :
  resolve path = Some k →
  stat_key (fs w) k = inr (Some n) →
  _get_or_create_dir path w = Ret path w.
Proof.
  intros Hk Hs. unfold _get_or_create_dir, os_makedirs. rewrite Hk.
  assert (makedirs_key k w = Raise (OSError EEXIST) w) as Hm.
  { destruct k as [|c p]; simpl.
    - unfold mkdir_key. simpl. reflexivity.
    - pose proof (stat_key_dir_parent _ _ _ _ Hs) as Hp.
      unfold bind at 1. unfold exists_key. rewrite Hp.
      unfold bind at 1. unfold ret at 1. unfold mkdir_key. now rewrite Hs. }
  unfold bind, try_except. rewrite Hm. simpl. reflexivity.
Qed.

(** An existing directory is accepted without a sound. *)
Lemma get_or_create_dir_existing_dir path w :
  isdir (fs w) path = true → _get_or_create_dir path w = Ret path w.
Proof.
  intros H. apply isdir_true in H as (k & Hk & Hs).
  eapply get_or_create_dir_existing; eassumption.
Qed.

(** Any other failure of [os.makedirs] is passed on. *)
Lemma get_or_create_dir_propagates path w e w' :
  os_makedirs path w = Raise (OSError e) w' →
  e ≠ EEXIST →
  _get_or_create_dir path w = Raise (OSError e) w'.
Proof.
  intros Hm He. unfold _get_or_create_dir, bind, try_except. rewrite Hm.
  destruct (decide (e ≠ EEXIST)); [reflexivity|contradiction].
Qed.

(** C7, where the code departs from it: when the path of the local
    write-back directory, or of the storage root, exists as a regular file,
    the helper returns the path as if the directory were there; no failure
    is passed on, and the path is still not a directory. *)
Theorem get_or_create_dir_accepts_file (self : Config) (client_name : string)
    (w : world) :
  (∀ data,
     stat_path (fs w) (os_path_join (client_dir_of self client_name) "local")
     = inr (Some (File data)) →
     _get_or_create_write_dir self client_name w
     = Ret (os_path_join (client_dir_of self client_name) "local") w
     ∧ isdir (fs w) (os_path_join (client_dir_of self client_name) "local")
       = false)
  ∧ (∀ data,
       stat_path (fs w) (os_path_join (_config_dir self) ROCKS_DB_DIR)
       = inr (Some (File data)) →
       get_or_create_path_to_rocks_db self w
       = Ret (os_path_join (_config_dir self) ROCKS_DB_DIR) w
       ∧ isdir (fs w) (os_path_join (_config_dir self) ROCKS_DB_DIR) = false).
Proof.
  split; intros data Hs.
  - split; [|unfold isdir; now rewrite Hs].
    unfold _get_or_create_write_dir. fold (client_dir_of self client_name).
    unfold stat_path in Hs.
    destruct (resolve (os_path_join (client_dir_of self client_name) "local"))
      as [k|] eqn:Hk; [|discriminate].
    eapply get_or_create_dir_existing; eassumption.
  - split; [|unfold isdir; now rewrite Hs].
    unfold get_or_create_path_to_rocks_db. unfold stat_path in Hs.
    destruct (resolve (os_path_join (_config_dir self) ROCKS_DB_DIR))
      as [k|] eqn:Hk; [|discriminate].
    eapply get_or_create_dir_existing; eassumption.
Qed.

(** * Trees without stray entries *)

Global Instance keeps_wf_preorder : PreOrder keeps_wf.
Proof. split; [now intros w|]. intros w1 w2 w3 H1 H2 H. auto. Qed.

Lemma wf_tree_insert t k n x :
  wf_tree t → stat_key t k = inr x → x ≠ Some Dir → wf_tree (<[k := n]> t).
Proof.
  intros Hwf Hs Hx k0 n0 H0. destruct (decide (k0 = k)) as [->|Hne].
  - rewrite lookup_insert_eq in H0. injection H0 as <-.
    eapply stat_key_insert_same; eassumption.
  - rewrite lookup_insert_ne in H0 by congruence.
    apply stat_key_insert_other; [congruence|assumption|now apply Hwf].
Qed.

Lemma wf_tree_parent t c k n :
  wf_tree t → t !! (c :: k) = Some n → stat_key t k = inr (Some Dir).
Proof. intros Hwf H. eapply stat_key_dir_parent. apply Hwf, H. Qed.

Lemma wf_tree_below t l k n :
  wf_tree t → l ≠ [] → t !! (l ++ k)%list = Some n →
  stat_key t k = inr (Some Dir).
Proof.
  intros Hwf Hl H. apply Hwf in H. clear Hwf.
  revert n H. induction l as [|c l IH]; intros n H; [contradiction|].
  simpl in H. pose proof (stat_key_dir_parent _ _ _ _ H) as Hp.
  destruct l as [|c' l]; [exact Hp|]. eapply IH; [discriminate|exact Hp].
Qed.

Lemma mkdir_key_wf k : keeps keeps_wf (mkdir_key k).
Proof.
  intros w. unfold mkdir_key.
  destruct (stat_key (fs w) k) as [e|[n|]] eqn:E; simpl; try reflexivity.
  intros Hwf. simpl. eapply wf_tree_insert; [exact Hwf|exact E|discriminate].
Qed.

Lemma makedirs_key_wf k : keeps keeps_wf (makedirs_key k).
Proof. apply makedirs_key_keeps; [typeclasses eauto|apply mkdir_key_wf]. Qed.

Lemma os_makedirs_wf p : keeps keeps_wf (os_makedirs p).
Proof.
  unfold os_makedirs. destruct (resolve p); [apply makedirs_key_wf|keeps_done].
Qed.

Lemma write_file_wf p data : keeps keeps_wf (write_file p data).
Proof.
  intros w. unfold write_file. destruct (resolve p) as [k|]; [|reflexivity].
  destruct (stat_key (fs w) k) as [e|[[|d]|]] eqn:E; simpl; try reflexivity;
    intros Hwf; simpl; (eapply wf_tree_insert; [exact Hwf|exact E|discriminate]).
Qed.

Lemma os_path_isdir_keeps (R : relation world) `{!PreOrder R} p :
  keeps R (os_path_isdir p).
Proof. intros w. simpl. reflexivity. Qed.

Lemma verify_mount_point_keeps (R : relation world) `{!PreOrder R} mount_point :
  (∀ k, keeps R (mkdir_key k)) → keeps R (_verify_mount_point mount_point).
Proof.
  intros Hmk. unfold _verify_mount_point.
  apply keeps_bind; [assumption|now apply os_path_isdir_keeps|].
  intros d. destruct d; [keeps_done|].
  apply keeps_bind; [assumption|now apply os_path_isdir_keeps|].
  intros d'. destruct d'; [|keeps_done].
  unfold os_mkdir. destruct (resolve mount_point); [apply Hmk|keeps_done].
Qed.

Lemma get_or_create_dir_keeps (R : relation world) `{!PreOrder R} path :
  (∀ k, keeps R (mkdir_key k)) → keeps R (_get_or_create_dir path).
Proof.
  intros Hmk. unfold _get_or_create_dir.
  apply keeps_bind; [assumption| |intros _; keeps_done].
  apply keeps_try_except; [assumption| |].
  - unfold os_makedirs. destruct (resolve path);
      [now apply makedirs_key_keeps | keeps_done].
  - intros e k. destruct e; try discriminate.
    destruct (decide (e ≠ EEXIST)); [discriminate|].
    intros [= <-]. keeps_done.
Qed.

(** * Listing the clients *)

Lemma elem_of_entries t k name :
  name ∈ entries t k ↔ is_Some (t !! (name :: k)).
Proof.
  unfold entries. rewrite list_elem_of_omap. split.
  - intros ([k' n] & Hin & Hf). simpl in Hf.
    destruct k' as [|c p]; [discriminate|].
    destruct (decide (p = k)) as [->|]; [|discriminate].
    injection Hf as ->. apply elem_of_map_to_list in Hin. now exists n.
  - intros [n Hn]. exists (name :: k, n). split.
    + now apply elem_of_map_to_list.
    + simpl. now rewrite decide_True.
Qed.

Lemma NoDup_omap_inj {A B} (f : A -> option B) (l : list A) :
  (∀ x y z, f x = Some z → f y = Some z → x = y) →
  NoDup l → NoDup (omap f l).
Proof.
  intros Hinj. induction 1 as [|x l Hx Hl IH]; simpl; [constructor|].
  destruct (f x) as [z|] eqn:E; [|exact IH].
  constructor; [|exact IH].
  rewrite list_elem_of_omap. intros (y & Hy & Hfy).
  apply Hx. now rewrite (Hinj x y z E Hfy).
Qed.

Lemma NoDup_entries t k : NoDup (entries t k).
Proof.
  unfold entries.
  assert (∀ l : list (key * node), NoDup (l.*1) →
            NoDup (omap (fun kn : key * node =>
                           match kn.1 with
                           | c :: p => if decide (p = k) then Some c else None
                           | [] => None
                           end) l)) as H.
  { intros l Hl.
    rewrite <- (list_omap_ext
                  (fun k' : key =>
                     match k' with
                     | c :: p => if decide (p = k) then Some c else None
                     | [] => None
                     end : option string)
                  (fun kn : key * node =>
                     match kn.1 with
                     | c :: p => if decide (p = k) then Some c else None
                     | [] => None
                     end) (l.*1) l).
    - apply NoDup_omap_inj; [|exact Hl].
      intros [|c1 p1] [|c2 p2] z; try discriminate.
      destruct (decide (p1 = k)) as [->|]; [|discriminate].
      destruct (decide (p2 = k)) as [->|]; [|discriminate].
      now intros [= ->] [= ->].
    - clear Hl. induction l as [|[k' n] l IH]; constructor; [reflexivity|exact IH]. }
  apply H, NoDup_fst_map_to_list.
Qed.

(** The loop of [get_client_names] keeps the entries that are directories,
    in their order, and changes nothing. *)
Lemma get_client_names_loop clients_dir listing clients w :
  for_loop listing
    (fun clients entry =>
       d' <- os_path_isdir (os_path_join clients_dir entry) ;;
       if d' then ret (clients ++ [entry])%list else ret clients)
    clients w
  = Ret (clients ++ filter (fun entry =>
                      isdir (fs w) (os_path_join clients_dir entry) = true)
                    listing)%list w.
Proof.
  revert clients. induction listing as [|entry listing IH]; intros clients.
  - simpl. unfold ret. now rewrite app_nil_r.
  - simpl for_loop. unfold bind at 1. unfold bind at 1. unfold os_path_isdir.
    rewrite filter_cons.
    destruct (isdir (fs w) (os_path_join clients_dir entry)) eqn:E.
    + unfold ret at 1. rewrite IH. rewrite decide_True by reflexivity.
      now rewrite <- app_assoc.
    + unfold ret at 1. rewrite IH. rewrite decide_False by discriminate.
      reflexivity.
Qed.

Lemma resolve_clients_dir self :
  resolve (_get_clients_dir self) = Some (CLIENTS_DIR :: key_of (_config_dir self)).
Proof. unfold _get_clients_dir. apply resolve_join, valid_CLIENTS_DIR. Qed.

Lemma key_of_clients_dir self :
  key_of (_get_clients_dir self) = CLIENTS_DIR :: key_of (_config_dir self).
Proof. unfold _get_clients_dir. apply key_of_join, valid_CLIENTS_DIR. Qed.

Lemma get_client_names_eval self w :
  get_client_names self w
  = Ret (if isdir (fs w) (_get_clients_dir self)
         then filter (fun entry =>
                        isdir (fs w) (os_path_join (_get_clients_dir self) entry)
                        = true)
                (entries (fs w) (key_of (_get_clients_dir self)))
         else []) w.
Proof.
  unfold get_client_names. unfold bind at 1. unfold os_path_isdir at 1.
  destruct (isdir (fs w) (_get_clients_dir self)) eqn:E; [|reflexivity].
  cbn [negb]. unfold bind at 1. unfold os_listdir.
  apply isdir_true in E as (k & Hk & Hs). rewrite Hk, Hs.
  rewrite resolve_clients_dir in Hk. injection Hk as <-.
  rewrite get_client_names_loop, key_of_clients_dir. reflexivity.
Qed.

Lemma client_listed self name w :
  valid_name name →
  isdir (fs w) (client_dir_of self name) = true →
  name ∈ (if isdir (fs w) (_get_clients_dir self)
          then filter (fun entry =>
                         isdir (fs w) (os_path_join (_get_clients_dir self) entry)
                         = true)
                 (entries (fs w) (key_of (_get_clients_dir self)))
          else []).
Proof.
  intros Hv Hd.
  pose proof Hd as Hd'. apply isdir_true in Hd' as (k & Hk & Hs).
  unfold client_dir_of in Hk. rewrite (resolve_join _ _ Hv) in Hk.
  injection Hk as <-.
  pose proof (stat_key_dir_parent _ _ _ _ Hs) as Hp.
  rewrite (isdir_stat _ _ _ (resolve_clients_dir self));
    [|now rewrite <- key_of_clients_dir].
  apply list_elem_of_filter. split; [exact Hd|].
  apply elem_of_entries. rewrite (stat_key_cons _ _ _ Hp) in Hs.
  injection Hs as Hs. now exists Dir.
Qed.

(** X1: [get_client_names] never fails and changes nothing.  Every name it
    lists is a directory under the clients directory, and every directory
    there with a proper entry name is listed; no name is listed twice; when
    the clients directory is missing the list is empty. *)
Theorem get_client_names_lists_directories (self : Config) (w : world) :
  ∃ names,
    get_client_names self w = Ret names w
    ∧ (∀ name, name ∈ names → isdir (fs w) (client_dir_of self name) = true)
    ∧ (∀ name, valid_name name →
               isdir (fs w) (client_dir_of self name) = true → name ∈ names)
    ∧ (isdir (fs w) (_get_clients_dir self) = false → names = [])
    ∧ NoDup names.
Proof.
  eexists. split; [apply get_client_names_eval|]. split; [|split; [|split]].
  - intros name. destruct (isdir (fs w) (_get_clients_dir self));
      [|intros H; inversion H].
    rewrite list_elem_of_filter. now intros [H _].
  - intros name Hv Hd. now apply client_listed.
  - now intros ->.
  - destruct (isdir (fs w) (_get_clients_dir self)); [|constructor].
    apply NoDup_filter, NoDup_entries.
Qed.


(** * The records of all clients *)

Section AllClients.

Variable json_loads : string -> option json.

Lemma settles_bind {A B} (m : M A) (f : A -> M B) :
  settles m → (∀ a, settles (f a)) → settles (bind m f).
Proof.
  intros Hm Hf w. unfold bind. specialize (Hm w).
  destruct (m w) as [a w1|e w1|w1|w1]; try exact Hm. apply Hf.
Qed.

Lemma settles_ret {A} (a : A) : settles (ret a).
Proof. now intros w. Qed.

Lemma settles_raise {A} (e : exn) : settles (@raise A e).
Proof. now intros w. Qed.

Lemma open_file_settles p : settles (open_file p).
Proof.
  intros w. unfold open_file. now destruct (stat_path (fs w) p) as [e|[[|d]|]].
Qed.

Lemma read_file_settles p : settles (read_file p).
Proof.
  unfold read_file. apply settles_bind; [apply open_file_settles|].
  intros f. apply settles_ret.
Qed.

Lemma getitem_settles d k : settles (getitem d k).
Proof.
  unfold getitem. destruct d; try apply settles_raise.
  destruct (m !! k); [apply settles_ret|apply settles_raise].
Qed.

Lemma get_client_info_settles_in self name :
  settles (get_client_info json_loads self name).
Proof.
  unfold get_client_info.
  apply settles_bind; [now intros w|]. intros d.
  destruct (negb d); [apply settles_raise|].
  apply settles_bind; [apply open_file_settles|]. intros text.
  apply settles_bind.
  { unfold json_load. destruct (json_loads text);
      [apply settles_ret|apply settles_raise]. }
  intros doc. apply settles_bind; [apply read_file_settles|]. intros raw.
  apply settles_bind; [apply getitem_settles|]. intros bm.
  apply settles_bind; [apply getitem_settles|]. intros mt.
  apply settles_ret.
Qed.

Lemma get_client_info_settles self name w :
  (∃ i, get_client_info json_loads self name w = Ret i w)
  ∨ (∃ e, get_client_info json_loads self name w = Raise e w).
Proof.
  pose proof (get_client_info_settles_in self name w) as S.
  pose proof (get_client_info_reads json_loads self name w) as R.
  destruct (get_client_info json_loads self name w) as [i w'|e w'|w'|w'];
    try contradiction; simpl in R; subst w'; eauto.
Qed.

(** The loop of [get_all_client_config_info]: it ends with a record for
    every name, or with the error of the first client that cannot be read. *)
Lemma get_all_loop self names (acc : gmap string client_info) w :
  match for_loop names
          (fun (info : gmap string client_info) client =>
             i <- get_client_info json_loads self client ;;
             ret (<[client := i]> info))
          acc w with
  | Ret info w' =>
      w' = w
      ∧ (∀ name, name ∈ names →
                 ∃ i, get_client_info json_loads self name w = Ret i w)
      ∧ ∀ name i,
          info !! name = Some i
          ↔ (name ∈ names ∧ get_client_info json_loads self name w = Ret i w)
            ∨ ((name ∉ names) ∧ acc !! name = Some i)
  | Raise e w' =>
      w' = w ∧ ∃ name, name ∈ names
                       ∧ get_client_info json_loads self name w = Raise e w
  | _ => False
  end.
Proof.
  revert acc. induction names as [|x names IH]; intros acc.
  - simpl. split; [reflexivity|]. split; [intros name H; inversion H|].
    intros name i. split.
    + intros H. right. split; [apply not_elem_of_nil|exact H].
    + intros [[H _]|[_ H]]; [inversion H|exact H].
  - simpl for_loop. unfold bind at 1. unfold bind at 1.
    destruct (get_client_info_settles self x w) as [[ix Hx]|[e He]].
    + rewrite Hx. unfold ret at 1. specialize (IH (<[x := ix]> acc)).
      destruct (for_loop names _ (<[x := ix]> acc) w) as [info w'|e w'|w'|w'];
        try exact IH.
      * destruct IH as (-> & Hall & IH). split; [reflexivity|]. split.
        { intros name [->|Hin]%elem_of_cons; [now exists ix|now apply Hall]. }
        intros name i. rewrite IH.
        destruct (decide (name = x)) as [->|Hne].
        -- rewrite lookup_insert_eq. split.
           ++ intros [[Hin Hg]|[Hnin Hi]]; left; (split; [now left|congruence]).
           ++ intros [[_ Hg]|[Hnin _]]; [|exfalso; apply Hnin; now left].
              destruct (decide (x ∈ names)) as [Hin|Hnin];
                [left; now split|right; split; [exact Hnin|congruence]].
        -- rewrite lookup_insert_ne by congruence. split.
           ++ intros [[Hin Hg]|[Hnin Hi]];
                [left; split; [now right|exact Hg]|right; split; [|exact Hi]].
              intros [->|Hin]%elem_of_cons; contradiction.
           ++ intros [[Hin Hg]|[Hnin Hi]].
              ** apply elem_of_cons in Hin as [->|Hin]; [contradiction|].
                 left. now split.
              ** right. split; [|exact Hi]. intros Hin. apply Hnin. now right.
      * destruct IH as [-> (name & Hin & Hg)]. split; [reflexivity|].
        exists name. split; [now right|exact Hg].
    + rewrite He. split; [reflexivity|]. exists x. split; [now left|exact He].
Qed.

(** X2: when [get_all_client_config_info] returns, it has changed nothing,
    and the mapping it returns has exactly the names [get_client_names]
    lists, each with the record [get_client_info] returns for it. *)
Theorem get_all_client_config_info_records (self : Config) (w w' : world)
    (info : gmap string client_info) :
  get_all_client_config_info json_loads self w = Ret info w' →
  w' = w
  ∧ ∃ names,
      get_client_names self w = Ret names w
      ∧ ∀ name i,
          info !! name = Some i
          ↔ name ∈ names ∧ get_client_info json_loads self name w = Ret i w.
Proof.
  unfold get_all_client_config_info. intros H.
  rewrite (bind_eq_Ret _ _ _ _ _ (get_client_names_eval self w)) in H.
  pose proof (get_all_loop self
                (if isdir (fs w) (_get_clients_dir self)
                 then filter (fun entry =>
                                isdir (fs w)
                                  (os_path_join (_get_clients_dir self) entry)
                                = true)
                        (entries (fs w) (key_of (_get_clients_dir self)))
                 else []) ∅ w) as L.
  rewrite H in L. destruct L as (-> & _ & L). split; [reflexivity|].
  eexists. split; [apply get_client_names_eval|].
  intros name i. rewrite L. split.
  - intros [Hok|[_ He]]; [exact Hok|]. rewrite lookup_empty in He. discriminate.
  - intros Hok. now left.
Qed.

(** X3: one client that cannot be read makes the whole listing fail: when
    [get_client_info] raises for a client directory that exists,
    [get_all_client_config_info] raises too, with the error of a client it
    could not read, and returns no record at all. *)
Theorem get_all_client_config_info_fails (self : Config) (name : string)
    (w : world) (e : exn) :
  valid_name name →
  isdir (fs w) (client_dir_of self name) = true →
  get_client_info json_loads self name w = Raise e w →
  ∃ e' name',
    get_all_client_config_info json_loads self w = Raise e' w
    ∧ get_client_info json_loads self name' w = Raise e' w.
Proof.
  intros Hv Hd He. unfold get_all_client_config_info.
  rewrite (bind_eq_Ret _ _ _ _ _ (get_client_names_eval self w)).
  pose proof (client_listed self name w Hv Hd) as Hin.
  pose proof (get_all_loop self
                (if isdir (fs w) (_get_clients_dir self)
                 then filter (fun entry =>
                                isdir (fs w)
                                  (os_path_join (_get_clients_dir self) entry)
                                = true)
                        (entries (fs w) (key_of (_get_clients_dir self)))
                 else []) ∅ w) as L.
  destruct (for_loop _ _ ∅ w) as [info w'|e' w'|w'|w']; try contradiction.
  - exfalso. destruct L as (_ & Hall & _).
    destruct (Hall name Hin) as [i Hi]. congruence.
  - destruct L as [-> (name' & _ & Hg)]. now exists e', name'.
Qed.

End AllClients.


(** * Creating a client, once more *)

Global Instance keeps_dirs_preorder : PreOrder keeps_dirs.
Proof. split; [now intros w k|]. intros w1 w2 w3 H1 H2 k H. auto. Qed.

Lemma grows_keeps_dirs w w' : grows w w' → keeps_dirs w w'.
Proof. intros H k. apply H. Qed.

Lemma mkdir_key_dirs k : keeps keeps_dirs (mkdir_key k).
Proof. eapply keeps_weaken; [apply grows_keeps_dirs|apply mkdir_key_grows]. Qed.

Lemma write_file_dirs p data : keeps keeps_dirs (write_file p data).
Proof.
  intros w. unfold write_file. destruct (resolve p) as [k|]; [|reflexivity].
  destruct (stat_key (fs w) k) as [e|[[|d]|]] eqn:E; simpl; try reflexivity;
    intros k0 H0; simpl;
    (apply stat_key_insert_other; [congruence| |exact H0]); congruence.
Qed.

Section CreateClient.

Variable json_dumps : json -> string.
Variable json_loads : string -> option json.

(** A relation that making a directory and writing a file keep is kept by
    [create_client]. *)
Lemma create_client_keeps (R : relation world) `{!PreOrder R} self name
    mount_point snapshot_id repo_type repo_source with_buck :
  (∀ k, keeps R (mkdir_key k)) →
  (∀ p data, keeps R (write_file p data)) →
  keeps R (create_client json_dumps self name mount_point snapshot_id
             repo_type repo_source with_buck).
Proof.
  intros Hmk Hwr.
  assert (∀ p, keeps R (os_makedirs p)) as Hmd.
  { intros p. unfold os_makedirs. destruct (resolve p);
      [now apply makedirs_key_keeps|keeps_done]. }
  unfold create_client.
  apply keeps_bind; [assumption|now apply verify_mount_point_keeps|].
  intros _. apply keeps_bind; [assumption|now apply os_path_isdir_keeps|].
  intros d. destruct d; [keeps_done|].
  apply keeps_bind; [assumption|apply Hmd|]. intros _.
  apply keeps_bind; [assumption|apply Hmd|]. intros _.
  apply keeps_bind; [assumption| |].
  { destruct with_buck; [|keeps_done].
    apply keeps_bind; [assumption|apply Hmd|]. intros _. keeps_done. }
  intros bm. apply keeps_bind; [assumption|apply Hwr|]. intros _.
  destruct (truthy snapshot_id); [apply Hwr|keeps_done].
Qed.

Lemma verify_mount_point_Ret_isdir mount_point w w' :
  _verify_mount_point mount_point w = Ret tt w' →
  isdir (fs w') mount_point = true.
Proof.
  unfold _verify_mount_point, bind, os_path_isdir.
  destruct (isdir (fs w) mount_point) eqn:E; [now intros [= <-]|].
  destruct (isdir (fs w) (os_path_dirname mount_point)); [|discriminate].
  unfold os_mkdir. destruct (resolve mount_point) as [k|] eqn:Hk; [|discriminate].
  intros H. apply mkdir_key_Ret in H as [Hs ->].
  eapply isdir_stat; [exact Hk|]. now apply made_dir_stat.
Qed.

Lemma keeps_dirs_isdir w w' p :
  keeps_dirs w w' → isdir (fs w) p = true → isdir (fs w') p = true.
Proof.
  intros H Hd. apply isdir_true in Hd as (k & Hk & Hs).
  eapply isdir_stat; [exact Hk|]. now apply H.
Qed.

(** After a successful [create_client] the mount point is a directory. *)
Lemma create_client_Ret_mount_point self name mount_point snapshot_id repo_type
    repo_source with_buck w w' :
  create_client json_dumps self name mount_point snapshot_id repo_type
    repo_source with_buck w = Ret tt w' →
  isdir (fs w') mount_point = true.
Proof.
  intros H. unfold create_client in H.
  apply bind_Ret in H as (u & w1 & Hv & H). destruct u.
  apply verify_mount_point_Ret_isdir in Hv.
  eapply keeps_dirs_isdir; [|exact Hv].
  (* the rest of the function keeps the directories *)
  assert (∀ p, keeps keeps_dirs (os_makedirs p)) as Hmd.
  { intros p. unfold os_makedirs. destruct (resolve p);
      [apply makedirs_key_keeps; [typeclasses eauto|apply mkdir_key_dirs]
      |keeps_done]. }
  match type of H with ?m w1 = _ =>
    assert (keeps keeps_dirs m) as K end.
  { apply keeps_bind; [typeclasses eauto|now apply os_path_isdir_keeps; typeclasses eauto|].
    intros d. destruct d; [keeps_done|].
    apply keeps_bind; [typeclasses eauto|apply Hmd|]. intros _.
    apply keeps_bind; [typeclasses eauto|apply Hmd|]. intros _.
    apply keeps_bind; [typeclasses eauto| |].
    { destruct with_buck; [|keeps_done].
      apply keeps_bind; [typeclasses eauto|apply Hmd|]. intros _. keeps_done. }
    intros bm. apply keeps_bind; [typeclasses eauto|apply write_file_dirs|].
    intros _. destruct (truthy snapshot_id); [apply write_file_dirs|keeps_done]. }
  specialize (K w1). now rewrite H in K.
Qed.

(** X4: a second [create_client] for a name that was created fails with the
    already-exists error and changes nothing, whatever snapshot id,
    repository and flag it is given, when it names the same mount point. *)
Theorem create_client_twice self name mount_point snapshot_id repo_type
    repo_source with_buck snapshot_id' repo_type' repo_source' with_buck' w w' :
  valid_name name →
  create_client json_dumps self name mount_point snapshot_id repo_type
    repo_source with_buck w = Ret tt w' →
  create_client json_dumps self name mount_point snapshot_id' repo_type'
    repo_source' with_buck' w'
  = Raise (Exception ("Error: client " +:+ name +:+ " already exists.")) w'.
Proof.
  intros Hv H.
  pose proof (create_client_Ret_mount_point _ _ _ _ _ _ _ _ _ H) as Hmp.
  apply (create_client_Ret json_dumps) in H as (Hd & _ & _); [|exact Hv].
  unfold create_client.
  rewrite (bind_eq_Ret _ _ _ _ _ (verify_mount_point_isdir _ _ Hmp)).
  fold (client_dir_of self name). unfold bind, os_path_isdir. now rewrite Hd.
Qed.

End CreateClient.


(** * When [create_client] succeeds *)

(** [os.makedirs] succeeds where nothing exists yet and no file is in the
    way. *)
Lemma makedirs_key_free k : ∀ w,
  wf_tree (fs w) →
  stat_key (fs w) k = inr None ∨ stat_key (fs w) k = inl ENOENT →
  ∃ w', makedirs_key k w = Ret tt w'.
Proof.
  induction k as [|c p IH]; intros w Hwf Hfree.
  - simpl in Hfree. destruct Hfree; discriminate.
  - assert (fs w !! (c :: p) = None) as Hnone.
    { destruct (fs w !! (c :: p)) as [n|] eqn:E; [|reflexivity].
      apply Hwf in E. destruct Hfree; congruence. }
    simpl makedirs_key. unfold bind at 1. unfold exists_key.
    destruct (stat_key (fs w) p) as [e|[[|d]|]] eqn:Ep.
    + (* an ancestor is missing *)
      assert (e = ENOENT) as ->.
      { simpl in Hfree. rewrite Ep in Hfree. destruct Hfree; congruence. }
      destruct (IH w Hwf (or_intror Ep)) as [w1 H1].
      unfold bind at 1. unfold try_except. rewrite H1.
      exists (made_dir (c :: p) w1). apply mkdir_key_fresh.
      pose proof (makedirs_key_Ret _ _ _ H1) as [Hp _].
      rewrite (stat_key_cons _ _ _ Hp). f_equal.
      pose proof (makedirs_key_touches p w) as T. rewrite H1 in T. simpl in T.
      rewrite T; [exact Hnone|]. apply suffix_cons_not.
    + unfold bind at 1. unfold ret at 1.
      exists (made_dir (c :: p) w). apply mkdir_key_fresh.
      rewrite (stat_key_cons _ _ _ Ep). now f_equal.
    + simpl in Hfree. rewrite Ep in Hfree. destruct Hfree; discriminate.
    + destruct (IH w Hwf (or_introl Ep)) as [w1 H1].
      unfold bind at 1. unfold try_except. rewrite H1.
      exists (made_dir (c :: p) w1). apply mkdir_key_fresh.
      pose proof (makedirs_key_Ret _ _ _ H1) as [Hp _].
      rewrite (stat_key_cons _ _ _ Hp). f_equal.
      pose proof (makedirs_key_touches p w) as T. rewrite H1 in T. simpl in T.
      rewrite T; [exact Hnone|]. apply suffix_cons_not.
Qed.

(** Inside an existing directory [os.makedirs] is one [mkdir]. *)
Lemma makedirs_key_child c p w :
  stat_key (fs w) p = inr (Some Dir) →
  fs w !! (c :: p) = None →
  makedirs_key (c :: p) w = Ret tt (made_dir (c :: p) w).
Proof.
  intros Hp Hn. simpl makedirs_key. unfold bind at 1. unfold exists_key.
  rewrite Hp. unfold bind at 1. unfold ret at 1. apply mkdir_key_fresh.
  rewrite (stat_key_cons _ _ _ Hp). now f_equal.
Qed.

Lemma write_file_fresh p k data w :
  resolve p = Some k →
  stat_key (fs w) k = inr None →
  write_file p data w = Ret tt (wrote k data w).
Proof. unfold write_file. now intros -> ->. Qed.

Lemma made_dir_lookup k w k' :
  fs (made_dir k w) !! k' = if decide (k = k') then Some Dir else fs w !! k'.
Proof. simpl. apply lookup_insert. Qed.

Lemma wrote_lookup k data w k' :
  fs (wrote k data w) !! k'
  = if decide (k = k') then Some (File data) else fs w !! k'.
Proof. simpl. apply lookup_insert. Qed.

Lemma cons_neq_self_sym {A} (x : A) (l : list A) : l ≠ x :: l.
Proof. intros E. symmetry in E. now apply cons_neq_self in E. Qed.

Lemma stat_key_child t c p :
  stat_key t p = inr (Some Dir) → stat_key t (c :: p) = inr (t !! (c :: p)).
Proof. apply stat_key_cons. Qed.

Section Succeeds.

Variable json_dumps : json -> string.

(** Where the tree has no stray entries, the mount point is a directory and
    nothing stands at the path of the client directory or in its way,
    [create_client] goes through: it makes the client directory with
    [os.makedirs] and fills it. *)
Lemma create_client_run self name mount_point snapshot_id repo_type repo_source
    with_buck w :
  wf_tree (fs w) →
  valid_name name →
  isdir (fs w) mount_point = true →
  stat_path (fs w) (client_dir_of self name) = inr None
  ∨ stat_path (fs w) (client_dir_of self name) = inl ENOENT →
  let kcd := key_of (client_dir_of self name) in
  ∃ w1,
    makedirs_key kcd w = Ret tt w1
    ∧ (∀ l, l ≠ [] → fs w1 !! (l ++ kcd)%list = None)
    ∧ create_client json_dumps self name mount_point snapshot_id repo_type
        repo_source with_buck w
      = Ret tt (client_made json_dumps kcd mount_point snapshot_id repo_type
                  repo_source with_buck w1).
Proof.
  intros Hwf Hv Hmp Hfree kcd.
  set (cd := client_dir_of self name) in *.
  assert (resolve cd = Some kcd) as Hres.
  { unfold cd, client_dir_of, kcd. rewrite (resolve_join _ _ Hv).
    f_equal. symmetry. now apply key_of_join. }
  assert (∀ n, valid_name n → resolve (os_path_join cd n) = Some (n :: kcd))
    as Hsub by (intros n Hn; now rewrite resolve_join).
  unfold stat_path in Hfree. rewrite Hres in Hfree.
  destruct (makedirs_key_free kcd w Hwf Hfree) as [w1 H1].
  exists w1. split; [exact H1|].
  pose proof (makedirs_key_Ret _ _ _ H1) as [Hcd _].
  assert (∀ l, l ≠ [] → fs w1 !! (l ++ kcd)%list = None) as Hbelow.
  { intros l Hl.
    pose proof (makedirs_key_touches kcd w) as T. rewrite H1 in T. simpl in T.
    rewrite T.
    - destruct (fs w !! (l ++ kcd)%list) as [n|] eqn:E; [|exact E].
      pose proof (wf_tree_below _ _ _ _ Hwf Hl E). destruct Hfree; congruence.
    - intros Hs. apply suffix_length in Hs. rewrite length_app in Hs.
      destruct l; [contradiction|simpl in Hs; lia]. }
  split; [exact Hbelow|].
  unfold create_client. fold (client_dir_of self name). fold cd.
  rewrite (bind_eq_Ret _ _ _ _ _ (verify_mount_point_isdir _ _ Hmp)).
  unfold bind at 1. unfold os_path_isdir at 1.
  assert (isdir (fs w) cd = false) as ->.
  { unfold isdir, stat_path. rewrite Hres. destruct Hfree as [-> | ->]; reflexivity. }
  assert (os_makedirs cd w = Ret tt w1) as E1
    by (unfold os_makedirs; now rewrite Hres).
  rewrite (bind_eq_Ret _ _ _ _ _ E1).
  (* the bind-mounts directory *)
  assert (os_makedirs (os_path_join cd "bind-mounts") w1
          = Ret tt (made_dir ("bind-mounts" :: kcd) w1)) as E2.
  { unfold os_makedirs. rewrite (Hsub _ valid_bind_mounts).
    apply makedirs_key_child; [exact Hcd|].
    apply (Hbelow ["bind-mounts"]). discriminate. }
  rewrite (bind_eq_Ret _ _ _ _ _ E2).
  set (w2 := made_dir ("bind-mounts" :: kcd) w1).
  assert (stat_key (fs w2) ("bind-mounts" :: kcd) = inr (Some Dir)) as Hbm.
  { apply made_dir_stat. rewrite (stat_key_child _ _ _ Hcd). f_equal.
    apply (Hbelow ["bind-mounts"]). discriminate. }
  assert (stat_key (fs w2) kcd = inr (Some Dir)) as Hcd2
    by (eapply stat_key_dir_parent; exact Hbm).
  set (w3 := if with_buck
             then made_dir ("buck-out" :: "bind-mounts" :: kcd) w2 else w2).
  assert ((if with_buck
           then os_makedirs (os_path_join (os_path_join cd "bind-mounts")
                               "buck-out") ;;;
                ret (<["buck-out" := JStr "buck-out"]> (∅ : gmap string json))
           else ret ∅) w2
          = Ret (if with_buck then <["buck-out" := JStr "buck-out"]> ∅ else ∅)
                w3) as E3.
  { unfold w3. destruct with_buck; [|reflexivity].
    assert (os_makedirs (os_path_join (os_path_join cd "bind-mounts")
                           "buck-out") w2
            = Ret tt (made_dir ("buck-out" :: "bind-mounts" :: kcd) w2)) as Hmk.
    { unfold os_makedirs. rewrite (resolve_join _ _ valid_buck_out).
      rewrite (key_of_join _ _ valid_bind_mounts). fold kcd.
      apply makedirs_key_child; [exact Hbm|].
      unfold w2. rewrite made_dir_lookup. rewrite decide_False by discriminate.
      apply (Hbelow ["buck-out"; "bind-mounts"]). discriminate. }
    rewrite (bind_eq_Ret _ _ _ _ _ Hmk). reflexivity. }
  rewrite (bind_eq_Ret _ _ _ _ _ E3).
  assert (stat_key (fs w3) kcd = inr (Some Dir)) as Hcd3.
  { unfold w3. destruct with_buck; [|exact Hcd2].
    apply made_dir_grows; [|exact Hcd2].
    rewrite (stat_key_child _ _ _ Hbm). f_equal. unfold w2.
    rewrite made_dir_lookup. rewrite decide_False by discriminate.
    apply (Hbelow ["buck-out"; "bind-mounts"]). discriminate. }
  assert (∀ c, c ≠ "bind-mounts" → fs w3 !! (c :: kcd) = None) as H3.
  { intros c Hc.
    assert (fs w2 !! (c :: kcd) = None) as H2.
    { unfold w2. rewrite made_dir_lookup.
      rewrite decide_False by (intros E; injection E; congruence).
      apply (Hbelow [c]). discriminate. }
    unfold w3. destruct with_buck; [|exact H2].
    rewrite made_dir_lookup.
    rewrite decide_False; [exact H2|].
    intros E. apply (f_equal length) in E. simpl in E. lia. }
  (* the config document *)
  set (text := json_dumps _ +:+ Str.nl).
  assert (write_file (os_path_join cd CONFIG_JSON) text w3
          = Ret tt (wrote (CONFIG_JSON :: kcd) text w3)) as E4.
  { apply write_file_fresh; [apply Hsub, valid_CONFIG_JSON|].
    rewrite (stat_key_child _ _ _ Hcd3). f_equal. apply H3. discriminate. }
  rewrite (bind_eq_Ret _ _ _ _ _ E4).
  unfold client_made. fold w2. fold w3. fold text.
  destruct (truthy snapshot_id); [|reflexivity].
  apply write_file_fresh; [apply Hsub, valid_SNAPSHOT|].
  assert (stat_key (fs (wrote (CONFIG_JSON :: kcd) text w3)) kcd
          = inr (Some Dir)) as Hcd4.
  { simpl. apply stat_key_insert_other; [|apply cons_neq_self_sym|exact Hcd3].
    rewrite (stat_key_child _ _ _ Hcd3), (H3 CONFIG_JSON); discriminate. }
  rewrite (stat_key_child _ _ _ Hcd4). f_equal.
  rewrite wrote_lookup. rewrite decide_False by discriminate.
  apply H3. discriminate.
Qed.

End Succeeds.


(** * What a new client directory holds *)

Lemma made_dir_lookup_below l0 l kcd w :
  fs (made_dir (l0 ++ kcd)%list w) !! (l ++ kcd)%list
  = if decide (l0 = l) then Some Dir else fs w !! (l ++ kcd)%list.
Proof.
  rewrite made_dir_lookup. destruct (decide (l0 = l)) as [->|Hne].
  - now rewrite decide_True.
  - rewrite decide_False; [reflexivity|]. intros E. now apply app_inv_tail in E.
Qed.

Lemma wrote_lookup_below l0 data l kcd w :
  fs (wrote (l0 ++ kcd)%list data w) !! (l ++ kcd)%list
  = if decide (l0 = l) then Some (File data) else fs w !! (l ++ kcd)%list.
Proof.
  rewrite wrote_lookup. destruct (decide (l0 = l)) as [->|Hne].
  - now rewrite decide_True.
  - rewrite decide_False; [reflexivity|]. intros E. now apply app_inv_tail in E.
Qed.

Lemma client_made_below json_dumps kcd mount_point snapshot_id repo_type
    repo_source with_buck w1 l :
  (∀ l, l ≠ [] → fs w1 !! (l ++ kcd)%list = None) →
  l ≠ [] →
  fs (client_made json_dumps kcd mount_point snapshot_id repo_type repo_source
        with_buck w1) !! (l ++ kcd)%list
  = client_layout json_dumps mount_point snapshot_id repo_type repo_source
      with_buck l.
Proof.
  intros Hbelow Hl. unfold client_made, client_layout.
  change (SNAPSHOT :: kcd) with ([SNAPSHOT] ++ kcd)%list.
  change (CONFIG_JSON :: kcd) with ([CONFIG_JSON] ++ kcd)%list.
  change ("buck-out" :: "bind-mounts" :: kcd)
    with (["buck-out"; "bind-mounts"] ++ kcd)%list.
  change ("bind-mounts" :: kcd) with (["bind-mounts"] ++ kcd)%list.
  destruct (truthy snapshot_id), with_buck;
    rewrite ?wrote_lookup_below, ?made_dir_lookup_below,
            ?wrote_lookup_below, ?made_dir_lookup_below;
    repeat case_decide; subst; try discriminate; try congruence;
    try reflexivity; now apply Hbelow.
Qed.

Lemma NoDup_elem_of_singleton {A} (l : list A) (a : A) :
  NoDup l → (∀ x, x ∈ l ↔ x = a) → l = [a].
Proof.
  intros Hnd H. destruct l as [|x l].
  - exfalso. assert (a ∈ @nil A) as Hin by now apply H. inversion Hin.
  - assert (x = a) as -> by (apply H; now left).
    f_equal. apply elem_of_nil_inv. intros y Hy.
    apply NoDup_cons in Hnd as [Hn _].
    assert (y = a) as -> by (apply H; now right). contradiction.
Qed.

Section Layout.

Variable json_dumps : json -> string.

Lemma create_client_wf self name mount_point snapshot_id repo_type repo_source
    with_buck :
  keeps keeps_wf (create_client json_dumps self name mount_point snapshot_id
                    repo_type repo_source with_buck).
Proof.
  apply create_client_keeps;
    [typeclasses eauto|apply mkdir_key_wf|apply write_file_wf].
Qed.

(** The run of [create_client] with what it leaves, under the conditions of
    [create_client_run]. *)
Lemma create_client_layout self name mount_point snapshot_id repo_type
    repo_source with_buck w :
  wf_tree (fs w) →
  valid_name name →
  isdir (fs w) mount_point = true →
  stat_path (fs w) (client_dir_of self name) = inr None
  ∨ stat_path (fs w) (client_dir_of self name) = inl ENOENT →
  let kcd := key_of (client_dir_of self name) in
  ∃ w',
    create_client json_dumps self name mount_point snapshot_id repo_type
      repo_source with_buck w = Ret tt w'
    ∧ wf_tree (fs w')
    ∧ stat_key (fs w') kcd = inr (Some Dir)
    ∧ ∀ l, l ≠ [] →
           fs w' !! (l ++ kcd)%list
           = client_layout json_dumps mount_point snapshot_id repo_type
               repo_source with_buck l.
Proof.
  intros Hwf Hv Hmp Hfree kcd.
  destruct (create_client_run json_dumps self name mount_point snapshot_id
              repo_type repo_source with_buck w Hwf Hv Hmp Hfree)
    as (w1 & _ & Hbelow & Hrun).
  fold kcd in Hbelow, Hrun.
  eexists. split; [exact Hrun|].
  assert (wf_tree (fs (client_made json_dumps kcd mount_point snapshot_id
                         repo_type repo_source with_buck w1))) as Hwf'.
  { pose proof (create_client_wf self name mount_point snapshot_id repo_type
                  repo_source with_buck w) as K.
    rewrite Hrun in K. now apply K. }
  split; [exact Hwf'|]. split.
  - eapply (wf_tree_parent _ "bind-mounts"); [exact Hwf'|].
    change ("bind-mounts" :: kcd) with (["bind-mounts"] ++ kcd)%list.
    rewrite client_made_below by (assumption || discriminate). reflexivity.
  - intros l Hl. now apply client_made_below.
Qed.

End Layout.


Section NewClient.

Variable json_dumps : json -> string.
Variable json_loads : string -> option json.

Lemma os_listdir_eval p k w :
  resolve p = Some k →
  stat_key (fs w) k = inr (Some Dir) →
  os_listdir p w = Ret (entries (fs w) k) w.
Proof. unfold os_listdir. now intros -> ->. Qed.

Lemma stat_key_errno t k e :
  stat_key t k = inl e → e = ENOENT ∨ e = ENOTDIR.
Proof.
  induction k as [|c p IH]; simpl; [discriminate|].
  destruct (stat_key t p) as [e'|[[|d]|]]; try discriminate.
  - intros [= <-]. now apply IH.
  - intros [= <-]. now right.
  - intros [= <-]. now left.
Qed.

(** [os.makedirs] fails where a file is in the way. *)
Lemma makedirs_key_ENOTDIR k : ∀ w,
  stat_key (fs w) k = inl ENOTDIR →
  makedirs_key k w = Raise (OSError ENOTDIR) w.
Proof.
  induction k as [|c p IH]; intros w Hs; [discriminate|].
  cbn [makedirs_key]. unfold bind at 1. unfold exists_key.
  pose proof Hs as Hs'. cbn [stat_key] in Hs'.
  destruct (stat_key (fs w) p) as [e|[[|d]|]] eqn:Ep; try discriminate.
  - injection Hs' as ->. unfold bind at 1, try_except.
    rewrite (IH w Ep). reflexivity.
  - unfold bind at 1. unfold ret at 1. unfold mkdir_key. now rewrite Hs.
Qed.

(** So where it succeeds nothing stood at the path. *)
Lemma makedirs_key_Ret_free k w w' :
  makedirs_key k w = Ret tt w' →
  stat_key (fs w) k = inr None ∨ stat_key (fs w) k = inl ENOENT.
Proof.
  intros H. destruct (stat_key (fs w) k) as [e|[n|]] eqn:E; [|exfalso|now left].
  - destruct (stat_key_errno _ _ _ E) as [-> | ->]; [now right|].
    rewrite (makedirs_key_ENOTDIR _ _ E) in H. discriminate.
  - destruct k as [|c p]; cbn [makedirs_key] in H.
    + unfold mkdir_key in H. rewrite E in H. discriminate.
    + pose proof (stat_key_dir_parent _ _ _ _ E) as Hp.
      unfold bind at 1 in H. unfold exists_key in H. rewrite Hp in H.
      unfold bind at 1 in H. unfold ret at 1 in H. unfold mkdir_key in H.
      rewrite E in H. discriminate.
Qed.

(** What every run of [create_client] that returns has left in the client
    directory. *)
Lemma create_client_Ret_layout self name mount_point snapshot_id repo_type
    repo_source with_buck w w' :
  wf_tree (fs w) →
  valid_name name →
  create_client json_dumps self name mount_point snapshot_id repo_type
    repo_source with_buck w = Ret tt w' →
  let kcd := key_of (client_dir_of self name) in
  wf_tree (fs w')
  ∧ stat_key (fs w') kcd = inr (Some Dir)
  ∧ ∀ l, l ≠ [] →
         fs w' !! (l ++ kcd)%list
         = client_layout json_dumps mount_point snapshot_id repo_type
             repo_source with_buck l.
Proof.
  intros Hwf Hv H kcd.
  pose proof H as Hrun. unfold create_client in Hrun.
  fold (client_dir_of self name) in Hrun.
  apply bind_Ret in Hrun as ([] & w0 & Hver & Hrest).
  (* the run goes on from the world in which the mount point is a directory *)
  assert (wf_tree (fs w0)) as Hwf0.
  { pose proof (verify_mount_point_keeps keeps_wf mount_point mkdir_key_wf w)
      as K. rewrite Hver in K. now apply K. }
  pose proof (verify_mount_point_Ret_isdir _ _ _ Hver) as Hmp.
  assert (create_client json_dumps self name mount_point snapshot_id repo_type
            repo_source with_buck w0 = Ret tt w') as H0.
  { unfold create_client. fold (client_dir_of self name).
    rewrite (bind_eq_Ret _ _ _ _ _ (verify_mount_point_isdir _ _ Hmp)).
    exact Hrest. }
  assert (stat_path (fs w0) (client_dir_of self name) = inr None
          ∨ stat_path (fs w0) (client_dir_of self name) = inl ENOENT) as Hfree.
  { apply bind_Ret in Hrest as (d & w1 & Hd & Hrest).
    destruct d; [discriminate|]. injection Hd as _ <-.
    apply bind_Ret in Hrest as ([] & w2 & Hmk & _).
    unfold os_makedirs in Hmk. unfold stat_path.
    destruct (resolve (client_dir_of self name)) as [k|]; [|discriminate].
    eapply makedirs_key_Ret_free. exact Hmk. }
  destruct (create_client_layout json_dumps self name mount_point snapshot_id
              repo_type repo_source with_buck w0 Hwf0 Hv Hmp Hfree)
    as (w'' & Hrun & Hlay).
  rewrite H0 in Hrun. injection Hrun as <-. exact Hlay.
Qed.

(** X5: [create_client] succeeds whenever the mount point is a directory
    and nothing stands at the path of the client directory or in its way
    (in a tree without stray entries): it returns, the tree is still without
    stray entries, and [get_client_names] lists the new client. *)
Theorem create_client_succeeds self name mount_point snapshot_id repo_type
    repo_source with_buck w :
  wf_tree (fs w) →
  valid_name name →
  isdir (fs w) mount_point = true →
  stat_path (fs w) (client_dir_of self name) = inr None
  ∨ stat_path (fs w) (client_dir_of self name) = inl ENOENT →
  ∃ w' names,
    create_client json_dumps self name mount_point snapshot_id repo_type
      repo_source with_buck w = Ret tt w'
    ∧ wf_tree (fs w')
    ∧ get_client_names self w' = Ret names w'
    ∧ name ∈ names.
Proof.
  intros Hwf Hv Hmp Hfree.
  destruct (create_client_layout json_dumps self name mount_point snapshot_id
              repo_type repo_source with_buck w Hwf Hv Hmp Hfree)
    as (w' & Hrun & Hwf' & Hcd & _).
  exists w'. eexists. split; [exact Hrun|]. split; [exact Hwf'|].
  split; [apply get_client_names_eval|].
  apply client_listed; [exact Hv|].
  eapply isdir_stat; [|exact Hcd].
  unfold client_dir_of. rewrite (resolve_join _ _ Hv). f_equal.
  symmetry. now apply key_of_join.
Qed.

(** X6: after every [create_client] that returns, the [bind-mounts]
    directory of the client holds exactly one entry, named [buck-out], when
    the build-artifacts flag was set, and none otherwise (in a tree without
    stray entries), whether the mount point was there or has been made. *)
Theorem create_client_bind_mount_dirs self name mount_point snapshot_id
    repo_type repo_source with_buck w w' :
  wf_tree (fs w) →
  valid_name name →
  create_client json_dumps self name mount_point snapshot_id repo_type
    repo_source with_buck w = Ret tt w' →
  os_listdir (os_path_join (client_dir_of self name) "bind-mounts") w'
  = Ret (if with_buck then ["buck-out"] else []) w'.
Proof.
  intros Hwf Hv Hrun.
  destruct (create_client_Ret_layout self name mount_point snapshot_id
              repo_type repo_source with_buck w w' Hwf Hv Hrun)
    as (Hwf' & Hcd & Hlay).
  set (kcd := key_of (client_dir_of self name)) in *.
  assert (stat_key (fs w') ("bind-mounts" :: kcd) = inr (Some Dir)) as Hbm.
  { apply Hwf'. apply (Hlay ["bind-mounts"]). discriminate. }
  rewrite (os_listdir_eval _ ("bind-mounts" :: kcd));
    [|apply resolve_join, valid_bind_mounts|exact Hbm].
  f_equal.
  assert (∀ c, c ∈ entries (fs w') ("bind-mounts" :: kcd)
               ↔ with_buck = true ∧ c = "buck-out") as Hin.
  { intros c. rewrite elem_of_entries.
    change (c :: "bind-mounts" :: kcd) with ([c; "bind-mounts"] ++ kcd)%list.
    rewrite Hlay by discriminate. unfold client_layout.
    rewrite decide_False by discriminate.
    destruct (decide ([c; "bind-mounts"] = ["buck-out"; "bind-mounts"]))
      as [E|Hne].
    - injection E as ->. destruct with_buck; split.
      + now intros _.
      + intros _. now eexists.
      + intros [x Hx]. discriminate.
      + intros [Hc _]. discriminate.
    - rewrite !decide_False by discriminate. split.
      + intros [x Hx]. discriminate.
      + intros [_ ->]. contradiction. }
  destruct with_buck.
  - apply NoDup_elem_of_singleton; [apply NoDup_entries|].
    intros c. rewrite Hin. split; [now intros [_ ->]|now intros ->].
  - apply elem_of_nil_inv. intros c Hc. apply Hin in Hc as [Hc _]. discriminate.
Qed.

(** X7: after every [create_client] that returns, the client directory
    holds the [bind-mounts] directory, the config document, and the snapshot
    file when a snapshot id was given, and nothing else (in a tree without
    stray entries), whether the mount point was there or has been made. *)
Theorem create_client_directory self name mount_point snapshot_id repo_type
    repo_source with_buck w w' :
  wf_tree (fs w) →
  valid_name name →
  create_client json_dumps self name mount_point snapshot_id repo_type
    repo_source with_buck w = Ret tt w' →
  ∃ listing,
    os_listdir (client_dir_of self name) w' = Ret listing w'
    ∧ listing ≡ₚ ("bind-mounts" :: CONFIG_JSON
                  :: if truthy snapshot_id then [SNAPSHOT] else []).
Proof.
  intros Hwf Hv Hrun.
  destruct (create_client_Ret_layout self name mount_point snapshot_id
              repo_type repo_source with_buck w w' Hwf Hv Hrun)
    as (Hwf' & Hcd & Hlay).
  eexists.
  set (kcd := key_of (client_dir_of self name)) in *.
  assert (resolve (client_dir_of self name) = Some kcd) as Hres.
  { unfold client_dir_of, kcd. rewrite (resolve_join _ _ Hv). f_equal.
    symmetry. now apply key_of_join. }
  split; [apply (os_listdir_eval _ kcd); assumption|].
  apply NoDup_Permutation; [apply NoDup_entries| |].
  - destruct (truthy snapshot_id);
      apply (bool_decide_unpack _); vm_compute; exact I.
  - intros c. rewrite elem_of_entries.
    fold kcd. change (c :: kcd) with ([c] ++ kcd)%list.
    rewrite Hlay by discriminate. unfold client_layout.
    rewrite !elem_of_cons.
    destruct (decide ([c] = ["bind-mounts"])) as [E|N1];
      [injection E as ->; split; [now left|now eexists]|].
    rewrite decide_False by discriminate.
    destruct (decide ([c] = [CONFIG_JSON])) as [E|N2];
      [injection E as ->; split; [right; now left|now eexists]|].
    destruct (decide ([c] = [SNAPSHOT])) as [E|N3].
    + injection E as ->. destruct (truthy snapshot_id); split.
      * intros _. right. right. now left.
      * now eexists.
      * intros [x Hx]. discriminate.
      * intros [H|[H|H]]; [discriminate..|inversion H].
    + split; [intros [x Hx]; discriminate|].
      intros [->|[->|H]]; [congruence..|].
      destruct (truthy snapshot_id); [|inversion H].
      apply list_elem_of_singleton in H as ->. congruence.
Qed.

Lemma create_client_Ret_fresh self name mount_point snapshot_id repo_type
    repo_source with_buck w w' :
  create_client json_dumps self name mount_point snapshot_id repo_type
    repo_source with_buck w = Ret tt w' →
  isdir (fs w) (client_dir_of self name) = false.
Proof.
  intros H. unfold create_client in H. fold (client_dir_of self name) in H.
  apply bind_Ret in H as (u & w1 & Hv & H).
  apply bind_Ret in H as (d & w2 & Hd & H).
  destruct d; [discriminate|]. injection Hd as Hd _.
  destruct (isdir (fs w) (client_dir_of self name)) eqn:E; [|reflexivity].
  assert (keeps_dirs w w1) as K.
  { pose proof (verify_mount_point_keeps keeps_dirs mount_point mkdir_key_dirs w)
      as K. now rewrite Hv in K. }
  rewrite (keeps_dirs_isdir _ _ _ K E) in Hd. discriminate.
Qed.

(** X8: in a tree without stray entries, a client created without a
    snapshot id cannot be read back: [create_client] writes no snapshot
    file, and [get_client_info] fails on opening it, for every mount point,
    repository and flag. *)
Theorem create_client_without_snapshot_fails self name mount_point snapshot_id
    repo_type repo_source with_buck w w' :
  wf_tree (fs w) →
  valid_name name →
  truthy snapshot_id = false →
  json_loads (json_dumps (config_document mount_point repo_type repo_source
                            with_buck) +:+ Str.nl)
  = Some (config_document mount_point repo_type repo_source with_buck) →
  create_client json_dumps self name mount_point snapshot_id repo_type
    repo_source with_buck w = Ret tt w' →
  get_client_info json_loads self name w' = Raise (OSError ENOENT) w'.
Proof.
  intros Hwf Hv Ht Hj H.
  eapply create_client_without_snapshot_unreadable; try eassumption.
  destruct (fs w !! (SNAPSHOT :: key_of (client_dir_of self name)))
    as [n|] eqn:E; [|reflexivity].
  exfalso. apply wf_tree_parent in E; [|exact Hwf].
  apply create_client_Ret_fresh in H.
  assert (isdir (fs w) (client_dir_of self name) = true) as Hd.
  { eapply isdir_stat; [|exact E]. unfold client_dir_of.
    rewrite (resolve_join _ _ Hv). f_equal. symmetry. now apply key_of_join. }
  congruence.
Qed.

End NewClient.


(** * The health probe, once more *)

(** X9: [check_health] never raises, whatever the service does: it returns
    a status and leaves the filesystem and the clock alone.  When no
    connection can be made the status is [DEAD], without a pid. *)
Theorem check_health_never_raises (self : Config) (w : world) :
  ∃ h w',
    check_health self w = Ret h w'
    ∧ fs w' = fs w ∧ now w' = now w
    ∧ (service w (_config_dir self) (now w) = None →
       h = {| status := DEAD; pid := None; detail := "edenfs not running" |}).
Proof.
  eexists. eexists. split; [apply check_health_eval|].
  destruct (log_all_fields
              (probe_events (_config_dir self)
                 (service w (_config_dir self) (now w))) w)
    as (A & B & _).
  split; [exact A|]. split; [exact B|]. now intros ->.
Qed.

(** X10: the probe reports the daemon healthy exactly when the connection
    is made, [getPid] and [getStatus] both answer, and the status is
    [ALIVE]; a pid that was read is kept in the report when the status
    cannot be read, with the status [DEAD]. *)
Theorem check_health_healthy_iff (self : Config) (w : world)
    (h : HealthStatus) (w' : world) :
  check_health self w = Ret h w' →
  (is_healthy h = true
   ↔ ∃ v p, service w (_config_dir self) (now w) = Some v
            ∧ sv_getPid v = Reply p ∧ sv_getStatus v = Reply ALIVE
            ∧ pid h = Some p)
  ∧ (∀ v p, service w (_config_dir self) (now w) = Some v →
            sv_getPid v = Reply p →
            (∀ s, sv_getStatus v ≠ Reply s) →
            status h = DEAD ∧ pid h = Some p).
Proof.
  rewrite check_health_eval. intros [= <- _]. split.
  - unfold is_healthy, health_of.
    destruct (service w (_config_dir self) (now w)) as [v|].
    + destruct (sv_getPid v) as [p|m s|s] eqn:Ep;
        [destruct (sv_getStatus v) as [st|m s|s] eqn:Es|..]; simpl; split;
        try discriminate; try (intros (v' & p' & [= <-] & Hp & Hs & _); congruence).
      * intros H. apply bool_decide_eq_true in H. subst st.
        exists v, p. auto.
      * intros (v' & p' & [= <-] & Hp & Hs & _).
        apply bool_decide_eq_true. congruence.
    + split; [discriminate|]. intros (v & p & H & _). discriminate.
  - intros v p -> Hp Hs. unfold health_of. rewrite Hp.
    destruct (sv_getStatus v) as [st|m s|s]; [now destruct (Hs st)|auto..].
Qed.

(** * Mount points that are refused *)

(** X11: a mount point that exists as a regular file, its parent being a
    directory, is refused with the [EEXIST] of [os.mkdir], not with the
    message about the parent; nothing is changed, and [create_client] fails
    the same way before it looks at the registry. *)
Theorem verify_mount_point_on_a_file (json_dumps : json -> string)
    (mount_point : string) (data : string) (w : world) :
  stat_path (fs w) mount_point = inr (Some (File data)) →
  isdir (fs w) (os_path_dirname mount_point) = true →
  _verify_mount_point mount_point w = Raise (OSError EEXIST) w
  ∧ ∀ self name snapshot_id repo_type repo_source with_buck,
      create_client json_dumps self name mount_point snapshot_id repo_type
        repo_source with_buck w
      = Raise (OSError EEXIST) w.
Proof.
  intros Hs Hp.
  assert (_verify_mount_point mount_point w = Raise (OSError EEXIST) w) as Hv.
  { unfold _verify_mount_point, bind, os_path_isdir.
    assert (isdir (fs w) mount_point = false) as ->
      by (unfold isdir; now rewrite Hs).
    rewrite Hp. unfold os_mkdir. unfold stat_path in Hs.
    destruct (resolve mount_point) as [k|]; [|discriminate].
    unfold mkdir_key. now rewrite Hs. }
  split; [exact Hv|]. intros. unfold create_client.
  now apply bind_eq_Raise.
Qed.

Lemma dropwhile_all {A} (f : A -> bool) (l : list A) :
  Forall (fun x => f x = true) l → Str.dropwhile f l = [].
Proof. induction 1 as [|x l Hx _ IH]; simpl; [reflexivity|now rewrite Hx]. Qed.

Lemma dirname_bare (p : string) :
  Str.sep ∉ Str.chars p → os_path_dirname p = EmptyString.
Proof.
  intros Hno. unfold os_path_dirname. rewrite dropwhile_all; [reflexivity|].
  apply Forall_forall. intros c Hc. apply negb_true_iff.
  apply bool_decide_eq_false. intros ->. apply Hno.
  apply list_elem_of_In, in_rev, list_elem_of_In. exact Hc.
Qed.

(** X12: a mount point given as a bare name, without a slash, is refused
    unless it is a directory already: [os.path.dirname] gives the empty
    string for it, which is not a directory, so the mount point is never
    made. *)
Theorem verify_mount_point_bare_name (mount_point : string) (w : world) :
  Str.sep ∉ Str.chars mount_point →
  isdir (fs w) mount_point = false →
  os_path_dirname mount_point = EmptyString
  ∧ _verify_mount_point mount_point w
    = Raise (Exception
               (" must be a directory in order to mount a client at "
                +:+ mount_point +:+ ". "
                +:+ "If this is the correct location, run `mkdir -p "
                +:+ "` to create " +:+ "the directory.")) w.
Proof.
  intros Hno Hd. pose proof (dirname_bare _ Hno) as Hdn.
  split; [exact Hdn|].
  unfold _verify_mount_point, bind, os_path_isdir. rewrite Hd, Hdn.
  reflexivity.
Qed.

Lemma endswith_sep_false_last (s : string) :
  Str.endswith_sep s = false → s ≠ EmptyString →
  ∃ c l, rev (Str.chars s) = c :: l ∧ c ≠ Str.sep.
Proof.
  unfold Str.endswith_sep. intros H Hne.
  destruct (rev (Str.chars s)) as [|c l] eqn:E.
  - exfalso. apply Hne. rewrite <- (of_chars_chars s).
    rewrite <- (rev_involutive (Str.chars s)), E. reflexivity.
  - exists c, l. split; [reflexivity|]. now apply bool_decide_eq_false in H.
Qed.

Lemma dirname_trailing_slash (s : string) :
  Str.endswith_sep s = false → s ≠ EmptyString →
  os_path_dirname (s +:+ "/") = s.
Proof.
  intros H Hne. destruct (endswith_sep_false_last s H Hne) as (c & l & E & Hc).
  unfold os_path_dirname. rewrite chars_append.
  change (Str.chars "/") with [Str.sep]. rewrite rev_unit, E.
  cbn [Str.dropwhile forallb].
  rewrite !(bool_decide_eq_true_2 (Str.sep = Str.sep) eq_refl).
  rewrite !(bool_decide_eq_false_2 _ Hc).
  cbn [negb andb Str.dropwhile].
  rewrite !(bool_decide_eq_true_2 (Str.sep = Str.sep) eq_refl).
  rewrite !(bool_decide_eq_false_2 _ Hc).
  cbn [forallb].
  rewrite (bool_decide_eq_true_2 (Str.sep = Str.sep) eq_refl).
  rewrite (bool_decide_eq_false_2 _ Hc). cbn [andb].
  rewrite <- E, rev_involutive. apply of_chars_chars.
Qed.

Lemma isdir_trailing_slash t (s : string) :
  s ≠ EmptyString → isdir t (s +:+ "/") = isdir t s.
Proof.
  intros Hne. unfold isdir, stat_path, resolve.
  rewrite (bool_decide_eq_false_2 _ Hne).
  rewrite bool_decide_eq_false_2.
  - change (s +:+ "/") with (s +:+ "/" +:+ EmptyString).
    now rewrite components_append, components_empty, app_nil_r.
  - destruct s; [contradiction|discriminate].
Qed.

(** X13: a mount point written with a slash at its end is refused unless it
    is a directory already, even when its parent directory exists:
    [os.path.dirname] of such a path is the path without the slash, the
    same directory again. *)
Theorem verify_mount_point_trailing_slash (s : string) (w : world) :
  Str.endswith_sep s = false →
  s ≠ EmptyString →
  isdir (fs w) s = false →
  os_path_dirname (s +:+ "/") = s
  ∧ _verify_mount_point (s +:+ "/") w
    = Raise (Exception (mount_point_error (s +:+ "/"))) w.
Proof.
  intros H Hne Hd. pose proof (dirname_trailing_slash s H Hne) as Hdn.
  split; [exact Hdn|]. apply verify_mount_point_fails.
  - now rewrite isdir_trailing_slash.
  - now rewrite Hdn.
Qed.


(** * Clients that are not there, and what the requests leave behind *)

Lemma only_logs_grows w w' : only_logs w w' → grows w w'.
Proof. intros (E & _) k n. now rewrite E. Qed.

Section Requests.

Variable json_loads : string -> option json.

Lemma get_client_info_unknown self name w :
  isdir (fs w) (client_dir_of self name) = false →
  get_client_info json_loads self name w = Raise (no_such_client name) w.
Proof.
  intros H. unfold get_client_info. fold (client_dir_of self name).
  unfold bind at 1. unfold os_path_isdir. now rewrite H.
Qed.

Lemma get_client_info_Ret_isdir self name w info w' :
  get_client_info json_loads self name w = Ret info w' →
  isdir (fs w) (client_dir_of self name) = true.
Proof.
  intros H. destruct (isdir (fs w) (client_dir_of self name)) eqn:E;
    [reflexivity|].
  rewrite (get_client_info_unknown _ _ _ E) in H. discriminate.
Qed.

(** X14: for a name whose client directory does not exist, [get_client_info],
    [checkout], [mount] and [unmount] all fail with the error that names the
    client, before anything is read, made or asked of the service: the world
    is as it was. *)
Theorem unknown_client_is_refused self name w :
  isdir (fs w) (client_dir_of self name) = false →
  no_such_client name
  = Exception ("Error: no such client " +:+ Str.quote +:+ name +:+ Str.quote)
  ∧ get_client_info json_loads self name w = Raise (no_such_client name) w
  ∧ (∀ snapshot_id,
       checkout json_loads self name snapshot_id w
       = Raise (no_such_client name) w)
  ∧ mount json_loads self name w = Raise (no_such_client name) w
  ∧ unmount json_loads self name w = Raise (no_such_client name) w.
Proof.
  intros H. pose proof (get_client_info_unknown self name w H) as E.
  split; [reflexivity|]. split; [exact E|]. split; [|split].
  - intros snapshot_id. unfold checkout. now apply bind_eq_Raise.
  - unfold mount. now apply bind_eq_Raise.
  - unfold unmount. now apply bind_eq_Raise.
Qed.

(** X15: [mount] removes nothing and rewrites nothing: every file and
    directory that could be seen before the call is seen after it, a file
    with the content it had, whether the call returns or raises. *)
Theorem mount_keeps_entries self name w k n :
  stat_key (fs w) k = inr (Some n) →
  stat_key (fs (world_of (mount json_loads self name w))) k = inr (Some n).
Proof.
  revert w k n. change (keeps grows (mount json_loads self name)).
  unfold mount.
  apply keeps_bind; [typeclasses eauto| |].
  { eapply keeps_weaken; [|apply get_client_info_reads].
    intros w1 w2 <-. reflexivity. }
  intros info. apply keeps_bind;
    [typeclasses eauto|apply as_str_keeps; typeclasses eauto|].
  intros mount_point. apply keeps_bind; [typeclasses eauto| |].
  { apply verify_mount_point_keeps; [typeclasses eauto|apply mkdir_key_grows]. }
  intros _. apply keeps_bind; [typeclasses eauto| |].
  { apply get_or_create_dir_keeps; [typeclasses eauto|apply mkdir_key_grows]. }
  intros _. apply keeps_bind; [typeclasses eauto| |].
  { eapply keeps_weaken; [apply only_logs_grows|apply create_thrift_client_logs]. }
  intros client. apply keeps_try_except; [typeclasses eauto| |].
  - eapply keeps_weaken; [apply only_logs_grows|apply call_logs].
  - intros e k. apply rebox_keeps. typeclasses eauto.
Qed.

(** X16: [unmount] leaves the filesystem and the clock as they are, whatever
    the service answers: the client stays in the registry and the mount
    point stays a directory. *)
Theorem unmount_keeps_registry self name w :
  fs (world_of (unmount json_loads self name w)) = fs w
  ∧ now (world_of (unmount json_loads self name w)) = now w.
Proof.
  assert (keeps only_logs (unmount json_loads self name)) as K.
  { unfold unmount.
    apply keeps_bind; [typeclasses eauto| |].
    { eapply keeps_weaken; [|apply get_client_info_reads].
      intros w1 w2 <-. reflexivity. }
    intros info. apply keeps_bind;
      [typeclasses eauto|apply create_thrift_client_logs|].
    intros client. apply keeps_bind;
      [typeclasses eauto|apply as_str_keeps; typeclasses eauto|].
    intros mp. apply call_logs. }
  destruct (K w) as (A & B & _). now split.
Qed.

Lemma create_thrift_client_down config_dir w :
  service w config_dir (now w) = None →
  create_thrift_client config_dir w
  = Raise EdenNotRunningError (log (EvConnect config_dir) w).
Proof. unfold create_thrift_client. now intros ->. Qed.

Lemma call_eval {A} client r (answer : service_view -> reply A) w v :
  service w client (now w) = Some v →
  call client r answer w
  = match answer v with
    | Reply a => Ret a (log (EvRpc r) w)
    | AppError message str => Raise (EdenError message str) (log (EvRpc r) w)
    | TransportError str => Raise (TException str) (log (EvRpc r) w)
    end.
Proof. unfold call. now intros ->. Qed.

(** X17: the outcomes of [checkout] for a client that is read.  Without a
    daemon it fails with [EdenNotRunningError] and no request is made.  With
    one, exactly one [checkOutRevision] request is made for the recorded
    mount point: its reply makes the call return, an error of the service
    comes back as a plain exception with the message alone, and a failure of
    the transport passes as it is. *)
Theorem checkout_outcomes self name snapshot_id w info mount_point :
  get_client_info json_loads self name w = Ret info w →
  info_mount info = JStr mount_point →
  (service w (_config_dir self) (now w) = None →
   checkout json_loads self name snapshot_id w
   = Raise EdenNotRunningError (log (EvConnect (_config_dir self)) w))
  ∧ (∀ v, service w (_config_dir self) (now w) = Some v →
       checkout json_loads self name snapshot_id w
       = let w' := log (EvRpc (CheckOutRevision mount_point snapshot_id))
                     (log (EvConnect (_config_dir self)) w) in
         match sv_checkOutRevision v mount_point snapshot_id with
         | Reply _ => Ret tt w'
         | AppError message _ => Raise (Exception message) w'
         | TransportError str => Raise (TException str) w'
         end).
Proof.
  intros Hi Hm. unfold checkout. rewrite (bind_eq_Ret _ _ _ _ _ Hi).
  unfold get_thrift_client. split.
  - intros Hs. apply bind_eq_Raise. now apply create_thrift_client_down.
  - intros v Hv.
    rewrite (bind_eq_Ret _ _ _ _ _ (create_thrift_client_eval _ _ _ Hv)).
    rewrite Hm. unfold try_except, as_str. unfold bind at 1. unfold ret at 1.
    rewrite (call_eval _ _ _ _ v) by exact Hv.
    destruct (sv_checkOutRevision v mount_point snapshot_id) as [[]| |];
      reflexivity.
Qed.

(** X18: [mount] makes the local write directory of the client before it
    connects.  For a client that is read, whose mount point is a directory
    and whose [local] directory is missing, the directory is made first; then
    without a daemon the call fails with [EdenNotRunningError], the new
    directory left behind, and with one a single [mount] request is made,
    whose reply, error or transport failure decides the outcome as for
    [checkout]. *)
Theorem mount_makes_write_dir self name w info mount_point :
  get_client_info json_loads self name w = Ret info w →
  info_mount info = JStr mount_point →
  isdir (fs w) mount_point = true →
  stat_path (fs w) (os_path_join (client_dir_of self name) "local") = inr None →
  ∃ k w1,
    resolve (os_path_join (client_dir_of self name) "local") = Some k
    ∧ w1 = log (EvConnect (_config_dir self)) (made_dir k w)
    ∧ isdir (fs w1) (os_path_join (client_dir_of self name) "local") = true
    ∧ (service w (_config_dir self) (now w) = None →
       mount json_loads self name w = Raise EdenNotRunningError w1)
    ∧ (∀ v, service w (_config_dir self) (now w) = Some v →
         mount json_loads self name w
         = let mount_info := {| mountPoint := mount_point;
                                edenClientPath := info_client_dir info |} in
           let w2 := log (EvRpc (Mount mount_info)) w1 in
           match sv_mount v mount_info with
           | Reply _ => Ret tt w2
           | AppError message _ => Raise (Exception message) w2
           | TransportError str => Raise (TException str) w2
           end).
Proof.
  intros Hi Hm Hd Hl.
  pose proof (get_client_info_Ret_isdir _ _ _ _ _ Hi) as Hcd.
  unfold stat_path in Hl.
  destruct (resolve (os_path_join (client_dir_of self name) "local"))
    as [k|] eqn:Hk; [|discriminate].
  exists k, (log (EvConnect (_config_dir self)) (made_dir k w)).
  split; [reflexivity|]. split; [reflexivity|].
  assert (_get_or_create_write_dir self name w
          = Ret (os_path_join (client_dir_of self name) "local") (made_dir k w))
    as Hw.
  { unfold _get_or_create_write_dir. fold (client_dir_of self name).
    unfold _get_or_create_dir, os_makedirs. rewrite Hk.
    assert (makedirs_key k w = Ret tt (made_dir k w)) as Hmk.
    { destruct k as [|c p]; [simpl in Hl; discriminate|].
      cbn [makedirs_key]. unfold bind at 1. unfold exists_key.
      pose proof Hl as Hl'. cbn [stat_key] in Hl'.
      destruct (stat_key (fs w) p) as [e|[[|d]|]] eqn:Ep; try discriminate.
      unfold bind at 1. unfold ret at 1. now apply mkdir_key_fresh. }
    unfold bind, try_except. rewrite Hmk. reflexivity. }
  split.
  { eapply isdir_stat; [exact Hk|]. now apply made_dir_stat. }
  rewrite (mount_eq json_loads _ _ _ _ _ Hi Hm).
  rewrite (bind_eq_Ret _ _ _ _ _ (verify_mount_point_isdir _ _ Hd)).
  unfold mount_validated. rewrite (bind_eq_Ret _ _ _ _ _ Hw).
  unfold get_thrift_client. split.
  - intros Hs. apply bind_eq_Raise. now apply create_thrift_client_down.
  - intros v Hv.
    rewrite (bind_eq_Ret _ _ _ _ _
               (create_thrift_client_eval _ (made_dir k w) v Hv)).
    unfold try_except. rewrite (call_eval _ _ _ _ v) by exact Hv.
    cbv zeta.
    destruct (sv_mount v _) as [[]| |]; reflexivity.
Qed.

End Requests.


(** * The get-or-create helper, once more *)

Lemma mkdir_key_EEXIST k w w' :
  mkdir_key k w = Raise (OSError EEXIST) w' →
  w' = w ∧ ∃ n, stat_key (fs w) k = inr (Some n).
Proof.
  unfold mkdir_key. destruct (stat_key (fs w) k) as [e|[n|]] eqn:E;
    try discriminate.
  - intros [= -> <-]. destruct (stat_key_errno _ _ _ E); discriminate.
  - intros [= <-]. split; [reflexivity|now exists n].
Qed.

Lemma makedirs_key_EEXIST k w w' :
  makedirs_key k w = Raise (OSError EEXIST) w' →
  ∃ n, stat_key (fs w') k = inr (Some n).
Proof.
  destruct k as [|c p].
  - intros H. apply mkdir_key_EEXIST in H as [-> H]. exact H.
  - cbn [makedirs_key]. unfold bind at 1.
    destruct (exists_key (fs w) p).
    + unfold bind at 1. unfold ret at 1.
      intros H. apply mkdir_key_EEXIST in H as [-> H]. exact H.
    + unfold bind at 1. unfold try_except.
      destruct (makedirs_key p w) as [[] w1|e w1|w1|w1]; try discriminate.
      * intros H. apply mkdir_key_EEXIST in H as [-> H]. exact H.
      * destruct (is_EEXIST e) eqn:Ee.
        -- unfold ret at 1.
           intros H. apply mkdir_key_EEXIST in H as [-> H]. exact H.
        -- intros [= -> _]. discriminate.
Qed.

Lemma get_or_create_dir_Ret path w p w' :
  _get_or_create_dir path w = Ret p w' →
  p = path
  ∧ ∃ k n, resolve path = Some k ∧ stat_key (fs w') k = inr (Some n)
           ∧ (os_makedirs path w = Raise (OSError EEXIST) w' ∨ n = Dir).
Proof.
  unfold _get_or_create_dir, bind, try_except.
  destruct (os_makedirs path w) as [[] w1|e w1|w1|w1] eqn:E; try discriminate.
  - intros [= <- <-]. split; [reflexivity|].
    apply os_makedirs_Ret in E as (k & Hk & Hs & _).
    exists k, Dir. auto.
  - destruct e as [| |err| | | | | |]; try discriminate.
    destruct (decide (err ≠ EEXIST)) as [|Hn]; [discriminate|].
    apply dec_stable in Hn. subst err.
    unfold ret. intros [= <- <-]. split; [reflexivity|].
    pose proof E as E'. unfold os_makedirs in E'.
    destruct (resolve path) as [k|]; [|discriminate].
    destruct (makedirs_key_EEXIST _ _ _ E') as [n Hn].
    exists k, n. auto.
Qed.

(** X19: [_get_or_create_dir] returns the path it was given; and once it
    has returned, calling it again for the same path returns the path again
    and changes nothing. *)
Theorem get_or_create_dir_idempotent path w p w' :
  _get_or_create_dir path w = Ret p w' →
  p = path ∧ _get_or_create_dir path w' = Ret path w'.
Proof.
  intros H. apply get_or_create_dir_Ret in H as (-> & k & n & Hk & Hs & _).
  split; [reflexivity|]. eapply get_or_create_dir_existing; eassumption.
Qed.

Global Instance no_new_files_preorder : PreOrder no_new_files.
Proof.
  split; [now intros w k d|]. intros w1 w2 w3 H1 H2 k d H. auto.
Qed.

Lemma mkdir_key_no_new_files k : keeps no_new_files (mkdir_key k).
Proof.
  intros w. unfold mkdir_key.
  destruct (stat_key (fs w) k) as [e|[n|]] eqn:E; simpl; try reflexivity.
  intros k0 d. simpl. destruct (decide (k0 = k)) as [->|Hne].
  - rewrite lookup_insert_eq. discriminate.
  - now rewrite lookup_insert_ne by congruence.
Qed.

(** X20: on a tree without entries below files, when [_get_or_create_dir]
    returns and no regular file stood at the path, the path is a directory
    afterwards; everything that was seen before is still seen, and no file
    has appeared. *)
Theorem get_or_create_dir_makes_directory path w p w' :
  wf_tree (fs w) →
  (∀ data, stat_path (fs w) path ≠ inr (Some (File data))) →
  _get_or_create_dir path w = Ret p w' →
  isdir (fs w') path = true
  ∧ (∀ k n, stat_key (fs w) k = inr (Some n) →
            stat_key (fs w') k = inr (Some n))
  ∧ (∀ k d, fs w' !! k = Some (File d) → fs w !! k = Some (File d)).
Proof.
  intros Hwf Hnf H.
  assert (grows w w') as Hg.
  { pose proof (get_or_create_dir_keeps grows path mkdir_key_grows w) as G.
    now rewrite H in G. }
  assert (no_new_files w w') as Hf.
  { pose proof (get_or_create_dir_keeps no_new_files path
                  mkdir_key_no_new_files w) as G.
    now rewrite H in G. }
  split; [|split; [exact Hg|exact Hf]].
  apply get_or_create_dir_Ret in H as (-> & k & n & Hk & Hs & _).
  eapply isdir_stat; [exact Hk|].
  destruct n as [|d]; [exact Hs|]. exfalso.
  apply (Hnf d). unfold stat_path. rewrite Hk.
  apply Hwf. apply Hf.
  destruct k as [|c k]; [simpl in Hs; discriminate|].
  pose proof (stat_key_dir_parent _ _ _ _ Hs) as Hp.
  rewrite (stat_key_cons _ _ _ Hp) in Hs. now injection Hs.
Qed.

(** * The environment of the daemon, once more *)

(** X21: the environment built for the daemon is a function of the
    allow-listed and [TESTPILOT_] variables alone: two ambient environments
    that agree on those give the same environment, whatever else they hold
    and whichever registry the configuration is for. *)
Theorem build_eden_environment_ignores_the_rest (self1 self2 : Config)
    (w1 w2 : world) :
  (∀ name, name ∈ preserve ∨ Str.startswith "TESTPILOT_" name = true →
           environ w1 !! name = environ w2 !! name) →
  returned (_build_eden_environment self1 w1)
  = returned (_build_eden_environment self2 w2).
Proof.
  intros H. unfold _build_eden_environment, bind, os_environ, ret. simpl.
  f_equal. apply map_eq. intros name.
  rewrite !eden_environment_lookup.
  destruct (allowed name) eqn:E; [|reflexivity].
  apply H. unfold allowed in E. apply orb_true_iff in E as [E|E].
  - now right.
  - left. now apply bool_decide_eq_true in E.
Qed.

(** * Registry entries that cannot be read *)

Section Malformed.

Variable json_loads : string -> option json.

(** X22: a client whose config file is not a JSON document is refused with
    [ValueError], before the snapshot file is looked at; one whose document
    lacks the [bind-mounts] entry, or then the [mount] entry, is refused
    with the [KeyError] of that entry once both files have been read.
    Nothing is changed. *)
Theorem get_client_info_malformed self name w text :
  isdir (fs w) (client_dir_of self name) = true →
  stat_path (fs w) (os_path_join (client_dir_of self name) CONFIG_JSON)
  = inr (Some (File text)) →
  (json_loads text = None →
   get_client_info json_loads self name w = Raise ValueError w)
  ∧ (∀ m raw,
       json_loads text = Some (JObj m) →
       stat_path (fs w) (os_path_join (client_dir_of self name) SNAPSHOT)
       = inr (Some (File raw)) →
       (m !! "bind-mounts" = None →
        get_client_info json_loads self name w
        = Raise (KeyError "bind-mounts") w)
       ∧ (m !! "bind-mounts" ≠ None → m !! "mount" = None →
          get_client_info json_loads self name w = Raise (KeyError "mount") w)).
Proof.
  intros Hd Hc.
  split; [intros E|intros m raw E Hs; split; [intros E'|intros Hbm E']];
    unfold get_client_info; fold (client_dir_of self name);
    unfold bind at 1; unfold os_path_isdir; rewrite Hd; cbn [negb];
    rewrite (bind_eq_Ret _ _ _ _ _ (open_file_eq _ _ _ Hc));
    unfold json_load; rewrite E; [reflexivity|..];
    unfold bind at 1; unfold ret at 1;
    rewrite (bind_eq_Ret _ _ _ _ _ (read_file_eq _ _ _ Hs));
    unfold getitem; rewrite E'; [reflexivity|].
  destruct (m !! "bind-mounts"); [reflexivity|contradiction].
Qed.

End Malformed.


(** * Starting the daemon in the foreground *)

Lemma log_all_host l w :
  euid (log_all l w) = euid w ∧ file_stat (log_all l w) = file_stat w
  ∧ executable (log_all l w) = executable w
  ∧ environ (log_all l w) = environ w.
Proof.
  revert w. induction l as [|e l IH]; intros w; simpl; [auto|].
  destruct (IH (log e w)) as (A & B & C & D). auto.
Qed.

Section Foreground.

Variable poll_interval : nat.

(** X23: with [foreground], or under [gdb], which implies it, and a daemon
    that is not reported healthy, [spawn] replaces the process by the
    command it has built and does nothing else: after the probe it asks for
    the effective user, examines the binary unless it runs as root, reads
    the environment, and calls [execve] with the command and the sanitized
    environment.  No log file is opened, nothing is launched in the
    background, and the filesystem is as before. *)
Theorem spawn_foreground_execs (fuel : nat) (self : Config)
    (daemon_binary : string) (extra_args : option (list string))
    (gdb foreground sudo : bool) (w : world) (h : HealthStatus) (w1 : world) :
  check_health self w = Ret h w1 →
  is_healthy h = false →
  gdb = true ∨ foreground = true →
  needs_sudo w daemon_binary = Some sudo →
  executable w
    (hd EmptyString (eden_command self daemon_binary extra_args gdb sudo))
  = true →
  ∃ eden_env w',
    spawn poll_interval fuel self daemon_binary extra_args gdb foreground w
    = Replaced w'
    ∧ returned (_build_eden_environment self w) = Some eden_env
    ∧ events w'
      = (events w1
         ++ [EvGetEuid]
         ++ (if bool_decide (euid w = 0) then [] else [EvStat daemon_binary])
         ++ [EvEnviron;
             EvExecve (eden_command self daemon_binary extra_args gdb sudo)
               eden_env])%list
    ∧ fs w' = fs w.
Proof.
  intros Hc Hh Hfg Hsudo Hx.
  rewrite check_health_eval in Hc. injection Hc as <- <-.
  set (view := service w (_config_dir self) (now w)) in *.
  destruct (log_all_fields (probe_events (_config_dir self) view) w)
    as (Hfs & _ & _ & _ & _).
  destruct (log_all_host (probe_events (_config_dir self) view) w)
    as (Heuid & Hstat & Hexec & Henv).
  exists (map_fold
            (fun name value (eden_env : gmap string string) =>
               if Str.startswith "TESTPILOT_" name
               then <[name := value]> eden_env
               else if bool_decide (name ∈ preserve)
                    then <[name := value]> eden_env
                    else eden_env)
            {[ "PATH" := Str.join ":" path_dirs ]} (environ w)).
  unfold spawn. rewrite (bind_eq_Ret _ _ _ _ _ (check_health_eval self w)).
  fold view. rewrite Hh.
  set (w1 := log_all (probe_events (_config_dir self) view) w) in *.
  clearbody w1.
  unfold needs_sudo in Hsudo. unfold eden_command in *.
  assert (gdb || foreground = true) as Hfg'
    by (destruct Hfg as [-> | ->]; [reflexivity|apply orb_true_r]).
  clear Hfg.
  destruct gdb, foreground; try discriminate Hfg';
    destruct extra_args as [[|x extra]|];
    cbv zeta; cbn [app default id];
    unfold _build_eden_environment, os_environ, bind, os_geteuid, os_stat,
      os_execve, ret; cbn [euid file_stat log executable environ];
    rewrite Heuid, ?Hstat, ?Hexec, ?Henv;
    (destruct (decide (euid w = 0)) as [H0|H0];
     [rewrite (bool_decide_eq_true_2 _ H0) in Hsudo |- *;
      rewrite (bool_decide_eq_false_2 (euid w ≠ 0)) by tauto
     |rewrite (bool_decide_eq_false_2 _ H0) in Hsudo |- *;
      rewrite (bool_decide_eq_true_2 (euid w ≠ 0)) by tauto;
      cbn [euid file_stat log executable environ];
      rewrite ?Hstat;
      destruct (file_stat w daemon_binary) as [s|]; [|discriminate]]);
    injection Hsudo as <-;
    cbn [app default id hd euid file_stat log executable environ] in Hx |- *;
    try destruct (negb _);
    cbn [app default id hd euid file_stat log executable environ] in Hx |- *;
    rewrite ?Hexec, ?Henv; cbn [app hd] in Hx |- *; rewrite Hx;
    (eexists; split; [reflexivity|]; split; [reflexivity|]);
    cbn [events fs log]; rewrite Hfs, <- ?app_assoc;
    (split; reflexivity).
Qed.

End Foreground.


(** * The check made while waiting for the daemon *)

(** X24: the check of [_wait_for_daemon_healthy] looks at the health first.
    When the probe finds the daemon alive, the check returns that status in
    the world of the probe, without asking whether the launched process
    still runs, so also when it has exited; and a status that the check
    returns is the one of the probe, and a healthy one. *)
Theorem check_health_or_exit_prefers_health (self : Config) (proc : process)
    (w : world) (h : HealthStatus) (w1 : world) :
  check_health self w = Ret h w1 →
  (is_healthy h = true → check_health_or_exit self proc w = Ret (Some h) w1)
  ∧ (∀ h' w',
       check_health_or_exit self proc w = Ret (Some h') w' →
       h' = h ∧ w' = w1 ∧ is_healthy h' = true).
Proof.
  intros Hc. unfold check_health_or_exit.
  rewrite (bind_eq_Ret _ _ _ _ _ Hc). split.
  - now intros ->.
  - intros h' w'. destruct (is_healthy h) eqn:Hh.
    + unfold ret. intros [= <- <-]. auto.
    + unfold bind, proc_poll.
      destruct (child_status w1 proc (now w1)); discriminate.
Qed.

(** * The operations on a sample machine *)

Lemma valid_repo : valid_name "repo".
Proof. valid_name_tac. Qed.

Lemma create_client_get_client_info_witness :
  get_client_info Json.loads sample_config "repo" (with_client (Some "abc123") None)
  = Ret {| info_bind_mounts :=
             JObj (if true then <["buck-out" := JStr "buck-out"]> ∅ else ∅);
           info_mount := JStr "/mnt/repo";
           info_snapshot := Str.strip (Str.universal_newlines "abc123");
           info_client_dir := client_dir_of sample_config "repo" |}
        (with_client (Some "abc123") None).
Proof.
  apply (create_client_get_client_info Json.dumps Json.loads sample_config
           "repo" "/mnt/repo" "abc123" "git" "/src/repo" true
           (sample_world sample_tree None)).
  - exact valid_repo.
  - discriminate.
  - vm_compute. reflexivity.
  - unfold with_client. apply returned_Ret. vm_compute. reflexivity.
Defined.

(** C1 fails as stated, in two ways.  Created without a snapshot id, the
    client cannot be read back: no SNAPSHOT file was written, and opening
    it fails.  Created with a snapshot id that starts with a space, the
    client is read back with the space gone. *)
Lemma create_client_get_client_info_counterexample :
  (returned (create_client Json.dumps sample_config "repo" "/mnt/repo" None
               "git" "/src/repo" true (sample_world sample_tree None))
   = Some tt
   ∧ get_client_info Json.loads sample_config "repo" (with_client None None)
     = Raise (OSError ENOENT) (with_client None None))
  ∧ (returned (create_client Json.dumps sample_config "repo" "/mnt/repo"
                 (Some " abc123") "git" "/src/repo" true
                 (sample_world sample_tree None))
     = Some tt
     ∧ get_client_info Json.loads sample_config "repo"
         (with_client (Some " abc123") None)
       = Ret sample_info (with_client (Some " abc123") None)
     ∧ info_snapshot sample_info ≠ " abc123").
Proof.
  split; [split|split; [|split]].
  - vm_compute. reflexivity.
  - apply get_client_info_raised. vm_compute. reflexivity.
  - vm_compute. reflexivity.
  - apply get_client_info_returned. vm_compute. reflexivity.
  - discriminate.
Qed.

Lemma get_client_info_without_snapshot_witness :
  get_client_info Json.loads sample_config "repo" (with_client None None)
  = Raise (OSError ENOENT) (with_client None None)
  ∧ OSError ENOENT
    ≠ Exception ("Error: no such client " +:+ Str.quote +:+ "repo" +:+ Str.quote).
Proof.
  apply (get_client_info_without_snapshot Json.loads sample_config "repo"
           (with_client None None)
           (Json.dumps (config_document "/mnt/repo" "git" "/src/repo" true)
            +:+ Str.nl)
           (config_document "/mnt/repo" "git" "/src/repo" true));
    vm_compute; reflexivity.
Defined.

Lemma wait_for_daemon_exited_witness :
  ∃ w', _wait_for_daemon_healthy 200 30 sample_config sample_process
          sample_world_exiting
        = Raise (EdenStartError
                   ("edenfs exited before becoming healthy: " +:+
                    (if 1 <? 0 then "terminated with signal " +:+ Str.of_Z (- 1)
                     else "exit status " +:+ Str.of_Z 1))) w'
        ∧ now w' = (now sample_world_exiting + 25 * 200)%nat
        ∧ (now w' < now sample_world_exiting + 5000 + 200)%nat
        ∧ ((25 * 200 < 5000)%nat ↔ (now w' < now sample_world_exiting + 5000)%nat).
Proof.
  apply (wait_for_daemon_exited 200 30 sample_config sample_process
           sample_world_exiting 25 1).
  - intros j _. reflexivity.
  - intros j Hj. cbn [child_status sample_world_exiting now].
    destruct (Nat.ltb_spec (0 + j * 200) 4900); [reflexivity|lia].
  - reflexivity.
  - intros j Hj. lia.
  - lia.
Defined.

(** C4 fails as stated.  With attempts every 200 ms and a process that is
    gone from 4.9 seconds on, the attempt that finds it gone is the one made
    at the five seconds: the error of the exit is raised, but not strictly
    before the timeout has elapsed. *)
Lemma wait_for_daemon_exited_counterexample :
  child_status sample_world_exiting sample_process 4900 = Some 1
  ∧ raised (_wait_for_daemon_healthy 200 30 sample_config sample_process
              sample_world_exiting)
    = Some (EdenStartError "edenfs exited before becoming healthy: exit status 1")
  ∧ ¬ (now (world_of (_wait_for_daemon_healthy 200 30 sample_config
                        sample_process sample_world_exiting))
       < now sample_world_exiting + 5000)%nat.
Proof.
  split; [reflexivity|]. split; [vm_compute; reflexivity|].
  assert (now (world_of (_wait_for_daemon_healthy 200 30 sample_config
                           sample_process sample_world_exiting)) = 5000%nat)
    as -> by (vm_compute; reflexivity).
  cbn [now sample_world_exiting]. lia.
Qed.

Lemma spawn_already_running_witness :
  ∃ p, pid sample_health = Some p
       ∧ spawn 200 30 sample_config "/usr/local/bin/edenfs" None false false
           (sample_world sample_tree (Some sample_view))
         = Raise (EdenStartError ("edenfs is already running (pid "
                                  +:+ Str.of_Z p +:+ ")"))
             (world_of (check_health sample_config
                          (sample_world sample_tree (Some sample_view))))
       ∧ fs (world_of (check_health sample_config
                         (sample_world sample_tree (Some sample_view))))
         = fs (sample_world sample_tree (Some sample_view))
       ∧ events (world_of (check_health sample_config
                             (sample_world sample_tree (Some sample_view))))
         = (events (sample_world sample_tree (Some sample_view))
            ++ [EvConnect (_config_dir sample_config); EvRpc GetPid;
                EvRpc GetStatus])%list.
Proof.
  apply (spawn_already_running 200 30 sample_config "/usr/local/bin/edenfs"
           None false false (sample_world sample_tree (Some sample_view))
           sample_health).
  - apply returned_Ret. vm_compute. reflexivity.
  - vm_compute. reflexivity.
Defined.

Lemma mount_validates_mount_point_witness :
  mount Json.loads sample_config "repo"
    (with_client (Some "abc123") (Some sample_view))
  = mount_validated sample_config "repo" sample_info "/mnt/repo"
      (with_client (Some "abc123") (Some sample_view))
  ∧ (∃ k, resolve "/mnt/repo" = Some k
          ∧ isdir (fs (made_dir k (with_recorded_mount "/mnt/repo"
                                     (Some sample_view)))) "/mnt/repo"
            = true
          ∧ mount Json.loads sample_config "repo"
              (with_recorded_mount "/mnt/repo" (Some sample_view))
            = mount_validated sample_config "repo" (sample_info_at "/mnt/repo")
                "/mnt/repo"
                (made_dir k (with_recorded_mount "/mnt/repo" (Some sample_view)))
          ∧ ∃ tail,
              events (world_of (mount Json.loads sample_config "repo"
                                  (with_recorded_mount "/mnt/repo"
                                     (Some sample_view))))
              = (events (with_recorded_mount "/mnt/repo" (Some sample_view))
                 ++ EvMkdir k :: tail)%list)
  ∧ mount Json.loads sample_config "repo"
      (with_recorded_mount "/srv/repo" (Some sample_view))
    = Raise (Exception (mount_point_error "/srv/repo"))
        (with_recorded_mount "/srv/repo" (Some sample_view)).
Proof.
  split; [|split].
  - apply (mount_validates_mount_point Json.loads sample_config "repo"
             (with_client (Some "abc123") (Some sample_view)) sample_info
             "/mnt/repo").
    + apply get_client_info_returned. vm_compute. reflexivity.
    + reflexivity.
    + vm_compute. reflexivity.
  - apply (mount_validates_mount_point Json.loads sample_config "repo"
             (with_recorded_mount "/mnt/repo" (Some sample_view))
             (sample_info_at "/mnt/repo") "/mnt/repo").
    + apply get_client_info_returned. vm_compute. reflexivity.
    + reflexivity.
    + vm_compute. reflexivity.
    + vm_compute. reflexivity.
  - apply (mount_validates_mount_point Json.loads sample_config "repo"
             (with_recorded_mount "/srv/repo" (Some sample_view))
             (sample_info_at "/srv/repo") "/srv/repo").
    + apply get_client_info_returned. vm_compute. reflexivity.
    + reflexivity.
    + vm_compute. reflexivity.
    + vm_compute. reflexivity.
Defined.

(** C6 fails as stated.  The client records the mount point [/mnt/repo/],
    written with a slash at its end; it does not exist, and its parent
    directory [/mnt] does.  [mount] does not make it: it fails with the
    error of the mount point, and the world is as it was. *)
Lemma mount_validates_mount_point_counterexample :
  get_client_info Json.loads sample_config "repo"
    (with_recorded_mount "/mnt/repo/" (Some sample_view))
  = Ret (sample_info_at "/mnt/repo/")
      (with_recorded_mount "/mnt/repo/" (Some sample_view))
  ∧ stat_path (fs (with_recorded_mount "/mnt/repo/" (Some sample_view)))
      "/mnt/repo/" = inr None
  ∧ isdir (fs (with_recorded_mount "/mnt/repo/" (Some sample_view))) "/mnt"
    = true
  ∧ mount Json.loads sample_config "repo"
      (with_recorded_mount "/mnt/repo/" (Some sample_view))
    = Raise (Exception (mount_point_error "/mnt/repo/"))
        (with_recorded_mount "/mnt/repo/" (Some sample_view))
  ∧ isdir (fs (with_recorded_mount "/mnt/repo/" (Some sample_view)))
      "/mnt/repo/" = false.
Proof.
  assert (get_client_info Json.loads sample_config "repo"
            (with_recorded_mount "/mnt/repo/" (Some sample_view))
          = Ret (sample_info_at "/mnt/repo/")
              (with_recorded_mount "/mnt/repo/" (Some sample_view))) as Hi
    by (apply get_client_info_returned; vm_compute; reflexivity).
  split; [exact Hi|].
  split; [vm_compute; reflexivity|]. split; [vm_compute; reflexivity|].
  split; [|vm_compute; reflexivity].
  rewrite (mount_eq Json.loads _ _ _ _ "/mnt/repo/" Hi eq_refl).
  apply bind_eq_Raise. apply verify_mount_point_fails; vm_compute; reflexivity.
Qed.

Lemma create_client_validates_first_witness :
  create_client Json.dumps sample_config "repo" "/srv/repo" None "git"
    "/src/repo" false (with_client (Some "abc123") None)
  = Raise (Exception (mount_point_error "/srv/repo"))
      (with_client (Some "abc123") None)
  ∧ ∃ k, resolve "/mnt/other" = Some k
         ∧ create_client Json.dumps sample_config "repo" "/mnt/other" None "git"
             "/src/repo" false (with_client (Some "abc123") None)
           = Raise (Exception ("Error: client " +:+ "repo" +:+ " already exists."))
                   (made_dir k (with_client (Some "abc123") None))
         ∧ isdir (fs (made_dir k (with_client (Some "abc123") None))) "/mnt/other"
           = true
         ∧ fs (made_dir k (with_client (Some "abc123") None))
           = <[k := Dir]> (fs (with_client (Some "abc123") None))
         ∧ (∀ k', k' ≠ k →
                  fs (made_dir k (with_client (Some "abc123") None)) !! k'
                  = fs (with_client (Some "abc123") None) !! k')
         ∧ (¬ key_of (_config_dir sample_config) `suffix_of` k →
            ∀ k', key_of (_config_dir sample_config) `suffix_of` k' →
                  fs (made_dir k (with_client (Some "abc123") None)) !! k'
                  = fs (with_client (Some "abc123") None) !! k').
Proof.
  split.
  - apply (create_client_validates_first Json.dumps sample_config "repo"
             "/srv/repo" None "git" "/src/repo" false
             (with_client (Some "abc123") None));
      vm_compute; reflexivity.
  - apply (create_client_validates_first Json.dumps sample_config "repo"
             "/mnt/other" None "git" "/src/repo" false
             (with_client (Some "abc123") None));
      vm_compute; reflexivity.
Defined.

(** C10 fails as stated.  For the client [repo] that exists, a mount point
    inside its own directory does not exist while its parent does: the call
    makes it and fails with the already-exists error, and the registry has
    gained a directory. *)
Lemma create_client_validates_first_counterexample :
  isdir (fs (with_client (Some "abc123") None))
    (client_dir_of sample_config "repo") = true
  ∧ stat_path (fs (with_client (Some "abc123") None))
      "/home/alice/.eden/clients/repo/mp" = inr None
  ∧ isdir (fs (with_client (Some "abc123") None))
      "/home/alice/.eden/clients/repo" = true
  ∧ raised (create_client Json.dumps sample_config "repo"
              "/home/alice/.eden/clients/repo/mp" None "git" "/src/repo" false
              (with_client (Some "abc123") None))
    = Some (Exception "Error: client repo already exists.")
  ∧ fs (with_client (Some "abc123") None)
      !! ["mp"; "repo"; "clients"; ".eden"; "alice"; "home"] = None
  ∧ fs (world_of (create_client Json.dumps sample_config "repo"
                    "/home/alice/.eden/clients/repo/mp" None "git" "/src/repo"
                    false (with_client (Some "abc123") None)))
      !! ["mp"; "repo"; "clients"; ".eden"; "alice"; "home"] = Some Dir.
Proof. repeat split; vm_compute; reflexivity. Qed.

Lemma unmount_passes_service_error_witness :
  unmount Json.loads sample_config "repo"
    (with_client (Some "abc123") (Some sample_view))
  = Raise (EdenError "mount point is busy" "EdenError(message='mount point is busy')")
      (log (EvRpc (Unmount "/mnt/repo"))
         (log (EvConnect (_config_dir sample_config))
            (with_client (Some "abc123") (Some sample_view)))).
Proof.
  apply (unmount_passes_service_error Json.loads sample_config "repo"
           (with_client (Some "abc123") (Some sample_view)) sample_info
           "/mnt/repo" sample_view).
  - apply get_client_info_returned. vm_compute. reflexivity.
  - reflexivity.
  - vm_compute. reflexivity.
  - reflexivity.
Defined.

(** A snapshot id with a carriage return inside and a no-break space at its
    end (the bytes 194 and 160 in UTF-8) comes back with a line feed inside
    and without the space. *)
Example snapshot_is_read_as_text :
  option_map info_snapshot
    (returned
       (get_client_info Json.loads sample_config "repo"
          (with_client
             (Some ("abc" +:+ String Str.cr "def"
                    +:+ String "194" (String "160" EmptyString)))
             None)))
  = Some ("abc" +:+ Str.nl +:+ "def").
Proof. vm_compute. reflexivity. Qed.

(** The example of the design: with [HOME], [RANDOM_VAR], [TESTPILOT_FOO] and
    a [PATH] of its own in the ambient environment, the daemon gets [HOME]
    and [TESTPILOT_FOO], the fixed [PATH], and no [RANDOM_VAR]. *)
Example build_eden_environment_sample :
  returned (_build_eden_environment sample_config (sample_world sample_tree None))
  = Some (<["HOME" := "/h"]> (<["TESTPILOT_FOO" := "y"]>
          (<["PATH" := "/usr/local/bin:/bin:/usr/bin"]> ∅))).
Proof. vm_compute. reflexivity. Qed.

(** A file where the local write-back directory should be: the helper
    returns as if all were well. *)
Example get_or_create_write_dir_on_a_file :
  let t : fstree :=
    <[["local"; "repo"; "clients"; ".eden"] := File "stray"]>
    (<[["repo"; "clients"; ".eden"] := Dir]>
    (<[["clients"; ".eden"] := Dir]> (<[[".eden"] := Dir]> ∅))) in
  let self := {| _config_dir := "/.eden" |} in
  returned (_get_or_create_write_dir self "repo" (sample_world t None))
  = Some "/.eden/clients/repo/local"
  ∧ isdir t "/.eden/clients/repo/local" = false
  ∧ fs (world_of (_get_or_create_write_dir self "repo" (sample_world t None))) = t.
Proof. repeat split; vm_compute; reflexivity. Qed.

(** While a file in the way of the directory is reported. *)
Example get_or_create_write_dir_under_a_file :
  let t : fstree := <[[".eden"] := File "stray"]> ∅ in
  let self := {| _config_dir := "/.eden" |} in
  raised (_get_or_create_write_dir self "repo" (sample_world t None))
  = Some (OSError ENOTDIR).
Proof. vm_compute. reflexivity. Qed.

(** [mount] and [checkout] on the sample machine when the service refuses:
    the caller sees a plain exception with the message of the service. *)
Example checkout_sample :
  let view := {| sv_getPid := Reply 4242; sv_getStatus := Reply ALIVE;
                 sv_mount := fun _ => AppError "no such repo" "EdenError(...)";
                 sv_unmount := fun _ => Reply tt;
                 sv_checkOutRevision := fun _ _ =>
                   AppError "unknown revision" "EdenError(...)" |} in
  raised (checkout Json.loads sample_config "repo" "def456"
            (with_client (Some "abc123") (Some view)))
  = Some (Exception "unknown revision")
  ∧ raised (mount Json.loads sample_config "repo"
              (with_client (Some "abc123") (Some view)))
    = Some (Exception "no such repo")
  ∧ raised (unmount Json.loads sample_config "repo"
              (with_client (Some "abc123") (Some sample_view)))
    = Some (EdenError "mount point is busy"
              "EdenError(message='mount point is busy')").
Proof. repeat split; vm_compute; reflexivity. Qed.

(** The example of the design: a daemon binary that exits at once with
    status 1.  [spawn] fails at the first attempt of the wait, the clock
    still at the start. *)
Example spawn_exits_at_once :
  raised (spawn 200 30 sample_config "/usr/local/bin/edenfs" None false false
            (sample_world sample_tree None))
  = Some (EdenStartError "edenfs exited before becoming healthy: exit status 1")
  ∧ now (world_of (spawn 200 30 sample_config "/usr/local/bin/edenfs" None
                     false false (sample_world sample_tree None))) = 0%nat.
Proof. split; vm_compute; reflexivity. Qed.

(** * The added properties on the sample machine *)

Lemma wf_sample_tree : wf_tree (fs (sample_world sample_tree None)).
Proof. apply (bool_decide_unpack _). vm_compute. exact I. Qed.

Lemma get_all_client_config_info_records_witness :
  world_of (get_all_client_config_info Json.loads sample_config
              (with_client (Some "abc123") None))
  = with_client (Some "abc123") None
  ∧ ∃ names,
      get_client_names sample_config (with_client (Some "abc123") None)
      = Ret names (with_client (Some "abc123") None)
      ∧ ∀ name i,
          (<["repo" := sample_info]> ∅ : gmap string client_info) !! name
          = Some i
          ↔ name ∈ names
            ∧ get_client_info Json.loads sample_config name
                (with_client (Some "abc123") None)
              = Ret i (with_client (Some "abc123") None).
Proof.
  apply (get_all_client_config_info_records Json.loads sample_config
           (with_client (Some "abc123") None)
           (world_of (get_all_client_config_info Json.loads sample_config
                        (with_client (Some "abc123") None)))
           (<["repo" := sample_info]> ∅)).
  apply returned_Ret. vm_compute. reflexivity.
Defined.

Lemma get_all_client_config_info_fails_witness :
  ∃ e' name',
    get_all_client_config_info Json.loads sample_config (with_client None None)
    = Raise e' (with_client None None)
    ∧ get_client_info Json.loads sample_config name' (with_client None None)
      = Raise e' (with_client None None).
Proof.
  apply (get_all_client_config_info_fails Json.loads sample_config "repo"
           (with_client None None) (OSError ENOENT)).
  - exact valid_repo.
  - vm_compute. reflexivity.
  - apply get_client_info_raised. vm_compute. reflexivity.
Defined.

Lemma create_client_twice_witness :
  create_client Json.dumps sample_config "repo" "/mnt/repo" None "hg"
    "/src/other" false (with_client (Some "abc123") None)
  = Raise (Exception ("Error: client " +:+ "repo" +:+ " already exists."))
      (with_client (Some "abc123") None).
Proof.
  apply (create_client_twice Json.dumps sample_config "repo" "/mnt/repo"
           (Some "abc123") "git" "/src/repo" true None "hg" "/src/other" false
           (sample_world sample_tree None)).
  - exact valid_repo.
  - unfold with_client. apply returned_Ret. vm_compute. reflexivity.
Defined.

Lemma create_client_succeeds_witness :
  ∃ w' names,
    create_client Json.dumps sample_config "repo" "/mnt" (Some "abc123") "git"
      "/src/repo" true (sample_world sample_tree None) = Ret tt w'
    ∧ wf_tree (fs w')
    ∧ get_client_names sample_config w' = Ret names w'
    ∧ "repo" ∈ names.
Proof.
  apply (create_client_succeeds Json.dumps sample_config "repo" "/mnt"
           (Some "abc123") "git" "/src/repo" true
           (sample_world sample_tree None)).
  - exact wf_sample_tree.
  - exact valid_repo.
  - vm_compute. reflexivity.
  - right. vm_compute. reflexivity.
Defined.

Lemma create_client_bind_mount_dirs_witness :
  os_listdir (os_path_join (client_dir_of sample_config "repo") "bind-mounts")
    (with_client (Some "abc123") None)
  = Ret (if true then ["buck-out"] else []) (with_client (Some "abc123") None).
Proof.
  apply (create_client_bind_mount_dirs Json.dumps sample_config "repo"
           "/mnt/repo" (Some "abc123") "git" "/src/repo" true
           (sample_world sample_tree None)).
  - exact wf_sample_tree.
  - exact valid_repo.
  - unfold with_client. apply returned_Ret. vm_compute. reflexivity.
Defined.

Lemma create_client_directory_witness :
  ∃ listing,
    os_listdir (client_dir_of sample_config "repo")
      (with_client (Some "abc123") None)
    = Ret listing (with_client (Some "abc123") None)
    ∧ listing ≡ₚ ("bind-mounts" :: CONFIG_JSON
                  :: if truthy (Some "abc123") then [SNAPSHOT] else []).
Proof.
  apply (create_client_directory Json.dumps sample_config "repo" "/mnt/repo"
           (Some "abc123") "git" "/src/repo" true
           (sample_world sample_tree None)).
  - exact wf_sample_tree.
  - exact valid_repo.
  - unfold with_client. apply returned_Ret. vm_compute. reflexivity.
Defined.

Lemma create_client_without_snapshot_fails_witness :
  get_client_info Json.loads sample_config "repo" (with_client None None)
  = Raise (OSError ENOENT) (with_client None None).
Proof.
  apply (create_client_without_snapshot_fails Json.dumps Json.loads
           sample_config "repo" "/mnt/repo" None "git" "/src/repo" true
           (sample_world sample_tree None)).
  - exact wf_sample_tree.
  - exact valid_repo.
  - reflexivity.
  - vm_compute. reflexivity.
  - unfold with_client. apply returned_Ret. vm_compute. reflexivity.
Defined.

Lemma check_health_healthy_iff_witness :
  (is_healthy sample_health = true
   ↔ ∃ v p,
       service (sample_world sample_tree (Some sample_view))
         (_config_dir sample_config)
         (now (sample_world sample_tree (Some sample_view))) = Some v
       ∧ sv_getPid v = Reply p ∧ sv_getStatus v = Reply ALIVE
       ∧ pid sample_health = Some p)
  ∧ (∀ v p,
       service (sample_world sample_tree (Some sample_view))
         (_config_dir sample_config)
         (now (sample_world sample_tree (Some sample_view))) = Some v →
       sv_getPid v = Reply p →
       (∀ s, sv_getStatus v ≠ Reply s) →
       status sample_health = DEAD ∧ pid sample_health = Some p).
Proof.
  apply (check_health_healthy_iff sample_config
           (sample_world sample_tree (Some sample_view)) sample_health
           (world_of (check_health sample_config
                        (sample_world sample_tree (Some sample_view))))).
  apply returned_Ret. vm_compute. reflexivity.
Defined.

Lemma verify_mount_point_on_a_file_witness :
  _verify_mount_point "/mnt/notes" (sample_world sample_tree_with_file None)
  = Raise (OSError EEXIST) (sample_world sample_tree_with_file None)
  ∧ ∀ self name snapshot_id repo_type repo_source with_buck,
      create_client Json.dumps self name "/mnt/notes" snapshot_id repo_type
        repo_source with_buck (sample_world sample_tree_with_file None)
      = Raise (OSError EEXIST) (sample_world sample_tree_with_file None).
Proof.
  apply (verify_mount_point_on_a_file Json.dumps "/mnt/notes"
           "remember the milk" (sample_world sample_tree_with_file None)).
  - vm_compute. reflexivity.
  - vm_compute. reflexivity.
Defined.

Lemma verify_mount_point_bare_name_witness :
  os_path_dirname "repo" = EmptyString
  ∧ _verify_mount_point "repo" (sample_world sample_tree None)
    = Raise (Exception
               (" must be a directory in order to mount a client at "
                +:+ "repo" +:+ ". "
                +:+ "If this is the correct location, run `mkdir -p "
                +:+ "` to create " +:+ "the directory."))
        (sample_world sample_tree None).
Proof.
  apply (verify_mount_point_bare_name "repo" (sample_world sample_tree None)).
  - apply valid_repo.
  - vm_compute. reflexivity.
Defined.

Lemma verify_mount_point_trailing_slash_witness :
  os_path_dirname ("/mnt/repo" +:+ "/") = "/mnt/repo"
  ∧ _verify_mount_point ("/mnt/repo" +:+ "/") (sample_world sample_tree None)
    = Raise (Exception (mount_point_error ("/mnt/repo" +:+ "/")))
        (sample_world sample_tree None).
Proof.
  apply (verify_mount_point_trailing_slash "/mnt/repo"
           (sample_world sample_tree None)).
  - vm_compute. reflexivity.
  - discriminate.
  - vm_compute. reflexivity.
Defined.

Lemma unknown_client_is_refused_witness :
  no_such_client "ghost"
  = Exception ("Error: no such client " +:+ Str.quote +:+ "ghost" +:+ Str.quote)
  ∧ get_client_info Json.loads sample_config "ghost"
      (with_client (Some "abc123") None)
    = Raise (no_such_client "ghost") (with_client (Some "abc123") None)
  ∧ (∀ snapshot_id,
       checkout Json.loads sample_config "ghost" snapshot_id
         (with_client (Some "abc123") None)
       = Raise (no_such_client "ghost") (with_client (Some "abc123") None))
  ∧ mount Json.loads sample_config "ghost" (with_client (Some "abc123") None)
    = Raise (no_such_client "ghost") (with_client (Some "abc123") None)
  ∧ unmount Json.loads sample_config "ghost" (with_client (Some "abc123") None)
    = Raise (no_such_client "ghost") (with_client (Some "abc123") None).
Proof.
  apply (unknown_client_is_refused Json.loads sample_config "ghost"
           (with_client (Some "abc123") None)).
  vm_compute. reflexivity.
Defined.

Lemma mount_keeps_entries_witness :
  stat_key (fs (world_of (mount Json.loads sample_config "repo"
                            (with_client (Some "abc123") None))))
    [CONFIG_JSON; "repo"; "clients"; ".eden"; "alice"; "home"]
  = inr (Some (File (Json.dumps (config_document "/mnt/repo" "git" "/src/repo"
                                   true) +:+ Str.nl))).
Proof.
  apply (mount_keeps_entries Json.loads sample_config "repo"
           (with_client (Some "abc123") None)).
  vm_compute. reflexivity.
Defined.

Lemma checkout_outcomes_witness :
  (service (with_client (Some "abc123") (Some sample_view))
     (_config_dir sample_config)
     (now (with_client (Some "abc123") (Some sample_view))) = None →
   checkout Json.loads sample_config "repo" "def456"
     (with_client (Some "abc123") (Some sample_view))
   = Raise EdenNotRunningError
       (log (EvConnect (_config_dir sample_config))
          (with_client (Some "abc123") (Some sample_view))))
  ∧ (∀ v,
       service (with_client (Some "abc123") (Some sample_view))
         (_config_dir sample_config)
         (now (with_client (Some "abc123") (Some sample_view))) = Some v →
       checkout Json.loads sample_config "repo" "def456"
         (with_client (Some "abc123") (Some sample_view))
       = let w' := log (EvRpc (CheckOutRevision "/mnt/repo" "def456"))
                     (log (EvConnect (_config_dir sample_config))
                        (with_client (Some "abc123") (Some sample_view))) in
         match sv_checkOutRevision v "/mnt/repo" "def456" with
         | Reply _ => Ret tt w'
         | AppError message _ => Raise (Exception message) w'
         | TransportError str => Raise (TException str) w'
         end).
Proof.
  apply (checkout_outcomes Json.loads sample_config "repo" "def456"
           (with_client (Some "abc123") (Some sample_view)) sample_info
           "/mnt/repo").
  - apply get_client_info_returned. vm_compute. reflexivity.
  - reflexivity.
Defined.

Lemma mount_makes_write_dir_witness :
  ∃ k w1,
    resolve (os_path_join (client_dir_of sample_config "repo") "local") = Some k
    ∧ w1 = log (EvConnect (_config_dir sample_config))
             (made_dir k (with_client (Some "abc123") None))
    ∧ isdir (fs w1) (os_path_join (client_dir_of sample_config "repo") "local")
      = true
    ∧ (service (with_client (Some "abc123") None) (_config_dir sample_config)
         (now (with_client (Some "abc123") None)) = None →
       mount Json.loads sample_config "repo" (with_client (Some "abc123") None)
       = Raise EdenNotRunningError w1)
    ∧ (∀ v,
         service (with_client (Some "abc123") None) (_config_dir sample_config)
           (now (with_client (Some "abc123") None)) = Some v →
         mount Json.loads sample_config "repo" (with_client (Some "abc123") None)
         = let mount_info :=
             {| mountPoint := "/mnt/repo";
                edenClientPath := info_client_dir sample_info |} in
           let w2 := log (EvRpc (Mount mount_info)) w1 in
           match sv_mount v mount_info with
           | Reply _ => Ret tt w2
           | AppError message _ => Raise (Exception message) w2
           | TransportError str => Raise (TException str) w2
           end).
Proof.
  apply (mount_makes_write_dir Json.loads sample_config "repo"
           (with_client (Some "abc123") None) sample_info "/mnt/repo").
  - apply get_client_info_returned. vm_compute. reflexivity.
  - reflexivity.
  - vm_compute. reflexivity.
  - vm_compute. reflexivity.
Defined.

Lemma get_or_create_dir_idempotent_witness :
  "/mnt/cache" = "/mnt/cache"
  ∧ _get_or_create_dir "/mnt/cache"
      (world_of (_get_or_create_dir "/mnt/cache" (sample_world sample_tree None)))
    = Ret "/mnt/cache"
        (world_of (_get_or_create_dir "/mnt/cache"
                     (sample_world sample_tree None))).
Proof.
  apply (get_or_create_dir_idempotent "/mnt/cache"
           (sample_world sample_tree None) "/mnt/cache"
           (world_of (_get_or_create_dir "/mnt/cache"
                        (sample_world sample_tree None)))).
  apply returned_Ret. vm_compute. reflexivity.
Defined.

Lemma get_or_create_dir_makes_directory_witness :
  isdir (fs (world_of (_get_or_create_dir "/var/cache/eden"
                         (sample_world sample_tree None))))
    "/var/cache/eden" = true
  ∧ (∀ k n,
       stat_key (fs (sample_world sample_tree None)) k = inr (Some n) →
       stat_key (fs (world_of (_get_or_create_dir "/var/cache/eden"
                                 (sample_world sample_tree None)))) k
       = inr (Some n))
  ∧ (∀ k d,
       fs (world_of (_get_or_create_dir "/var/cache/eden"
                       (sample_world sample_tree None))) !! k = Some (File d) →
       fs (sample_world sample_tree None) !! k = Some (File d)).
Proof.
  apply (get_or_create_dir_makes_directory "/var/cache/eden"
           (sample_world sample_tree None) "/var/cache/eden"
           (world_of (_get_or_create_dir "/var/cache/eden"
                        (sample_world sample_tree None)))).
  - exact wf_sample_tree.
  - intros data H. vm_compute in H. discriminate H.
  - apply returned_Ret. vm_compute. reflexivity.
Defined.

Lemma build_eden_environment_ignores_the_rest_witness :
  returned (_build_eden_environment sample_config
              (sample_world sample_tree None))
  = returned (_build_eden_environment {| _config_dir := "/srv/eden" |}
                sample_world_other_environ).
Proof.
  apply (build_eden_environment_ignores_the_rest sample_config
           {| _config_dir := "/srv/eden" |} (sample_world sample_tree None)
           sample_world_other_environ).
  intros name H. destruct (decide (name = "RANDOM_VAR")) as [->|Hne].
  - exfalso. destruct H as [H|H]; [|discriminate H].
    assert (bool_decide ("RANDOM_VAR" ∈ preserve) = false) as E
      by (vm_compute; reflexivity).
    apply bool_decide_eq_false in E. contradiction.
  - simpl. now rewrite lookup_insert_ne by congruence.
Defined.

Lemma spawn_foreground_execs_witness :
  ∃ eden_env w',
    spawn 200 30 sample_config "/usr/local/bin/edenfs" (Some ["--v=1"]) true
      false (sample_world sample_tree None)
    = Replaced w'
    ∧ returned (_build_eden_environment sample_config
                  (sample_world sample_tree None)) = Some eden_env
    ∧ events w'
      = (events (world_of (check_health sample_config
                             (sample_world sample_tree None)))
         ++ [EvGetEuid]
         ++ (if bool_decide (euid (sample_world sample_tree None) = 0) then []
             else [EvStat "/usr/local/bin/edenfs"])
         ++ [EvEnviron;
             EvExecve (eden_command sample_config "/usr/local/bin/edenfs"
                         (Some ["--v=1"]) true true)
               eden_env])%list
    ∧ fs w' = fs (sample_world sample_tree None).
Proof.
  apply (spawn_foreground_execs 200 30 sample_config "/usr/local/bin/edenfs"
           (Some ["--v=1"]) true false true (sample_world sample_tree None)
           {| status := DEAD; pid := None; detail := "edenfs not running" |}
           (world_of (check_health sample_config
                        (sample_world sample_tree None)))).
  - apply returned_Ret. vm_compute. reflexivity.
  - reflexivity.
  - left. reflexivity.
  - vm_compute. reflexivity.
  - reflexivity.
Defined.

Lemma get_client_info_malformed_witness :
  (Json.loads "not json" = None →
   get_client_info Json.loads sample_config "repo" with_broken_client
   = Raise ValueError with_broken_client)
  ∧ (∀ m raw,
       Json.loads "not json" = Some (JObj m) →
       stat_path (fs with_broken_client)
         (os_path_join (client_dir_of sample_config "repo") SNAPSHOT)
       = inr (Some (File raw)) →
       (m !! "bind-mounts" = None →
        get_client_info Json.loads sample_config "repo" with_broken_client
        = Raise (KeyError "bind-mounts") with_broken_client)
       ∧ (m !! "bind-mounts" ≠ None → m !! "mount" = None →
          get_client_info Json.loads sample_config "repo" with_broken_client
          = Raise (KeyError "mount") with_broken_client)).
Proof.
  apply (get_client_info_malformed Json.loads sample_config "repo"
           with_broken_client "not json").
  - vm_compute. reflexivity.
  - vm_compute. reflexivity.
Defined.

Lemma check_health_or_exit_prefers_health_witness :
  (is_healthy sample_health = true →
   check_health_or_exit sample_config sample_process
     (sample_world sample_tree (Some sample_view))
   = Ret (Some sample_health)
       (world_of (check_health sample_config
                    (sample_world sample_tree (Some sample_view)))))
  ∧ (∀ h' w',
       check_health_or_exit sample_config sample_process
         (sample_world sample_tree (Some sample_view))
       = Ret (Some h') w' →
       h' = sample_health
       ∧ w' = world_of (check_health sample_config
                          (sample_world sample_tree (Some sample_view)))
       ∧ is_healthy h' = true).
Proof.
  apply (check_health_or_exit_prefers_health sample_config sample_process
           (sample_world sample_tree (Some sample_view)) sample_health
           (world_of (check_health sample_config
                        (sample_world sample_tree (Some sample_view))))).
  apply returned_Ret. vm_compute. reflexivity.
Defined.
